(** * NetNS manager: entity store, orchestrator, reconciler and restore batch

    A shallow embedding of the Go packages [db], [netns], [cli] and [api] and
    of the shell script [netns-restore.sh], followed by the properties of the
    resource orchestration, reconciliation and restore engine.

    Conventions.
    - Go [int64] identifiers and timestamps are [Z]; Go strings are [string].
    - A Go [error] is a value of [error]: [fmt.Errorf] with [%w] is [EWrap].
    - A Go function returning [(T, error)] and touching the database or the
      kernel is a state-passing function [S -> S * result T].
    - Calls that leave the process (an SQL statement, a netlink request, a
      system call) can fail for reasons the program does not control.  Each
      state carries a list of fault bits; every such call consumes one bit
      and fails without effect when the bit is [true].  An empty list means
      that no further fault is injected. *)

From Stdlib Require Import ZArith Lia Bool Ascii.
From stdpp Require Import base list strings gmap sorting pretty.

Local Open Scope Z_scope.
Local Open Scope string_scope.
Local Open Scope list_scope.
#[local] Set Warnings "-clear-no-such-hyp".

(** ** Errors, results and the state-and-error monad *)

Inductive error : Type :=
| EMsg (msg : string)
| EWrap (msg : string) (cause : error).

Inductive result (A : Type) : Type :=
| Ok (a : A)
| Fail (e : error).
Arguments Ok {A} a.
Arguments Fail {A} e.

Definition is_ok {A} (r : result A) : bool :=
  match r with Ok _ => true | Fail _ => false end.

Definition M (S A : Type) : Type := S -> S * result A.

Definition ret {S A} (a : A) : M S A := fun s => (s, Ok a).
Definition throw {S A} (e : error) : M S A := fun s => (s, Fail e).
Definition gets {S A} (f : S -> A) : M S A := fun s => (s, Ok (f s)).
Definition modify {S} (f : S -> S) : M S unit := fun s => (f s, Ok tt).
Definition bind {S A B} (c : M S A) (k : A -> M S B) : M S B :=
  fun s => match c s with
           | (s', Ok a) => k a s'
           | (s', Fail e) => (s', Fail e)
           end.

Notation "x <- c ;; k" := (bind c (fun x => k))
  (at level 100, c at next level, right associativity).
Notation "c ;;; k" := (bind c (fun _ => k))
  (at level 100, right associativity).

(** Go's [%q] verb. *)
Definition dquote : string := String (Ascii.ascii_of_nat 34) EmptyString.
Definition quote (s : string) : string := dquote +:+ s +:+ dquote.

(** The next fault bit of a fault list. *)
Definition pop_fault (fs : list bool) : bool * list bool :=
  match fs with
  | [] => (false, [])
  | b :: fs' => (b, fs')
  end.

(** ** Package db: models.go *)

Module db.

Module Namespace.
Record t := mk { ID : Z; Name : string; CreatedAt : Z; Metadata : string }.
End Namespace.

Module VethPair.
Record t := mk { ID : Z; Name : string; PeerName : string;
  NsID : option Z; PeerNsID : option Z; CreatedAt : Z }.
End VethPair.

Module IPAddress.
Record t := mk { ID : Z; InterfaceName : string; NsID : option Z;
  Address : string; CreatedAt : Z }.
End IPAddress.

Module Route.
Record t := mk { ID : Z; NsID : option Z; Destination : string;
  Gateway : string; InterfaceName : string; CreatedAt : Z }.
End Route.

Module Bridge.
Record t := mk { ID : Z; Name : string; NsID : option Z; CreatedAt : Z }.
End Bridge.

Module BridgePort.
Record t := mk { ID : Z; BridgeID : Z; InterfaceName : string; CreatedAt : Z }.
End BridgePort.

Module GRETunnel.
Record t := mk { ID : Z; Name : string; LocalIP : string; RemoteIP : string;
  Key : Z; TTL : Z; NsID : option Z; CreatedAt : Z }.
End GRETunnel.

(** ** Package db: the schema of [migrate] and the database state

    One list per table, in rowid order.  [sqlite_sequence] is SQLite's table
    of the same name (AUTOINCREMENT), [now] is CURRENT_TIMESTAMP and [faults]
    the fault bits of the statements still to come.  The connection is opened
    with [_foreign_keys=on], so the REFERENCES clauses are enforced. *)

Record DB := mkDB {
  namespaces : list Namespace.t;
  veth_pairs : list VethPair.t;
  ip_addresses : list IPAddress.t;
  routes : list Route.t;
  bridges : list Bridge.t;
  bridge_ports : list BridgePort.t;
  gre_tunnels : list GRETunnel.t;
  sqlite_sequence : gmap string Z;
  now : Z;
  faults : list bool
}.

Definition set_faults (fs : list bool) (d : DB) : DB :=
  mkDB (namespaces d) (veth_pairs d) (ip_addresses d) (routes d) (bridges d)
       (bridge_ports d) (gre_tunnels d) (sqlite_sequence d) (now d) fs.

Definition set_sequence (q : gmap string Z) (d : DB) : DB :=
  mkDB (namespaces d) (veth_pairs d) (ip_addresses d) (routes d) (bridges d)
       (bridge_ports d) (gre_tunnels d) q (now d) (faults d).

Definition set_namespaces (l : list Namespace.t) (d : DB) : DB :=
  mkDB l (veth_pairs d) (ip_addresses d) (routes d) (bridges d)
       (bridge_ports d) (gre_tunnels d) (sqlite_sequence d) (now d) (faults d).

Definition set_veth_pairs (l : list VethPair.t) (d : DB) : DB :=
  mkDB (namespaces d) l (ip_addresses d) (routes d) (bridges d)
       (bridge_ports d) (gre_tunnels d) (sqlite_sequence d) (now d) (faults d).

Definition set_ip_addresses (l : list IPAddress.t) (d : DB) : DB :=
  mkDB (namespaces d) (veth_pairs d) l (routes d) (bridges d)
       (bridge_ports d) (gre_tunnels d) (sqlite_sequence d) (now d) (faults d).

Definition set_routes (l : list Route.t) (d : DB) : DB :=
  mkDB (namespaces d) (veth_pairs d) (ip_addresses d) l (bridges d)
       (bridge_ports d) (gre_tunnels d) (sqlite_sequence d) (now d) (faults d).

Definition set_bridges (l : list Bridge.t) (d : DB) : DB :=
  mkDB (namespaces d) (veth_pairs d) (ip_addresses d) (routes d) l
       (bridge_ports d) (gre_tunnels d) (sqlite_sequence d) (now d) (faults d).

Definition set_bridge_ports (l : list BridgePort.t) (d : DB) : DB :=
  mkDB (namespaces d) (veth_pairs d) (ip_addresses d) (routes d) (bridges d)
       l (gre_tunnels d) (sqlite_sequence d) (now d) (faults d).

Definition set_gre_tunnels (l : list GRETunnel.t) (d : DB) : DB :=
  mkDB (namespaces d) (veth_pairs d) (ip_addresses d) (routes d) (bridges d)
       (bridge_ports d) l (sqlite_sequence d) (now d) (faults d).

(** Every SQL statement starts here: the driver reports an error when the
    next fault bit is set. *)
Definition statement : M DB unit :=
  fun d => let '(b, fs) := pop_fault (faults d) in
           if b then (set_faults fs d, Fail (EMsg "database is unavailable"))
           else (set_faults fs d, Ok tt).

(** INTEGER PRIMARY KEY AUTOINCREMENT: one more than the largest rowid the
    table ever held. *)
Definition max_id (ids : list Z) : Z := foldr Z.max 0 ids.

Definition next_id (table : string) (ids : list Z) (d : DB) : Z :=
  Z.max (default 0 (sqlite_sequence d !! table)) (max_id ids) + 1.

Definition bump (table : string) (id : Z) (d : DB) : DB :=
  set_sequence (<[table := id]> (sqlite_sequence d)) d.

(** REFERENCES namespaces(id): a non-NULL reference needs its parent row. *)
Definition namespace_row_exists (id : Z) (d : DB) : bool :=
  bool_decide (id ∈ Namespace.ID <$> namespaces d).

Definition fk_namespace (ref : option Z) (d : DB) : bool :=
  match ref with
  | None => true
  | Some id => namespace_row_exists id d
  end.

Definition fk_bridge (id : Z) (d : DB) : bool :=
  bool_decide (id ∈ Bridge.ID <$> bridges d).

Definition unique_violation (column : string) : error :=
  EMsg ("UNIQUE constraint failed: " +:+ column).
Definition foreign_key_violation : error :=
  EMsg "FOREIGN KEY constraint failed".

(** ** Package db: repository.go *)

Module Repository.

(** *** Namespace operations *)

Definition insert_namespace (name metadata : string) : M DB Z :=
  statement ;;; fun d =>
    if bool_decide (name ∈ Namespace.Name <$> namespaces d)
    then (d, Fail (unique_violation "namespaces.name"))
    else
      let id := next_id "namespaces" (Namespace.ID <$> namespaces d) d in
      let row := Namespace.mk id name (now d) metadata in
      (bump "namespaces" id (set_namespaces (namespaces d ++ [row]) d), Ok id).

Definition GetNamespace (id : Z) : M DB (option Namespace.t) :=
  statement ;;;
  gets (fun d => find (fun n => bool_decide (Namespace.ID n = id)) (namespaces d)).

Definition CreateNamespace (name metadata : string) : M DB (option Namespace.t) :=
  fun d =>
    match insert_namespace name metadata d with
    | (d', Fail err) => (d', Fail (EWrap "failed to create namespace" err))
    | (d', Ok id) => GetNamespace id d'
    end.

Definition GetNamespaceByName (name : string) : M DB (option Namespace.t) :=
  statement ;;;
  gets (fun d => find (fun n => bool_decide (Namespace.Name n = name)) (namespaces d)).

(** ORDER BY name: the BINARY collation compares the bytes of the names. *)
Definition name_le (a b : Namespace.t) : Prop :=
  String.le (Namespace.Name a) (Namespace.Name b).

#[global] Instance name_le_dec a b : Decision (name_le a b).
Proof. unfold name_le. apply _. Defined.

Definition ListNamespaces : M DB (list Namespace.t) :=
  statement ;;; gets (fun d => merge_sort name_le (namespaces d)).

(** The foreign-key actions of the schema for a set of deleted namespace
    ids: [veth_pairs.ns_id], [ip_addresses.ns_id], [routes.ns_id],
    [bridges.ns_id] and [gre_tunnels.ns_id] are ON DELETE CASCADE,
    [veth_pairs.peer_ns_id] is ON DELETE SET NULL, and
    [bridge_ports.bridge_id] is ON DELETE CASCADE on [bridges]. *)
Definition refers (gone : list Z) (ref : option Z) : bool :=
  match ref with
  | Some id => bool_decide (id ∈ gone)
  | None => false
  end.

Definition set_null_peer (gone : list Z) (v : VethPair.t) : VethPair.t :=
  if refers gone (VethPair.PeerNsID v)
  then VethPair.mk (VethPair.ID v) (VethPair.Name v) (VethPair.PeerName v)
                   (VethPair.NsID v) None (VethPair.CreatedAt v)
  else v.

Definition on_delete_bridges (gone : list Z) (d : DB) : DB :=
  set_bridge_ports
    (filter (fun p => BridgePort.BridgeID p ∉ gone) (bridge_ports d)) d.

Definition on_delete_namespaces (gone : list Z) (d : DB) : DB :=
  let d := set_veth_pairs
             (set_null_peer gone <$>
                filter (fun v => refers gone (VethPair.NsID v) = false) (veth_pairs d)) d in
  let d := set_ip_addresses
             (filter (fun a => refers gone (IPAddress.NsID a) = false) (ip_addresses d)) d in
  let d := set_routes
             (filter (fun r => refers gone (Route.NsID r) = false) (routes d)) d in
  let dead := Bridge.ID <$>
                filter (fun b => refers gone (Bridge.NsID b) = true) (bridges d) in
  let d := set_bridges
             (filter (fun b => refers gone (Bridge.NsID b) = false) (bridges d)) d in
  let d := on_delete_bridges dead d in
  set_gre_tunnels
    (filter (fun t => refers gone (GRETunnel.NsID t) = false) (gre_tunnels d)) d.

(** DELETE FROM namespaces WHERE name = ?, with the rows it affected. *)
Definition delete_namespace_rows (name : string) : M DB Z :=
  statement ;;; fun d =>
    let gone := Namespace.ID <$>
                  filter (fun n => Namespace.Name n = name) (namespaces d) in
    let d' := set_namespaces
                (filter (fun n => Namespace.Name n ≠ name) (namespaces d)) d in
    (on_delete_namespaces gone d', Ok (Z.of_nat (length gone))).

Definition DeleteNamespace (name : string) : M DB unit :=
  rows <- delete_namespace_rows name ;;
  if bool_decide (rows = 0)
  then throw (EMsg ("namespace " +:+ quote name +:+ " not found"))
  else ret tt.

(** *** VethPair operations *)




Definition GetVethPairByName (name : string) : M DB (option VethPair.t) :=
  statement ;;;
  gets (fun d => find (fun v => bool_decide (VethPair.Name v = name)) (veth_pairs d)).

Definition DeleteVethPair (name : string) : M DB unit :=
  rows <- (statement ;;; fun d =>
             let hit := filter (fun v => VethPair.Name v = name) (veth_pairs d) in
             (set_veth_pairs (filter (fun v => VethPair.Name v ≠ name) (veth_pairs d)) d,
              Ok (Z.of_nat (length hit)))) ;;
  if bool_decide (rows = 0)
  then throw (EMsg ("veth pair " +:+ quote name +:+ " not found"))
  else ret tt.

(** *** IPAddress operations *)

Definition insert_ip_address (interfaceName : string) (nsID : option Z)
  (address : string) : M DB Z :=
  statement ;;; fun d =>
    if negb (fk_namespace nsID d)
    then (d, Fail foreign_key_violation)
    else
      let id := next_id "ip_addresses" (IPAddress.ID <$> ip_addresses d) d in
      let row := IPAddress.mk id interfaceName nsID address (now d) in
      (bump "ip_addresses" id (set_ip_addresses (ip_addresses d ++ [row]) d), Ok id).

Definition GetIPAddress (id : Z) : M DB (option IPAddress.t) :=
  statement ;;;
  gets (fun d => find (fun a => bool_decide (IPAddress.ID a = id)) (ip_addresses d)).

Definition CreateIPAddress (interfaceName : string) (nsID : option Z)
  (address : string) : M DB (option IPAddress.t) :=
  fun d =>
    match insert_ip_address interfaceName nsID address d with
    | (d', Fail err) => (d', Fail (EWrap "failed to create IP address" err))
    | (d', Ok id) => GetIPAddress id d'
    end.

Definition DeleteIPAddress (id : Z) : M DB unit :=
  rows <- (statement ;;; fun d =>
             let hit := filter (fun a => IPAddress.ID a = id) (ip_addresses d) in
             (set_ip_addresses (filter (fun a => IPAddress.ID a ≠ id) (ip_addresses d)) d,
              Ok (Z.of_nat (length hit)))) ;;
  if bool_decide (rows = 0)
  then throw (EMsg ("IP address with ID " +:+ pretty id +:+ " not found"))
  else ret tt.

(** *** Route operations *)


Definition GetRoute (id : Z) : M DB (option Route.t) :=
  statement ;;;
  gets (fun d => find (fun r => bool_decide (Route.ID r = id)) (routes d)).


Definition DeleteRoute (id : Z) : M DB unit :=
  rows <- (statement ;;; fun d =>
             let hit := filter (fun r => Route.ID r = id) (routes d) in
             (set_routes (filter (fun r => Route.ID r ≠ id) (routes d)) d,
              Ok (Z.of_nat (length hit)))) ;;
  if bool_decide (rows = 0)
  then throw (EMsg ("route with ID " +:+ pretty id +:+ " not found"))
  else ret tt.

(** *** Bridge operations *)

Definition insert_bridge (name : string) (nsID : option Z) : M DB Z :=
  statement ;;; fun d =>
    if bool_decide (name ∈ Bridge.Name <$> bridges d)
    then (d, Fail (unique_violation "bridges.name"))
    else if negb (fk_namespace nsID d)
    then (d, Fail foreign_key_violation)
    else
      let id := next_id "bridges" (Bridge.ID <$> bridges d) d in
      let row := Bridge.mk id name nsID (now d) in
      (bump "bridges" id (set_bridges (bridges d ++ [row]) d), Ok id).

Definition GetBridge (id : Z) : M DB (option Bridge.t) :=
  statement ;;;
  gets (fun d => find (fun b => bool_decide (Bridge.ID b = id)) (bridges d)).

Definition CreateBridge (name : string) (nsID : option Z) : M DB (option Bridge.t) :=
  fun d =>
    match insert_bridge name nsID d with
    | (d', Fail err) => (d', Fail (EWrap "failed to create bridge" err))
    | (d', Ok id) => GetBridge id d'
    end.

Definition GetBridgeByName (name : string) : M DB (option Bridge.t) :=
  statement ;;;
  gets (fun d => find (fun b => bool_decide (Bridge.Name b = name)) (bridges d)).

Definition DeleteBridge (name : string) : M DB unit :=
  rows <- (statement ;;; fun d =>
             let dead := Bridge.ID <$> filter (fun b => Bridge.Name b = name) (bridges d) in
             let d' := set_bridges (filter (fun b => Bridge.Name b ≠ name) (bridges d)) d in
             (on_delete_bridges dead d', Ok (Z.of_nat (length dead)))) ;;
  if bool_decide (rows = 0)
  then throw (EMsg ("bridge " +:+ quote name +:+ " not found"))
  else ret tt.

(** *** Bridge port operations *)

Definition insert_bridge_port (bridgeID : Z) (interfaceName : string) : M DB Z :=
  statement ;;; fun d =>
    if negb (fk_bridge bridgeID d)
    then (d, Fail foreign_key_violation)
    else
      let id := next_id "bridge_ports" (BridgePort.ID <$> bridge_ports d) d in
      let row := BridgePort.mk id bridgeID interfaceName (now d) in
      (bump "bridge_ports" id (set_bridge_ports (bridge_ports d ++ [row]) d), Ok id).

Definition AddBridgePort (bridgeID : Z) (interfaceName : string) : M DB BridgePort.t :=
  fun d =>
    match insert_bridge_port bridgeID interfaceName d with
    | (d', Fail err) => (d', Fail (EWrap "failed to add bridge port" err))
    | (d', Ok id) =>
        (statement ;;; fun d =>
           match find (fun p => bool_decide (BridgePort.ID p = id)) (bridge_ports d) with
           | Some port => (d, Ok port)
           | None => (d, Fail (EMsg "sql: no rows in result set"))
           end) d'
    end.

Definition RemoveBridgePort (bridgeID : Z) (interfaceName : string) : M DB unit :=
  rows <- (statement ;;; fun d =>
             let hit (p : BridgePort.t) :=
               BridgePort.BridgeID p = bridgeID ∧ BridgePort.InterfaceName p = interfaceName in
             (set_bridge_ports (filter (fun p => ¬ hit p) (bridge_ports d)) d,
              Ok (Z.of_nat (length (filter hit (bridge_ports d)))))) ;;
  if bool_decide (rows = 0)
  then throw (EMsg ("port " +:+ quote interfaceName +:+ " not found on bridge"))
  else ret tt.

(** *** GRE tunnel operations *)




Definition DeleteGRETunnel (name : string) : M DB unit :=
  rows <- (statement ;;; fun d =>
             let hit := filter (fun t => GRETunnel.Name t = name) (gre_tunnels d) in
             (set_gre_tunnels (filter (fun t => GRETunnel.Name t ≠ name) (gre_tunnels d)) d,
              Ok (Z.of_nat (length hit)))) ;;
  if bool_decide (rows = 0)
  then throw (EMsg ("GRE tunnel " +:+ quote name +:+ " not found"))
  else ret tt.

(** *** The list queries

    ORDER BY compares the bytes of the column (BINARY collation); rows that
    agree on the column keep their rowid order here. *)

Definition by_key {A} (key : A -> string) (a b : A) : Prop := String.le (key a) (key b).

#[global] Instance by_key_dec {A} (key : A -> string) a b : Decision (by_key key a b).
Proof. unfold by_key. apply _. Defined.

(** WHERE ns_id = ?, or no WHERE clause for a nil id. *)
Definition in_namespace (nsID ref : option Z) : Prop :=
  match nsID with
  | Some id => ref = Some id
  | None => True
  end.

#[global] Instance in_namespace_dec nsID ref : Decision (in_namespace nsID ref).
Proof. destruct nsID; simpl; apply _. Defined.

Definition ListVethPairs : M DB (list VethPair.t) :=
  statement ;;; gets (fun d => merge_sort (by_key VethPair.Name) (veth_pairs d)).

Definition ListIPAddresses (nsID : option Z) : M DB (list IPAddress.t) :=
  statement ;;;
  gets (fun d => merge_sort (by_key IPAddress.InterfaceName)
                   (filter (fun a => in_namespace nsID (IPAddress.NsID a)) (ip_addresses d))).

Definition ListRoutes (nsID : option Z) : M DB (list Route.t) :=
  statement ;;;
  gets (fun d => merge_sort (by_key Route.Destination)
                   (filter (fun r => in_namespace nsID (Route.NsID r)) (routes d))).

Definition ListBridges : M DB (list Bridge.t) :=
  statement ;;; gets (fun d => merge_sort (by_key Bridge.Name) (bridges d)).

Definition ListBridgePorts (bridgeID : Z) : M DB (list BridgePort.t) :=
  statement ;;;
  gets (fun d => merge_sort (by_key BridgePort.InterfaceName)
                   (filter (fun p => BridgePort.BridgeID p = bridgeID) (bridge_ports d))).

Definition GetGRETunnelByName (name : string) : M DB (option GRETunnel.t) :=
  statement ;;;
  gets (fun d => find (fun t => bool_decide (GRETunnel.Name t = name)) (gre_tunnels d)).

Definition ListGRETunnels (nsID : option Z) : M DB (list GRETunnel.t) :=
  statement ;;;
  gets (fun d => merge_sort (by_key GRETunnel.Name)
                   (filter (fun t => in_namespace nsID (GRETunnel.NsID t)) (gre_tunnels d))).

End Repository.

End db.

(** ** The libraries below package netns

    Packages [os], [syscall], [net], [vishvananda/netns] and
    [vishvananda/netlink] are not part of the repository.  The managers are
    written against this interface; [K] is the state of the host the process
    runs on. *)

(** [netns.NsHandle] is a file descriptor. *)
Definition NsHandle : Type := Z.

(** [*netlink.Handle]: the package-level functions of netlink use
    [pkgHandle], whose sockets live in the network namespace of the calling
    thread; [netlink.NewHandleAt] returns a handle whose sockets live in the
    given namespace. *)
Inductive Handle : Type :=
| pkgHandle
| SocketHandle (fd : Z).

(** [netlink.Link], reduced to the attributes the managers read. *)
Record Link := mkLink { Index : Z; LinkName : string }.

(** What [netlink.LinkAdd] is asked to create. *)
Inductive LinkType : Type :=
| Veth (PeerName : string)
| Bridge
| Gretun (Local Remote : string) (IKey OKey Ttl : Z).

(** [netlink.Route], reduced to the fields [buildRoute] sets. *)
Record NlRoute := mkRoute { Dst : option string; Gw : option string; LinkIndex : Z }.

Record DirEntry := mkDirEntry { EntryName : string; IsDir : bool }.

Definition ENOENT : error := EMsg "no such file or directory".

#[global] Instance error_eq_dec : EqDecision error.
Proof. solve_decision. Defined.

Definition os_IsNotExist (r : result unit) : bool :=
  match r with
  | Fail e => bool_decide (e = ENOENT)
  | Ok _ => false
  end.

Class Sys (K : Type) : Type := {
  (* package net and netlink's parser: [None] is a parse error *)
  net_ParseIP : string -> option string;
  net_ParseCIDR : string -> option string;
  netlink_ParseAddr : string -> result string;
  (* package vishvananda/netns *)
  netns_Get : M K NsHandle;
  netns_Set : NsHandle -> M K unit;
  netns_New : M K NsHandle;
  netns_GetFromPath : string -> M K NsHandle;
  NsHandle_Close : NsHandle -> M K unit;
  (* packages os and syscall *)
  os_MkdirAll : string -> M K unit;
  os_Create : string -> M K unit;
  os_Remove : string -> M K unit;
  os_Stat : string -> M K unit;
  os_ReadDir : string -> M K (list DirEntry);
  syscall_Mount : string -> string -> M K unit;
  syscall_Unmount : string -> M K unit;
  (* package vishvananda/netlink *)
  netlink_NewHandleAt : NsHandle -> M K Handle;
  Handle_Close : Handle -> M K unit;
  LinkAdd : Handle -> string -> LinkType -> M K Link;
  LinkDel : Handle -> Link -> M K unit;
  LinkByName : Handle -> string -> M K Link;
  LinkSetNsFd : Handle -> Link -> Z -> M K unit;
  LinkSetUp : Handle -> Link -> M K unit;
  LinkSetDown : Handle -> Link -> M K unit;
  LinkSetMaster : Handle -> Link -> Link -> M K unit;
  LinkSetNoMaster : Handle -> Link -> M K unit;
  AddrAdd : Handle -> Link -> string -> M K unit;
  AddrDel : Handle -> Link -> string -> M K unit;
  RouteAdd : Handle -> NlRoute -> M K unit;
  RouteDel : Handle -> NlRoute -> M K unit
}.

(** Control operators of the embedding. *)

(** [fmt.Errorf(msg + ": %w", err)] on the error path of [c]. *)
Definition wrap {S A} (msg : string) (c : M S A) : M S A :=
  fun s => match c s with
           | (s', Fail e) => (s', Fail (EWrap msg e))
           | r => r
           end.

(** A call whose returned error is dropped. *)
Definition ignore {S A} (c : M S A) : M S unit :=
  fun s => (fst (c s), Ok tt).

(** [defer cleanup] placed before [body]: [cleanup] runs when [body]
    returns, on every path. *)
Definition defer {S A B} (cleanup : M S B) (body : M S A) : M S A :=
  fun s => let '(s1, r) := body s in (fst (cleanup s1), r).

(** ** Package netns *)

Module netns.

Definition netnsPath : string := "/var/run/netns".

(** [filepath.Join(netnsPath, name)] for a plain file name. *)
Definition Join (dir name : string) : string := dir +:+ "/" +:+ name.

(** *** route.go (linux): the two system calls *)

Definition mountBind {K} `{Sys K} (source target : string) : M K unit :=
  syscall_Mount source target.
Definition unmount {K} `{Sys K} (target : string) : M K unit :=
  syscall_Unmount target.

(** *** namespace.go *)

Module Manager.
Section with_sys.
Context {K : Type} `{Sys K}.

Definition GetHandle (namespaceName : string) : M K NsHandle :=
  netns_GetFromPath (Join netnsPath namespaceName).

(** [runtime.LockOSThread] pins the goroutine to its thread; in this
    single-threaded model it has no effect and is left out. *)
Definition Create (namespaceName : string) : M K unit :=
  originalNamespace <- wrap "failed to get current namespace" netns_Get ;;
  defer (NsHandle_Close originalNamespace) (
    wrap "failed to create netns directory" (os_MkdirAll netnsPath) ;;;
    newNamespace <- wrap "failed to create namespace" netns_New ;;
    let namespacePath := Join netnsPath namespaceName in
    fun k =>
      match os_Create namespacePath k with
      | (k, Fail err) =>
          (ignore (NsHandle_Close newNamespace) ;;;
           ignore (netns_Set originalNamespace) ;;;
           throw (EWrap "failed to create namespace file" err)) k
      | (k, Ok _) =>
          let namespaceFdPath := "/proc/self/fd/" +:+ pretty newNamespace in
          match mountBind namespaceFdPath namespacePath k with
          | (k, Fail err) =>
              (ignore (os_Remove namespacePath) ;;;
               ignore (NsHandle_Close newNamespace) ;;;
               ignore (netns_Set originalNamespace) ;;;
               throw (EWrap "failed to bind mount namespace" err)) k
          | (k, Ok _) =>
              (ignore (loopbackInterface <- LinkByName pkgHandle "lo" ;;
                       LinkSetUp pkgHandle loopbackInterface) ;;;
               ignore (NsHandle_Close newNamespace) ;;;
               wrap "failed to restore original namespace"
                    (netns_Set originalNamespace)) k
          end
      end).

Definition Delete (namespaceName : string) : M K unit :=
  let namespacePath := Join netnsPath namespaceName in
  fun k =>
    let '(k, r) := os_Stat namespacePath k in
    if os_IsNotExist r
    then (k, Fail (EMsg ("namespace " +:+ quote namespaceName +:+ " does not exist")))
    else
      (wrap "failed to unmount namespace" (unmount namespacePath) ;;;
       wrap "failed to remove namespace file" (os_Remove namespacePath)) k.

Definition List : M K (list string) :=
  fun k =>
    match os_ReadDir netnsPath k with
    | (k, Fail err) =>
        if os_IsNotExist (Fail err) then (k, Ok [])
        else (k, Fail (EWrap "failed to read netns directory" err))
    | (k, Ok directoryEntries) =>
        (k, Ok (EntryName <$> filter (fun e => IsDir e = false) directoryEntries))
    end.

Definition Exists (namespaceName : string) : K -> K * bool :=
  fun k => let '(k, r) := os_Stat (Join netnsPath namespaceName) k in (k, is_ok r).

Definition RunInNamespace (namespaceName : string)
  (functionToExecute : M K unit) : M K unit :=
  originalNamespace <- wrap "failed to get current namespace" netns_Get ;;
  defer (NsHandle_Close originalNamespace) (
    targetNamespace <-
      wrap ("failed to get namespace " +:+ quote namespaceName)
           (GetHandle namespaceName) ;;
    defer (NsHandle_Close targetNamespace) (
      wrap "failed to enter namespace" (netns_Set targetNamespace) ;;;
      fun k =>
        let '(k, executionError) := functionToExecute k in
        match netns_Set originalNamespace k with
        | (k, Fail err) => (k, Fail (EWrap "failed to restore namespace" err))
        | (k, Ok _) => (k, executionError)
        end)).

Definition GetNetlinkHandle (namespaceName : string) : M K Handle :=
  namespaceHandle <- GetHandle namespaceName ;;
  fun k =>
    match netlink_NewHandleAt namespaceHandle k with
    | (k, Fail err) =>
        (ignore (NsHandle_Close namespaceHandle) ;;;
         throw (EWrap "failed to create netlink handle" err)) k
    | (k, Ok netlinkHandle) => (k, Ok netlinkHandle)
    end.

End with_sys.
End Manager.

(** *** veth.go *)

Module VethManager.
Section with_sys.
Context {K : Type} `{Sys K}.

Definition moveToNamespace (interfaceName namespaceName : string) : M K unit :=
  networkLink <-
    wrap ("failed to find interface " +:+ quote interfaceName)
         (LinkByName pkgHandle interfaceName) ;;
  namespaceHandle <-
    wrap ("failed to get namespace " +:+ quote namespaceName)
         (Manager.GetHandle namespaceName) ;;
  defer (NsHandle_Close namespaceHandle)
    (wrap "failed to move interface to namespace"
          (LinkSetNsFd pkgHandle networkLink namespaceHandle)).

Definition Create (interfaceName peerInterfaceName namespaceName peerNamespaceName : string)
  : M K unit :=
  vethPair <- wrap "failed to create veth pair"
                   (LinkAdd pkgHandle interfaceName (Veth peerInterfaceName)) ;;
  (* Move first end to namespace if specified *)
  (if bool_decide (namespaceName ≠ EmptyString)
   then fun k =>
          match moveToNamespace interfaceName namespaceName k with
          | (k, Fail err) =>
              (* Cleanup on failure *)
              (ignore (LinkDel pkgHandle vethPair) ;;; throw err) k
          | (k, Ok _) => (k, Ok tt)
          end
   else ret tt) ;;;
  (* Move peer end to namespace if specified *)
  (if bool_decide (peerNamespaceName ≠ EmptyString)
   then fun k =>
          match moveToNamespace peerInterfaceName peerNamespaceName k with
          | (k, Fail err) =>
              (* Cleanup on failure *)
              (ignore (LinkDel pkgHandle vethPair) ;;; throw err) k
          | (k, Ok _) => (k, Ok tt)
          end
   else ret tt).

(** The loop of [Delete] over the namespaces [Manager.List] returned. *)
Fixpoint searchNamespaces (interfaceName : string) (namespaceList : list string)
  : M K unit :=
  match namespaceList with
  | [] => throw (EMsg ("veth " +:+ quote interfaceName +:+ " not found"))
  | namespaceName :: rest =>
      fun k =>
        match Manager.GetNetlinkHandle namespaceName k with
        | (k, Fail _) => searchNamespaces interfaceName rest k
        | (k, Ok netlinkHandle) =>
            match LinkByName netlinkHandle interfaceName k with
            | (k, Ok networkLink) =>
                let '(k, err) := LinkDel netlinkHandle networkLink k in
                (fst (Handle_Close netlinkHandle k), err)
            | (k, Fail _) =>
                searchNamespaces interfaceName rest (fst (Handle_Close netlinkHandle k))
            end
        end
  end.

Definition Delete (interfaceName : string) : M K unit :=
  fun k =>
    (* Try to find in host namespace first *)
    match LinkByName pkgHandle interfaceName k with
    | (k, Ok networkLink) => LinkDel pkgHandle networkLink k
    | (k, Fail _) =>
        (* Interface might be in a namespace, search all namespaces *)
        let '(k, namespaceList) := Manager.List k in
        searchNamespaces interfaceName
          (match namespaceList with Ok l => l | Fail _ => [] end) k
    end.

End with_sys.
End VethManager.

(** *** address.go *)

Module AddressManager.

Definition scopeToString (scopeValue : Z) : string :=
  if bool_decide (scopeValue = 0) then "global"
  else if bool_decide (scopeValue = 200) then "site"
  else if bool_decide (scopeValue = 253) then "link"
  else if bool_decide (scopeValue = 254) then "host"
  else if bool_decide (scopeValue = 255) then "nowhere"
  else pretty scopeValue.

Section with_sys.
Context {K : Type} `{Sys K}.

Definition Add (address interfaceName namespaceName : string) : M K unit :=
  match netlink_ParseAddr address with
  | Fail err => throw (EWrap ("invalid address " +:+ quote address) err)
  | Ok parsedAddress =>
      if bool_decide (namespaceName = EmptyString)
      then
        networkLink <-
          wrap ("failed to find interface " +:+ quote interfaceName)
               (LinkByName pkgHandle interfaceName) ;;
        AddrAdd pkgHandle networkLink parsedAddress
      else
        netlinkHandle <- Manager.GetNetlinkHandle namespaceName ;;
        defer (Handle_Close netlinkHandle) (
          networkLink <-
            wrap ("failed to find interface " +:+ quote interfaceName +:+
                  " in namespace " +:+ quote namespaceName)
                 (LinkByName netlinkHandle interfaceName) ;;
          AddrAdd netlinkHandle networkLink parsedAddress)
  end.

Definition Delete (address interfaceName namespaceName : string) : M K unit :=
  match netlink_ParseAddr address with
  | Fail err => throw (EWrap ("invalid address " +:+ quote address) err)
  | Ok parsedAddress =>
      if bool_decide (namespaceName = EmptyString)
      then
        networkLink <-
          wrap ("failed to find interface " +:+ quote interfaceName)
               (LinkByName pkgHandle interfaceName) ;;
        AddrDel pkgHandle networkLink parsedAddress
      else
        netlinkHandle <- Manager.GetNetlinkHandle namespaceName ;;
        defer (Handle_Close netlinkHandle) (
          networkLink <-
            wrap ("failed to find interface " +:+ quote interfaceName +:+
                  " in namespace " +:+ quote namespaceName)
                 (LinkByName netlinkHandle interfaceName) ;;
          AddrDel netlinkHandle networkLink parsedAddress)
  end.

End with_sys.
End AddressManager.

(** *** route.go *)

Module RouteManager.

Definition protocolToString (protocolValue : Z) : string :=
  if bool_decide (protocolValue = 0) then "unspec"
  else if bool_decide (protocolValue = 1) then "redirect"
  else if bool_decide (protocolValue = 2) then "kernel"
  else if bool_decide (protocolValue = 3) then "boot"
  else if bool_decide (protocolValue = 4) then "static"
  else if bool_decide (protocolValue = 8) then "gated"
  else if bool_decide (protocolValue = 9) then "ra"
  else if bool_decide (protocolValue = 10) then "mrt"
  else if bool_decide (protocolValue = 11) then "zebra"
  else if bool_decide (protocolValue = 12) then "bird"
  else if bool_decide (protocolValue = 13) then "dnrouted"
  else if bool_decide (protocolValue = 14) then "xorp"
  else if bool_decide (protocolValue = 15) then "ntk"
  else if bool_decide (protocolValue = 16) then "dhcp"
  else if bool_decide (protocolValue = 17) then "mrouted"
  else if bool_decide (protocolValue = 42) then "babel"
  else if bool_decide (protocolValue = 186) then "bgp"
  else if bool_decide (protocolValue = 187) then "isis"
  else if bool_decide (protocolValue = 188) then "ospf"
  else if bool_decide (protocolValue = 189) then "rip"
  else if bool_decide (protocolValue = 192) then "eigrp"
  else pretty protocolValue.

Section with_sys.
Context {K : Type} `{Sys K}.

(** The destination of [buildRoute] and [Delete]: [nil] for the default route. *)
Definition parseDestination (destination : string) : result (option string) :=
  if bool_decide (destination ≠ "default" ∧ destination ≠ EmptyString)
  then match net_ParseCIDR destination with
       | None => Fail (EWrap ("invalid destination " +:+ quote destination)
                             (EMsg "invalid CIDR address"))
       | Some destinationNetwork => Ok (Some destinationNetwork)
       end
  else Ok None.

Definition buildRoute (destination gateway interfaceName namespaceName : string)
  : M K NlRoute :=
  match parseDestination destination with
  | Fail err => throw err
  | Ok dst =>
      match (if bool_decide (gateway ≠ EmptyString)
             then match net_ParseIP gateway with
                  | None => Fail (EMsg ("invalid gateway " +:+ quote gateway))
                  | Some gatewayIP => Ok (Some gatewayIP)
                  end
             else Ok None) with
      | Fail err => throw err
      | Ok gw =>
          if bool_decide (interfaceName ≠ EmptyString)
          then
            networkLink <-
              (if bool_decide (namespaceName = EmptyString)
               then wrap ("failed to find interface " +:+ quote interfaceName)
                         (LinkByName pkgHandle interfaceName)
               else
                 netlinkHandle <- Manager.GetNetlinkHandle namespaceName ;;
                 wrap ("failed to find interface " +:+ quote interfaceName)
                      (defer (Handle_Close netlinkHandle)
                             (LinkByName netlinkHandle interfaceName))) ;;
            ret (mkRoute dst gw (Index networkLink))
          else ret (mkRoute dst gw 0)
      end
  end.

Definition Add (destination gateway interfaceName namespaceName : string) : M K unit :=
  networkRoute <- buildRoute destination gateway interfaceName namespaceName ;;
  if bool_decide (namespaceName = EmptyString)
  then RouteAdd pkgHandle networkRoute
  else
    netlinkHandle <- Manager.GetNetlinkHandle namespaceName ;;
    defer (Handle_Close netlinkHandle) (RouteAdd netlinkHandle networkRoute).

Definition Delete (destination namespaceName : string) : M K unit :=
  match parseDestination destination with
  | Fail err => throw err
  | Ok destinationNetwork =>
      let networkRoute := mkRoute destinationNetwork None 0 in
      if bool_decide (namespaceName = EmptyString)
      then RouteDel pkgHandle networkRoute
      else
        netlinkHandle <- Manager.GetNetlinkHandle namespaceName ;;
        defer (Handle_Close netlinkHandle) (RouteDel netlinkHandle networkRoute)
  end.

Definition AddDefault (gateway interfaceName namespaceName : string) : M K unit :=
  Add EmptyString gateway interfaceName namespaceName.

Definition DeleteDefault (namespaceName : string) : M K unit :=
  Delete "default" namespaceName.

End with_sys.
End RouteManager.

(** *** bridge.go *)

Module BridgeManager.
Section with_sys.
Context {K : Type} `{Sys K}.

Definition Create (bridgeName namespaceName : string) : M K unit :=
  if bool_decide (namespaceName = EmptyString)
  then
    bridgeLink <- wrap "failed to create bridge" (LinkAdd pkgHandle bridgeName Bridge) ;;
    LinkSetUp pkgHandle bridgeLink
  else
    netlinkHandle <- Manager.GetNetlinkHandle namespaceName ;;
    defer (Handle_Close netlinkHandle) (
      wrap "failed to create bridge" (LinkAdd netlinkHandle bridgeName Bridge) ;;;
      networkLink <- LinkByName netlinkHandle bridgeName ;;
      LinkSetUp netlinkHandle networkLink).

Definition Delete (bridgeName namespaceName : string) : M K unit :=
  if bool_decide (namespaceName = EmptyString)
  then
    networkLink <- wrap ("bridge " +:+ quote bridgeName +:+ " not found")
                        (LinkByName pkgHandle bridgeName) ;;
    LinkDel pkgHandle networkLink
  else
    netlinkHandle <- Manager.GetNetlinkHandle namespaceName ;;
    defer (Handle_Close netlinkHandle) (
      networkLink <-
        wrap ("bridge " +:+ quote bridgeName +:+ " not found in namespace " +:+
              quote namespaceName)
             (LinkByName netlinkHandle bridgeName) ;;
      LinkDel netlinkHandle networkLink).


Definition RemovePort (interfaceName namespaceName : string) : M K unit :=
  if bool_decide (namespaceName = EmptyString)
  then
    interfaceLink <- wrap ("interface " +:+ quote interfaceName +:+ " not found")
                          (LinkByName pkgHandle interfaceName) ;;
    LinkSetNoMaster pkgHandle interfaceLink
  else
    netlinkHandle <- Manager.GetNetlinkHandle namespaceName ;;
    defer (Handle_Close netlinkHandle) (
      interfaceLink <-
        wrap ("interface " +:+ quote interfaceName +:+ " not found in namespace " +:+
              quote namespaceName)
             (LinkByName netlinkHandle interfaceName) ;;
      LinkSetNoMaster netlinkHandle interfaceLink).

End with_sys.
End BridgeManager.

(** *** gre.go *)

Module GREManager.

Record GRETunnel := mkGRETunnel {
  Name : string; LocalIP : string; RemoteIP : string;
  Key : Z; TTL : Z; Namespace : string
}.

Section with_sys.
Context {K : Type} `{Sys K}.

Definition CreateWithOptions (tunnelConfig : GRETunnel) : M K unit :=
  match net_ParseIP (LocalIP tunnelConfig) with
  | None => throw (EMsg ("invalid local IP: " +:+ LocalIP tunnelConfig))
  | Some localIPAddress =>
      match net_ParseIP (RemoteIP tunnelConfig) with
      | None => throw (EMsg ("invalid remote IP: " +:+ RemoteIP tunnelConfig))
      | Some remoteIPAddress =>
          let key := if bool_decide (0 < Key tunnelConfig) then Key tunnelConfig else 0 in
          let ttl := if bool_decide (0 < TTL tunnelConfig) then TTL tunnelConfig else 0 in
          let greTunnelLink := Gretun localIPAddress remoteIPAddress key key ttl in
          if bool_decide (Namespace tunnelConfig = EmptyString)
          then
            link <- wrap "failed to create GRE tunnel"
                         (LinkAdd pkgHandle (Name tunnelConfig) greTunnelLink) ;;
            LinkSetUp pkgHandle link
          else
            netlinkHandle <- Manager.GetNetlinkHandle (Namespace tunnelConfig) ;;
            defer (Handle_Close netlinkHandle) (
              wrap ("failed to create GRE tunnel in namespace " +:+ Namespace tunnelConfig)
                   (LinkAdd netlinkHandle (Name tunnelConfig) greTunnelLink) ;;;
              tunnelLink <- LinkByName netlinkHandle (Name tunnelConfig) ;;
              LinkSetUp netlinkHandle tunnelLink)
      end
  end.

Definition Create (tunnelName localIP remoteIP namespaceName : string) : M K unit :=
  CreateWithOptions (mkGRETunnel tunnelName localIP remoteIP 0 0 namespaceName).

Definition Delete (tunnelName namespaceName : string) : M K unit :=
  if bool_decide (namespaceName = EmptyString)
  then
    tunnelLink <- wrap ("GRE tunnel " +:+ quote tunnelName +:+ " not found")
                       (LinkByName pkgHandle tunnelName) ;;
    LinkDel pkgHandle tunnelLink
  else
    netlinkHandle <- Manager.GetNetlinkHandle namespaceName ;;
    defer (Handle_Close netlinkHandle) (
      tunnelLink <-
        wrap ("GRE tunnel " +:+ quote tunnelName +:+ " not found in namespace " +:+
              quote namespaceName)
             (LinkByName netlinkHandle tunnelName) ;;
      LinkDel netlinkHandle tunnelLink).


End with_sys.
End GREManager.

End netns.

(** ** Package cli

    The commands read and write two package-level variables, [Repo] and the
    flag variables; the state of a command is the host, the database behind
    [Repo] and what was printed.  [cobra.ExactArgs] has checked the number
    of arguments before [RunE] runs, so a command takes its arguments by
    name; the flag variables are passed as arguments too. *)

Module cli.

Record World (K : Type) := mkWorld {
  kernel : K;
  Repo : db.DB;
  Stdout : list string;
  Stderr : list string
}.
Arguments mkWorld {K} _ _ _ _.
Arguments kernel {K} _.
Arguments Repo {K} _.
Arguments Stdout {K} _.
Arguments Stderr {K} _.

Definition sys {K A} (c : M K A) : M (World K) A :=
  fun w => let '(k, r) := c (kernel w) in
           (mkWorld k (Repo w) (Stdout w) (Stderr w), r).

Definition repo {K A} (c : M db.DB A) : M (World K) A :=
  fun w => let '(d, r) := c (Repo w) in
           (mkWorld (kernel w) d (Stdout w) (Stderr w), r).

Definition Printf {K} (line : string) : M (World K) unit :=
  modify (fun w => mkWorld (kernel w) (Repo w) (Stdout w ++ [line]) (Stderr w)).

Definition Warnf {K} (line : string) : M (World K) unit :=
  modify (fun w => mkWorld (kernel w) (Repo w) (Stdout w) (Stderr w ++ [line])).

(** [err.Error()]. *)
Fixpoint Error (e : error) : string :=
  match e with
  | EMsg msg => msg
  | EWrap msg cause => msg +:+ ": " +:+ Error cause
  end.

(** The block every command repeats to find the namespace id for the
    database: the id of the record named [name], or nil when the name is
    empty, the lookup fails or there is no such record. *)
Definition namespaceIDOf {K} (name : string) : World K -> World K * option Z :=
  fun w =>
    if bool_decide (name ≠ EmptyString)
    then match repo (db.Repository.GetNamespaceByName name) w with
         | (w, Ok (Some namespaceRecord)) => (w, Some (db.Namespace.ID namespaceRecord))
         | (w, _) => (w, None)
         end
    else (w, None).

Section commands.
Context {K : Type} `{Sys K}.

(** *** namespace.go *)


Definition nsDeleteCmd (namespaceName : string) : M (World K) unit :=
  (* Delete from system *)
  sys (netns.Manager.Delete namespaceName) ;;;
  (* Remove from database *)
  (fun w =>
     match repo (db.Repository.DeleteNamespace namespaceName) w with
     | (w, Fail err) =>
         (* Log but don't fail - system change already made *)
         Warnf ("Warning: failed to remove from database: " +:+ Error err) w
     | (w, Ok _) => (w, Ok tt)
     end) ;;;
  Printf ("Deleted namespace: " +:+ namespaceName).

(** One line of the table [nsListCmd] prints. *)
Record Row := mkRow { NAME : string; STATUS : string; CREATED : string }.

(** [CreatedAt.Format]: the layout is fixed; the time is shown as its
    number of seconds. *)
Definition Format (t : Z) : string := pretty t.

(** The two loops of [nsListCmd] over the namespaces of the system and of
    the database. *)
Definition nsListRows (systemNamespaces : list string)
  (databaseNamespaces : list db.Namespace.t) : list Row :=
  (* Create a map for quick lookup *)
  let databaseNamespaceMap : gmap string bool :=
    foldl (fun m namespaceRecord => <[db.Namespace.Name namespaceRecord := true]> m)
          ∅ databaseNamespaces in
  ((fun namespaceName =>
      let createdAt :=
        match find (fun r => bool_decide (db.Namespace.Name r = namespaceName))
                   databaseNamespaces with
        | Some namespaceRecord => Format (db.Namespace.CreatedAt namespaceRecord)
        | None => "-"
        end in
      let status :=
        if negb (default false (databaseNamespaceMap !! namespaceName))
        then "untracked" else "active" in
      mkRow namespaceName status createdAt) <$> systemNamespaces)
  ++
  (* Show DB entries that don't exist in system *)
  ((fun namespaceRecord =>
      mkRow (db.Namespace.Name namespaceRecord) "orphaned"
            (Format (db.Namespace.CreatedAt namespaceRecord)))
     <$> filter (fun namespaceRecord =>
                   existsb (fun namespaceName =>
                              bool_decide (db.Namespace.Name namespaceRecord = namespaceName))
                           systemNamespaces = false)
                databaseNamespaces).

Definition printRow (r : Row) : string :=
  NAME r +:+ "\t" +:+ STATUS r +:+ "\t" +:+ CREATED r.

Definition nsListCmd : M (World K) unit :=
  (* Get from system *)
  systemNamespaces <- sys netns.Manager.List ;;
  (* Get from database *)
  databaseNamespaces <- repo db.Repository.ListNamespaces ;;
  Printf "NAME\tSTATUS\tCREATED" ;;;
  modify (fun w =>
    mkWorld (kernel w) (Repo w)
            (Stdout w ++ (printRow <$> nsListRows systemNamespaces databaseNamespaces))
            (Stderr w)).

(** *** veth.go *)


Definition vethDeleteCmd (interfaceName : string) : M (World K) unit :=
  (* Delete from system *)
  sys (netns.VethManager.Delete interfaceName) ;;;
  (* Remove from database *)
  (fun w =>
     match repo (db.Repository.DeleteVethPair interfaceName) w with
     | (w, Fail err) =>
         Warnf ("Warning: failed to remove from database: " +:+ Error err) w
     | (w, Ok _) => (w, Ok tt)
     end) ;;;
  Printf ("Deleted veth pair: " +:+ interfaceName).

(** *** ip.go *)

Definition ipAddCmd (ipAddress ipInterface ipNs : string) : M (World K) unit :=
  if bool_decide (ipInterface = EmptyString)
  then throw (EMsg "--interface is required")
  else
    (* Add to system *)
    sys (netns.AddressManager.Add ipAddress ipInterface ipNs) ;;;
    fun w =>
      (* Get namespace ID for DB *)
      let '(w, namespaceID) := namespaceIDOf ipNs w in
      (* Record in database *)
      match repo (db.Repository.CreateIPAddress ipInterface namespaceID ipAddress) w with
      | (w, Fail err) =>
          (* Rollback system change *)
          (ignore (sys (netns.AddressManager.Delete ipAddress ipInterface ipNs)) ;;;
           throw (EWrap "failed to record IP address" err)) w
      | (w, Ok _) => Printf ("Added " +:+ ipAddress +:+ " to " +:+ ipInterface) w
      end.

Definition ipDeleteCmd (ipAddress ipInterface ipNs : string) : M (World K) unit :=
  if bool_decide (ipInterface = EmptyString)
  then throw (EMsg "--interface is required")
  else
    (* Delete from system *)
    sys (netns.AddressManager.Delete ipAddress ipInterface ipNs) ;;;
    Printf ("Removed " +:+ ipAddress +:+ " from " +:+ ipInterface).

(** *** route.go *)


Definition routeDeleteCmd (destinationNetwork routeNs : string) : M (World K) unit :=
  (* Delete from system *)
  sys (netns.RouteManager.Delete destinationNetwork routeNs) ;;;
  Printf ("Deleted route: " +:+ destinationNetwork).

(** *** bridge.go *)


Definition bridgeDeleteCmd (bridgeName bridgeNs : string) : M (World K) unit :=
  (* Delete from system *)
  sys (netns.BridgeManager.Delete bridgeName bridgeNs) ;;;
  (* Remove from database *)
  (fun w =>
     match repo (db.Repository.DeleteBridge bridgeName) w with
     | (w, Fail err) =>
         Warnf ("Warning: failed to remove from database: " +:+ Error err) w
     | (w, Ok _) => (w, Ok tt)
     end) ;;;
  Printf ("Deleted bridge: " +:+ bridgeName).


Definition bridgeRemovePortCmd (bridgeName interfaceName bridgeNs : string)
  : M (World K) unit :=
  sys (netns.BridgeManager.RemovePort interfaceName bridgeNs) ;;;
  (* Remove from database *)
  (fun w =>
     match repo (db.Repository.GetBridgeByName bridgeName) w with
     | (w, Ok (Some bridgeRecord)) =>
         ignore (repo (db.Repository.RemoveBridgePort (db.Bridge.ID bridgeRecord)
                         interfaceName)) w
     | (w, _) => (w, Ok tt)
     end) ;;;
  Printf ("Removed " +:+ interfaceName +:+ " from bridge " +:+ bridgeName).

(** *** gre.go *)


Definition greDeleteCmd (tunnelName greNs : string) : M (World K) unit :=
  (* Delete from system *)
  sys (netns.GREManager.Delete tunnelName greNs) ;;;
  (* Remove from database *)
  (fun w =>
     match repo (db.Repository.DeleteGRETunnel tunnelName) w with
     | (w, Fail err) =>
         Warnf ("Warning: failed to remove from database: " +:+ Error err) w
     | (w, Ok _) => (w, Ok tt)
     end) ;;;
  Printf ("Deleted GRE tunnel: " +:+ tunnelName).

(** [GetNamespaceByName] as [grePeerCmd] calls it: the error is dropped and
    the name is looked up even when it is empty. *)
Definition peerNamespaceID (name : string) : World K -> World K * option Z :=
  fun w =>
    match repo (db.Repository.GetNamespaceByName name) w with
    | (w, Ok (Some namespaceRecord)) => (w, Some (db.Namespace.ID namespaceRecord))
    | (w, _) => (w, None)
    end.


End commands.
End cli.

(** ** Package api: handlers.go

    A handler reads the request the router decoded and writes one response.
    [ShouldBindJSON] fails when a field marked [binding:"required"] has its
    zero value; the message of a binding error is not modelled. *)

Module api.

Record Server (K : Type) := mkServer { kernel : K; repository : db.DB }.
Arguments mkServer {K} _ _.
Arguments kernel {K} _.
Arguments repository {K} _.

Inductive Body : Type :=
| H_error (msg : string)
| H_message (msg : string)
| H_tunnels (msg : string) (tunnels : list string)
| JSON_Namespace (ns : option db.Namespace.t)
| JSON_VethPair (veth : option db.VethPair.t)
| JSON_IPAddress (addr : option db.IPAddress.t)
| JSON_Route (route : option db.Route.t)
| JSON_Bridge (bridge : option db.Bridge.t)
| JSON_GRETunnel (greTunnel : option db.GRETunnel.t).

Record Response := mkResponse { Status : Z; JSON : Body }.

Definition StatusOK : Z := 200.
Definition StatusBadRequest : Z := 400.
Definition StatusNotFound : Z := 404.
Definition StatusInternalServerError : Z := 500.

Definition Handler (K : Type) : Type := Server K -> Server K * Response.

Definition sys {K A} (c : M K A) (s : Server K) : Server K * result A :=
  let '(k, r) := c (kernel s) in (mkServer k (repository s), r).

Definition repo {K A} (c : M db.DB A) (s : Server K) : Server K * result A :=
  let '(d, r) := c (repository s) in (mkServer (kernel s) d, r).


(** [if ns, _ := s.repository.GetNamespaceByName(name); ns != nil], guarded
    by [name != ""]. *)
Definition namespaceIDOf {K} (name : string) (s : Server K) : Server K * option Z :=
  if bool_decide (name ≠ EmptyString)
  then match repo (db.Repository.GetNamespaceByName name) s with
       | (s, Ok (Some ns)) => (s, Some (db.Namespace.ID ns))
       | (s, _) => (s, None)
       end
  else (s, None).

Section handlers.
Context {K : Type} `{Sys K}.

(** *** Namespace handlers *)


Definition deleteNamespace (name : string) : Handler K :=
  fun s =>
    (* Delete from system *)
    match sys (netns.Manager.Delete name) s with
    | (s, Fail err) => (s, mkResponse StatusInternalServerError (H_error (cli.Error err)))
    | (s, Ok _) =>
        (* Remove from database *)
        let '(s, _) := repo (db.Repository.DeleteNamespace name) s in
        (s, mkResponse StatusOK (H_message "namespace deleted"))
    end.

(** *** Veth handlers *)


Definition deleteVeth (name : string) : Handler K :=
  fun s =>
    (* Delete from system *)
    match sys (netns.VethManager.Delete name) s with
    | (s, Fail err) => (s, mkResponse StatusInternalServerError (H_error (cli.Error err)))
    | (s, Ok _) =>
        (* Remove from database *)
        let '(s, _) := repo (db.Repository.DeleteVethPair name) s in
        (s, mkResponse StatusOK (H_message "veth pair deleted"))
    end.

(** *** Address handlers *)


(** The namespace name of a record: [s.repository.GetNamespace(id)] with
    its error dropped, for a non-nil id. *)
Definition namespaceNameOf (NsID : option Z) (s : Server K) : Server K * string :=
  match NsID with
  | None => (s, EmptyString)
  | Some id =>
      match repo (db.Repository.GetNamespace id) s with
      | (s, Ok (Some ns)) => (s, db.Namespace.Name ns)
      | (s, _) => (s, EmptyString)
      end
  end.

(** [id] is the path parameter after [strconv.ParseInt], [None] when it
    does not parse. *)
Definition deleteAddress (id : option Z) : Handler K :=
  fun s =>
    match id with
    | None => (s, mkResponse StatusBadRequest (H_error "invalid ID"))
    | Some id =>
        (* Get address info for system deletion *)
        match repo (db.Repository.GetIPAddress id) s with
        | (s, Ok (Some addr)) =>
            (* Get namespace name *)
            let '(s, nsName) := namespaceNameOf (db.IPAddress.NsID addr) s in
            (* Delete from system *)
            match sys (netns.AddressManager.Delete (db.IPAddress.Address addr)
                         (db.IPAddress.InterfaceName addr) nsName) s with
            | (s, Fail err) =>
                (s, mkResponse StatusInternalServerError (H_error (cli.Error err)))
            | (s, Ok _) =>
                (* Remove from database *)
                let '(s, _) := repo (db.Repository.DeleteIPAddress id) s in
                (s, mkResponse StatusOK (H_message "address deleted"))
            end
        | (s, _) => (s, mkResponse StatusNotFound (H_error "address not found"))
        end
    end.

(** *** Route handlers *)


Definition deleteRoute (id : option Z) : Handler K :=
  fun s =>
    match id with
    | None => (s, mkResponse StatusBadRequest (H_error "invalid ID"))
    | Some id =>
        (* Get route info for system deletion *)
        match repo (db.Repository.GetRoute id) s with
        | (s, Ok (Some route)) =>
            (* Get namespace name *)
            let '(s, nsName) := namespaceNameOf (db.Route.NsID route) s in
            (* Delete from system *)
            match sys (netns.RouteManager.Delete (db.Route.Destination route) nsName) s with
            | (s, Fail err) =>
                (s, mkResponse StatusInternalServerError (H_error (cli.Error err)))
            | (s, Ok _) =>
                (* Remove from database *)
                let '(s, _) := repo (db.Repository.DeleteRoute id) s in
                (s, mkResponse StatusOK (H_message "route deleted"))
            end
        | (s, _) => (s, mkResponse StatusNotFound (H_error "route not found"))
        end
    end.

(** *** Bridge handlers *)


Definition deleteBridge (name nsName : string) : Handler K :=
  fun s =>
    (* Delete from system *)
    match sys (netns.BridgeManager.Delete name nsName) s with
    | (s, Fail err) => (s, mkResponse StatusInternalServerError (H_error (cli.Error err)))
    | (s, Ok _) =>
        (* Remove from database *)
        let '(s, _) := repo (db.Repository.DeleteBridge name) s in
        (s, mkResponse StatusOK (H_message "bridge deleted"))
    end.


Definition removeBridgePort (bridgeName ifaceName nsName : string) : Handler K :=
  fun s =>
    (* Remove from system *)
    match sys (netns.BridgeManager.RemovePort ifaceName nsName) s with
    | (s, Fail err) => (s, mkResponse StatusInternalServerError (H_error (cli.Error err)))
    | (s, Ok _) =>
        (* Remove from database *)
        let s :=
          match repo (db.Repository.GetBridgeByName bridgeName) s with
          | (s, Ok (Some bridge)) =>
              fst (repo (db.Repository.RemoveBridgePort (db.Bridge.ID bridge) ifaceName) s)
          | (s, _) => s
          end in
        (s, mkResponse StatusOK (H_message "port removed"))
    end.

(** *** GRE tunnel handlers *)


Definition deleteGRETunnel (name nsName : string) : Handler K :=
  fun s =>
    (* Delete from system *)
    match sys (netns.GREManager.Delete name nsName) s with
    | (s, Fail err) => (s, mkResponse StatusInternalServerError (H_error (cli.Error err)))
    | (s, Ok _) =>
        (* Remove from database *)
        let '(s, _) := repo (db.Repository.DeleteGRETunnel name) s in
        (s, mkResponse StatusOK (H_message "GRE tunnel deleted"))
    end.

(** *** Read handlers *)

Definition getNamespace (name : string) : Handler K :=
  fun s =>
    match repo (db.Repository.GetNamespaceByName name) s with
    | (s, Fail err) => (s, mkResponse StatusInternalServerError (H_error (cli.Error err)))
    | (s, Ok None) => (s, mkResponse StatusNotFound (H_error "namespace not found"))
    | (s, Ok (Some ns)) => (s, mkResponse StatusOK (JSON_Namespace (Some ns)))
    end.

Definition getGRETunnel (name : string) : Handler K :=
  fun s =>
    match repo (db.Repository.GetGRETunnelByName name) s with
    | (s, Fail err) => (s, mkResponse StatusInternalServerError (H_error (cli.Error err)))
    | (s, Ok None) => (s, mkResponse StatusNotFound (H_error "GRE tunnel not found"))
    | (s, Ok (Some tunnel)) => (s, mkResponse StatusOK (JSON_GRETunnel (Some tunnel)))
    end.

(** *** Peer tunnels *)

(** [GetNamespaceByName] as [createPeerTunnels] calls it: the error is
    dropped and the name is looked up whatever it is. *)
Definition peerNamespaceID (name : string) (s : Server K) : Server K * option Z :=
  match repo (db.Repository.GetNamespaceByName name) s with
  | (s, Ok (Some ns)) => (s, Some (db.Namespace.ID ns))
  | (s, _) => (s, None)
  end.


End handlers.
End api.

(** ** A reference host

    An executable instance of [Sys], used to run the managers and commands
    on concrete inputs.  It keeps what the managers can observe: the network
    namespace of the calling thread, the files under [/var/run/netns] and
    the namespaces bind-mounted on them, the open descriptors, and per
    namespace the links, addresses and routes.  An interface name is unique
    within one network namespace only, and a netlink request made through
    a handle sees only the links of that handle's namespace.  Every call
    consumes one fault bit and is appended to [trace] with its success. *)

Module RefKernel.

(** A network namespace; [0] is the initial one (the host). *)
Definition nsid : Type := Z.

Inductive fdobj : Type :=
| FdNetns (n : nsid)
| FdFile
| FdSocket (n : nsid).

Inductive kind : Type :=
| KLoopback
| KVeth (peer : Z)
| KBridge
| KGre (local remote : string) (ikey okey ttl : Z).

Record link := mkL {
  l_index : Z; l_name : string; l_ns : nsid; l_kind : kind;
  l_master : option Z; l_up : bool
}.

Inductive Call : Type :=
| C_netns_Get
| C_netns_Set (h : NsHandle)
| C_netns_New
| C_netns_GetFromPath (path : string)
| C_NsHandle_Close (h : NsHandle)
| C_os_MkdirAll (path : string)
| C_os_Create (path : string)
| C_os_Remove (path : string)
| C_os_Stat (path : string)
| C_os_ReadDir (path : string)
| C_Mount (source target : string)
| C_Unmount (target : string)
| C_NewHandleAt (h : NsHandle)
| C_Handle_Close (h : Handle)
| C_LinkAdd (h : Handle) (name : string) (ty : LinkType)
| C_LinkDel (h : Handle) (l : Link)
| C_LinkByName (h : Handle) (name : string)
| C_LinkSetNsFd (h : Handle) (l : Link) (fd : Z)
| C_LinkSetUp (h : Handle) (l : Link)
| C_LinkSetDown (h : Handle) (l : Link)
| C_LinkSetMaster (h : Handle) (l master : Link)
| C_LinkSetNoMaster (h : Handle) (l : Link)
| C_AddrAdd (h : Handle) (l : Link) (addr : string)
| C_AddrDel (h : Handle) (l : Link) (addr : string)
| C_RouteAdd (h : Handle) (r : NlRoute)
| C_RouteDel (h : Handle) (r : NlRoute).

Record t := mkK {
  cur : nsid;
  next_nsid : nsid;
  dir_exists : bool;
  files : gmap string (option nsid);
  fds : gmap Z fdobj;
  next_fd : Z;
  links : list link;
  next_index : Z;
  addrs : list (Z * string);
  routes : list (nsid * NlRoute);
  faults : list bool;
  trace : list (Call * bool)
}.

Definition set_cur (v : nsid) (k : t) : t :=
  mkK v (next_nsid k) (dir_exists k) (files k) (fds k) (next_fd k) (links k) (next_index k) (addrs k) (routes k) (faults k) (trace k).
Definition set_next_nsid (v : nsid) (k : t) : t :=
  mkK (cur k) v (dir_exists k) (files k) (fds k) (next_fd k) (links k) (next_index k) (addrs k) (routes k) (faults k) (trace k).
Definition set_dir_exists (v : bool) (k : t) : t :=
  mkK (cur k) (next_nsid k) v (files k) (fds k) (next_fd k) (links k) (next_index k) (addrs k) (routes k) (faults k) (trace k).
Definition set_files (v : gmap string (option nsid)) (k : t) : t :=
  mkK (cur k) (next_nsid k) (dir_exists k) v (fds k) (next_fd k) (links k) (next_index k) (addrs k) (routes k) (faults k) (trace k).
Definition set_fds (v : gmap Z fdobj) (k : t) : t :=
  mkK (cur k) (next_nsid k) (dir_exists k) (files k) v (next_fd k) (links k) (next_index k) (addrs k) (routes k) (faults k) (trace k).
Definition set_next_fd (v : Z) (k : t) : t :=
  mkK (cur k) (next_nsid k) (dir_exists k) (files k) (fds k) v (links k) (next_index k) (addrs k) (routes k) (faults k) (trace k).
Definition set_links (v : list link) (k : t) : t :=
  mkK (cur k) (next_nsid k) (dir_exists k) (files k) (fds k) (next_fd k) v (next_index k) (addrs k) (routes k) (faults k) (trace k).
Definition set_next_index (v : Z) (k : t) : t :=
  mkK (cur k) (next_nsid k) (dir_exists k) (files k) (fds k) (next_fd k) (links k) v (addrs k) (routes k) (faults k) (trace k).
Definition set_addrs (v : list (Z * string)) (k : t) : t :=
  mkK (cur k) (next_nsid k) (dir_exists k) (files k) (fds k) (next_fd k) (links k) (next_index k) v (routes k) (faults k) (trace k).
Definition set_routes (v : list (nsid * NlRoute)) (k : t) : t :=
  mkK (cur k) (next_nsid k) (dir_exists k) (files k) (fds k) (next_fd k) (links k) (next_index k) (addrs k) v (faults k) (trace k).
Definition set_faults (v : list bool) (k : t) : t :=
  mkK (cur k) (next_nsid k) (dir_exists k) (files k) (fds k) (next_fd k) (links k) (next_index k) (addrs k) (routes k) v (trace k).
Definition set_trace (v : list (Call * bool)) (k : t) : t :=
  mkK (cur k) (next_nsid k) (dir_exists k) (files k) (fds k) (next_fd k) (links k) (next_index k) (addrs k) (routes k) (faults k) v.

Definition EEXIST : error := EMsg "file exists".
Definition EINVAL : error := EMsg "invalid argument".
Definition EBADF : error := EMsg "bad file descriptor".
Definition EBUSY : error := EMsg "device or resource busy".
Definition ENODEV : error := EMsg "no such device".
Definition EIO : error := EMsg "input/output error".

(** A call into the host: recorded, then failed by the next fault bit or run. *)
Definition prim {A} (c : Call) (body : M t A) : M t A :=
  fun k =>
    let '(b, fs) := pop_fault (faults k) in
    let '(k, r) := if b then (set_faults fs k, Fail EIO) else body (set_faults fs k) in
    (set_trace (trace k ++ [(c, is_ok r)]) k, r).

Definition open_fd (o : fdobj) : M t Z :=
  fun k => let fd := next_fd k in
           (set_next_fd (fd + 1) (set_fds (<[fd := o]> (fds k)) k), Ok fd).

(** A namespace lives as long as a thread, a bind mount or a descriptor
    refers to it; the initial namespace always lives. *)
Definition alive (k : t) (n : nsid) : bool :=
  bool_decide (n = 0) || bool_decide (n = cur k)
  || bool_decide (Some n ∈ (snd <$> map_to_list (files k)))
  || existsb (fun o => match o with
                       | FdNetns m | FdSocket m => bool_decide (m = n)
                       | FdFile => false
                       end) (snd <$> map_to_list (fds k)).

(** Forget the links of the indices [gone]: bridge members lose their
    master, addresses and routes through the links go. *)
Definition drop_links (gone : list Z) (k : t) : t :=
  let keep := filter (fun l => l_index l ∉ gone) (links k) in
  let keep := (fun l => match l_master l with
                        | Some m => if bool_decide (m ∈ gone)
                                    then mkL (l_index l) (l_name l) (l_ns l) (l_kind l) None (l_up l)
                                    else l
                        | None => l
                        end) <$> keep in
  set_links keep
    (set_addrs (filter (fun a => a.1 ∉ gone) (addrs k))
       (set_routes (filter (fun r => LinkIndex r.2 ∉ gone) (routes k)) k)).

(** The veth peer of a link goes with it. *)
Definition with_peers (k : t) (ls : list link) : list Z :=
  (l_index <$> ls) ++
  omap (fun l => match l_kind l with KVeth p => Some p | _ => None end) ls.

(** Destroy what dead namespaces held. *)
Definition reap (k : t) : t :=
  let dead := filter (fun l => alive k (l_ns l) = false) (links k) in
  set_routes (filter (fun r => alive k r.1 = true) (routes (drop_links (with_peers k dead) k)))
             (drop_links (with_peers k dead) k).

(** *** netns *)

Definition netns_Get : M t NsHandle :=
  prim C_netns_Get (fun k => open_fd (FdNetns (cur k)) k).

Definition netns_Set (h : NsHandle) : M t unit :=
  prim (C_netns_Set h) (fun k =>
    match fds k !! h with
    | Some (FdNetns n) => (reap (set_cur n k), Ok tt)
    | _ => (k, Fail EINVAL)
    end).

(** [unshare(CLONE_NEWNET)] and [Get]: the thread enters a fresh namespace
    that holds a loopback interface. *)
Definition netns_New : M t NsHandle :=
  prim C_netns_New (fun k =>
    let n := next_nsid k in
    let lo := mkL (next_index k) "lo" n KLoopback None false in
    open_fd (FdNetns n)
      (reap (set_cur n (set_next_nsid (n + 1)
         (set_links (links k ++ [lo]) (set_next_index (next_index k + 1) k)))))).

Definition netns_GetFromPath (path : string) : M t NsHandle :=
  prim (C_netns_GetFromPath path) (fun k =>
    match files k !! path with
    | Some (Some n) => open_fd (FdNetns n) k
    | Some None => open_fd FdFile k
    | None => (k, Fail ENOENT)
    end).

Definition close_fd (fd : Z) : M t unit :=
  fun k => match fds k !! fd with
           | Some _ => (reap (set_fds (delete fd (fds k)) k), Ok tt)
           | None => (k, Fail EBADF)
           end.

Definition NsHandle_Close (h : NsHandle) : M t unit :=
  prim (C_NsHandle_Close h) (close_fd h).

(** *** os and syscall: the directory [/var/run/netns] *)

Definition os_MkdirAll (path : string) : M t unit :=
  prim (C_os_MkdirAll path) (fun k => (set_dir_exists true k, Ok tt)).

Definition os_Create (path : string) : M t unit :=
  prim (C_os_Create path) (fun k =>
    if negb (dir_exists k) then (k, Fail ENOENT)
    else match files k !! path with
         | Some (Some _) => (k, Fail (EMsg "permission denied"))
         | Some None => (k, Ok tt)
         | None => (set_files (<[path := None]> (files k)) k, Ok tt)
         end).

Definition os_Remove (path : string) : M t unit :=
  prim (C_os_Remove path) (fun k =>
    match files k !! path with
    | Some (Some _) => (k, Fail EBUSY)
    | Some None => (set_files (delete path (files k)) k, Ok tt)
    | None => (k, Fail ENOENT)
    end).

Definition os_Stat (path : string) : M t unit :=
  prim (C_os_Stat path) (fun k =>
    match files k !! path with
    | Some _ => (k, Ok tt)
    | None => (k, Fail ENOENT)
    end).

Definition entry_le (a b : DirEntry) : Prop :=
  String.le (EntryName a) (EntryName b).

#[global] Instance entry_le_dec a b : Decision (entry_le a b).
Proof. unfold entry_le. apply _. Defined.

(** [os.ReadDir] returns the entries sorted by file name. *)
Definition os_ReadDir (path : string) : M t (list DirEntry) :=
  prim (C_os_ReadDir path) (fun k =>
    if negb (dir_exists k) then (k, Fail ENOENT)
    else
      let dir := path +:+ "/" in
      let inside := filter (fun p => String.prefix dir p = true)
                           (fst <$> map_to_list (files k)) in
      let names := (fun p => String.substring (String.length dir)
                               (String.length p - String.length dir) p) <$> inside in
      (k, Ok (merge_sort entry_le ((fun n => mkDirEntry n false) <$> names)))).

Definition syscall_Mount (source target : string) : M t unit :=
  prim (C_Mount source target) (fun k =>
    match find (fun e => bool_decide ("/proc/self/fd/" +:+ pretty e.1 = source))
               (map_to_list (fds k)) with
    | Some (_, FdNetns n) =>
        match files k !! target with
        | Some _ => (set_files (<[target := Some n]> (files k)) k, Ok tt)
        | None => (k, Fail ENOENT)
        end
    | Some _ => (k, Fail EINVAL)
    | None => (k, Fail ENOENT)
    end).

Definition syscall_Unmount (target : string) : M t unit :=
  prim (C_Unmount target) (fun k =>
    match files k !! target with
    | Some (Some _) => (reap (set_files (<[target := None]> (files k)) k), Ok tt)
    | Some None => (k, Fail EINVAL)
    | None => (k, Fail ENOENT)
    end).

(** *** netlink *)

Definition netlink_NewHandleAt (h : NsHandle) : M t Handle :=
  prim (C_NewHandleAt h) (fun k =>
    match fds k !! h with
    | Some (FdNetns n) =>
        let '(k, r) := open_fd (FdSocket n) k in
        (k, match r with Ok fd => Ok (SocketHandle fd) | Fail e => Fail e end)
    | _ => (k, Fail EBADF)
    end).

Definition Handle_Close (h : Handle) : M t unit :=
  prim (C_Handle_Close h)
       (match h with
        | pkgHandle => ret tt
        | SocketHandle fd => close_fd fd
        end).

(** The namespace a netlink request of the handle is answered in. *)
Definition ns_of (h : Handle) (k : t) : option nsid :=
  match h with
  | pkgHandle => Some (cur k)
  | SocketHandle fd =>
      match fds k !! fd with
      | Some (FdSocket n) => Some n
      | _ => None
      end
  end.

Definition in_ns {A} (h : Handle) (body : nsid -> M t A) : M t A :=
  fun k => match ns_of h k with
           | Some n => body n k
           | None => (k, Fail EBADF)
           end.

Definition by_name (n : nsid) (name : string) (k : t) : option link :=
  find (fun l => bool_decide (l_ns l = n ∧ l_name l = name)) (links k).

Definition by_index (n : nsid) (index : Z) (k : t) : option link :=
  find (fun l => bool_decide (l_ns l = n ∧ l_index l = index)) (links k).

Definition update_link (index : Z) (f : link -> link) (k : t) : t :=
  set_links ((fun l => if bool_decide (l_index l = index) then f l else l) <$> links k) k.

Definition new_link (n : nsid) (name : string) (kd : kind) (k : t) : t :=
  set_next_index (next_index k + 1)
    (set_links (links k ++ [mkL (next_index k) name n kd None false]) k).

Definition LinkAdd (h : Handle) (name : string) (ty : LinkType) : M t Link :=
  prim (C_LinkAdd h name ty) (in_ns h (fun n k =>
    if bool_decide (is_Some (by_name n name k)) then (k, Fail EEXIST)
    else
      match ty with
      | Veth peer =>
          if bool_decide (peer = name ∨ is_Some (by_name n peer k))
          then (k, Fail EEXIST)
          else
            let i := next_index k in
            let k := new_link n peer (KVeth (i + 1)) k in
            let k := new_link n name (KVeth i) k in
            (k, Ok (mkLink (i + 1) name))
      | Bridge =>
          (new_link n name KBridge k, Ok (mkLink (next_index k) name))
      | Gretun l r ik ok ttl =>
          (new_link n name (KGre l r ik ok ttl) k, Ok (mkLink (next_index k) name))
      end)).

Definition LinkDel (h : Handle) (l : Link) : M t unit :=
  prim (C_LinkDel h l) (in_ns h (fun n k =>
    match by_index n (Index l) k with
    | Some found => (drop_links (with_peers k [found]) k, Ok tt)
    | None => (k, Fail ENODEV)
    end)).

Definition LinkByName (h : Handle) (name : string) : M t Link :=
  prim (C_LinkByName h name) (in_ns h (fun n k =>
    match by_name n name k with
    | Some found => (k, Ok (mkLink (l_index found) (l_name found)))
    | None => (k, Fail (EMsg "Link not found"))
    end)).

(** Moving a link takes it down, out of its bridge and drops its addresses. *)
Definition LinkSetNsFd (h : Handle) (l : Link) (fd : Z) : M t unit :=
  prim (C_LinkSetNsFd h l fd) (in_ns h (fun n k =>
    match by_index n (Index l) k, fds k !! fd with
    | Some found, Some (FdNetns m) =>
        if bool_decide (is_Some (by_name m (l_name found) k)) then (k, Fail EEXIST)
        else
          (set_addrs (filter (fun a => a.1 ≠ l_index found) (addrs k))
             (update_link (l_index found)
                (fun x => mkL (l_index x) (l_name x) m (l_kind x) None false) k), Ok tt)
    | None, _ => (k, Fail ENODEV)
    | _, _ => (k, Fail EBADF)
    end)).

Definition set_up (up : bool) (h : Handle) (l : Link) : M t unit :=
  in_ns h (fun n k =>
    match by_index n (Index l) k with
    | Some found =>
        (update_link (l_index found)
           (fun x => mkL (l_index x) (l_name x) (l_ns x) (l_kind x) (l_master x) up) k,
         Ok tt)
    | None => (k, Fail ENODEV)
    end).

Definition LinkSetUp (h : Handle) (l : Link) : M t unit :=
  prim (C_LinkSetUp h l) (set_up true h l).
Definition LinkSetDown (h : Handle) (l : Link) : M t unit :=
  prim (C_LinkSetDown h l) (set_up false h l).

Definition set_master (master : option Z) (h : Handle) (l : Link) : M t unit :=
  in_ns h (fun n k =>
    match by_index n (Index l) k with
    | Some found =>
        (update_link (l_index found)
           (fun x => mkL (l_index x) (l_name x) (l_ns x) (l_kind x) master (l_up x)) k,
         Ok tt)
    | None => (k, Fail ENODEV)
    end).

Definition LinkSetMaster (h : Handle) (l master : Link) : M t unit :=
  prim (C_LinkSetMaster h l master) (in_ns h (fun n k =>
    match by_index n (Index master) k with
    | Some m =>
        match l_kind m with
        | KBridge => set_master (Some (l_index m)) h l k
        | _ => (k, Fail EINVAL)
        end
    | None => (k, Fail ENODEV)
    end)).

Definition LinkSetNoMaster (h : Handle) (l : Link) : M t unit :=
  prim (C_LinkSetNoMaster h l) (set_master None h l).

Definition AddrAdd (h : Handle) (l : Link) (addr : string) : M t unit :=
  prim (C_AddrAdd h l addr) (in_ns h (fun n k =>
    match by_index n (Index l) k with
    | Some found =>
        if bool_decide ((l_index found, addr) ∈ addrs k) then (k, Fail EEXIST)
        else (set_addrs (addrs k ++ [(l_index found, addr)]) k, Ok tt)
    | None => (k, Fail ENODEV)
    end)).

Definition AddrDel (h : Handle) (l : Link) (addr : string) : M t unit :=
  prim (C_AddrDel h l addr) (in_ns h (fun n k =>
    match by_index n (Index l) k with
    | Some found =>
        if bool_decide ((l_index found, addr) ∈ addrs k)
        then (set_addrs (filter (fun a => a ≠ (l_index found, addr)) (addrs k)) k, Ok tt)
        else (k, Fail (EMsg "cannot assign requested address"))
    | None => (k, Fail ENODEV)
    end)).

Definition same_dst (n : nsid) (r : NlRoute) (x : nsid * NlRoute) : Prop :=
  x.1 = n ∧ Dst x.2 = Dst r.

#[global] Instance same_dst_dec n r x : Decision (same_dst n r x).
Proof. unfold same_dst. apply _. Defined.

Definition RouteAdd (h : Handle) (r : NlRoute) : M t unit :=
  prim (C_RouteAdd h r) (in_ns h (fun n k =>
    if bool_decide (LinkIndex r ≠ 0 ∧ by_index n (LinkIndex r) k = None)
    then (k, Fail ENODEV)
    else if bool_decide (Exists (same_dst n r) (routes k)) then (k, Fail EEXIST)
    else (set_routes (routes k ++ [(n, r)]) k, Ok tt))).

Definition RouteDel (h : Handle) (r : NlRoute) : M t unit :=
  prim (C_RouteDel h r) (in_ns h (fun n k =>
    if bool_decide (Exists (same_dst n r) (routes k))
    then (set_routes (filter (fun x => ¬ same_dst n r x) (routes k)) k, Ok tt)
    else (k, Fail (EMsg "no such process")))).

(** *** Parsers: an address is accepted by its shape *)

Definition ip_char (c : Ascii.ascii) : bool :=
  let n := Ascii.nat_of_ascii c in
  ((48 <=? n) && (n <=? 57) || (97 <=? n) && (n <=? 102) || (65 <=? n) && (n <=? 70)
   || (n =? 46) || (n =? 58))%nat.

Definition digit_char (c : Ascii.ascii) : bool :=
  let n := Ascii.nat_of_ascii c in ((48 <=? n) && (n <=? 57))%nat.

Definition all_chars (p : Ascii.ascii -> bool) (s : string) : bool :=
  negb (bool_decide (s = EmptyString)) && forallb p (String.list_ascii_of_string s).

Definition net_ParseIP (s : string) : option string :=
  if all_chars ip_char s then Some s else None.

Definition net_ParseCIDR (s : string) : option string :=
  match String.index 0 "/" s with
  | Some i =>
      if all_chars ip_char (String.substring 0 i s)
         && all_chars digit_char (String.substring (i + 1) (String.length s - (i + 1)) s)
      then Some s else None
  | None => None
  end.

Definition netlink_ParseAddr (s : string) : result string :=
  match net_ParseCIDR s with
  | Some a => Ok a
  | None => Fail (EMsg "invalid CIDR address")
  end.

#[global] Instance sys : Sys t :=
  Build_Sys t
    net_ParseIP net_ParseCIDR netlink_ParseAddr netns_Get
    netns_Set netns_New netns_GetFromPath NsHandle_Close
    os_MkdirAll os_Create os_Remove os_Stat
    os_ReadDir syscall_Mount syscall_Unmount netlink_NewHandleAt
    Handle_Close LinkAdd LinkDel LinkByName
    LinkSetNsFd LinkSetUp LinkSetDown LinkSetMaster
    LinkSetNoMaster AddrAdd AddrDel RouteAdd
    RouteDel.

(** A freshly booted host: only the initial namespace and its loopback. *)
Definition boot : t :=
  mkK 0 1 false ∅ ∅ 3 [mkL 1 "lo" 0 KLoopback None true] 2 [] [] [] [].

End RefKernel.

(** ** scripts/netns-restore.sh

    The script runs under [set -e]: a simple command that fails ends the
    script, unless it is the condition of an [if] or stands before [||] or
    [&&].  An assignment from a command substitution fails with its
    command; the command of a process substitution [< <(...)] does not.
    The world of the script is the kernel behind the [ip] commands, the log
    it appends to with [tee] and the database file it queries with
    [sqlite3].

    The commands the script only tests ([ip link show], and the pipelines
    into [grep -q]) are probes: they answer and change nothing. *)

Module restore.

(** The programs the script runs.  [K] is the state of the host. *)
Class Tools (K : Type) : Type := {
  (* [ip netns exec ns argv] when [ns] is not empty, [argv] otherwise:
     the new kernel state and the exit status *)
  exec : string -> list string -> K -> K * Z;
  (* [ip netns list | grep -q "^name$"] *)
  netns_list_grep : string -> K -> bool;
  (* [ip link show name], inside [ns] when it is not empty *)
  link_show : string -> string -> K -> bool;
  (* [ip addr show dev interface | grep -q address], inside [ns] when it is
     not empty *)
  addr_show_grep : string -> string -> string -> K -> bool;
  (* the exit status of [sqlite3 -separator '|' "$DB_PATH" sql]; what it
     prints when the status is 0 is read off the database *)
  sqlite3 : string -> K -> Z;
  (* the exit status of [tee -a "$LOG_FILE"] *)
  tee : K -> Z;
  (* what a word that holds [*], [?] or a bracket expands to in the
     working directory: the names it matches, or the word itself *)
  pathname_expansion : string -> K -> list string
}.

(** The functions of the script, in the order a run calls them. *)
Inductive Invocation : Type :=
| create_namespace_ (namespace_name : string)
| create_bridge_ (bridge_name namespace_name : string)
| create_veth_ (veth_name peer_name namespace_name peer_namespace_name : string)
| add_ip_address_ (interface_name ip_address namespace_name : string)
| add_route_ (destination gateway interface_name namespace_name : string)
| add_bridge_port_ (bridge_name interface_name namespace_name : string)
| create_gre_tunnel_ (tunnel_name local_ip remote_ip gre_key ttl namespace_name : string).

Record Shell (K : Type) := mkShell {
  host : K;
  LOG_FILE : list (string * string);
  invoked : list Invocation
}.
Arguments mkShell {K} _ _ _.
Arguments host {K} _.
Arguments LOG_FILE {K} _.
Arguments invoked {K} _.

(** How a piece of the script ends: it returns 0 and the script goes on,
    or the script is over with an exit status. *)
Inductive status : Type :=
| Done
| Exit (code : Z).

Definition Script (K : Type) : Type := Shell K -> Shell K * status.

Definition seq {K} (a b : Script K) : Script K :=
  fun s => match a s with
           | (s', Done) => b s'
           | (s', Exit c) => (s', Exit c)
           end.
Notation "a ;> b" := (seq a b) (at level 95, right associativity).

Definition skip {K} : Script K := fun s => (s, Done).

Definition exit {K} (code : Z) : Script K := fun s => (s, Exit code).

Definition enter {K} (i : Invocation) : Script K :=
  fun s => (mkShell (host s) (LOG_FILE s) (invoked s ++ [i]), Done).

(** [for x in ...; do body; done] and the [while read] loops. *)
Definition for_each {K A} (body : A -> Script K) (rows : list A) : Script K :=
  foldr (fun row rest => body row ;> rest) skip rows.

(** [-n "$v" && "$v" != "NULL"] *)
Definition given (v : string) : bool :=
  negb (bool_decide (v = EmptyString)) && negb (bool_decide (v = "NULL")).

(** *** Unquoted expansions

    The value of an unquoted [$v] is split into fields at the characters of
    the default [IFS] (space, tab, newline), and a field that holds a
    pattern character undergoes pathname expansion. *)

Definition IFS (a : Ascii.ascii) : bool :=
  bool_decide (a = " "%char) || bool_decide (a = "009"%char) || bool_decide (a = "010"%char).

Definition close_field (field : string) : list string :=
  match field with
  | EmptyString => []
  | _ => [field]
  end.

Fixpoint fields_go (field : string) (text : string) : list string :=
  match text with
  | EmptyString => close_field field
  | String a text' =>
      if IFS a then close_field field ++ fields_go EmptyString text'
      else fields_go (field +:+ String a EmptyString) text'
  end.

Definition fields (text : string) : list string := fields_go EmptyString text.

Fixpoint is_pattern (word : string) : bool :=
  match word with
  | EmptyString => false
  | String a word' =>
      bool_decide (a = "*"%char) || bool_decide (a = "?"%char) || bool_decide (a = "["%char)
      || is_pattern word'
  end.

(** What [sqlite3] prints for a column of text: one line per row. *)
Definition lines (rows : list string) : string :=
  foldr (fun row rest => row +:+ String "010"%char rest) EmptyString rows.

Section script.
Context {K : Type} `{Tools K}.

Definition unquoted (text : string) (k : K) : list string :=
  concat ((fun word => if is_pattern word then pathname_expansion word k else [word])
            <$> fields text).

(** *** Logging

    [log] ends with the pipeline [echo ... | tee -a "$LOG_FILE"], whose
    status is the status of [tee]: under [set -e] a failing [tee] ends the
    script wherever [log] is called as a command of its own.  The time
    stamp and the colours of a line are left out. *)
Definition log (level msg : string) : Script K :=
  fun s => if bool_decide (tee (host s) = 0)
           then (mkShell (host s) (LOG_FILE s ++ [(level, msg)]) (invoked s), Done)
           else (s, Exit (tee (host s))).
Definition log_info (msg : string) : Script K := log "INFO" msg.
Definition log_warn (msg : string) : Script K := log "WARN" msg.
Definition log_error (msg : string) : Script K := log "ERROR" msg.
Definition log_success (msg : string) : Script K := log "OK" msg.

(** *** Queries

    [v=$(query_db sql)]: the status of the assignment is the status of
    [sqlite3], and under [set -e] a failure ends the script. *)
Definition assign (sql output : string) (rest : string -> Script K) : Script K :=
  fun s => if bool_decide (sqlite3 sql (host s) = 0) then rest output s
           else (s, Exit (sqlite3 sql (host s))).

(** [while IFS='|' read -r ...; do body; done < <(query_db sql)]: the
    status of a process substitution is lost, and a [sqlite3] that fails
    prints no row.  [rows] are the rows as [read] hands them to the body,
    which are the rows as they are stored when no column holds [|] or a
    newline; the properties of the batch are stated for such databases. *)
Definition while_read {A} (sql : string) (rows : list A) (body : A -> Script K) : Script K :=
  fun s => for_each body (if bool_decide (sqlite3 sql (host s) = 0) then rows else []) s.

(** *** Commands *)

(** A simple command: under [set -e] its failure ends the script. *)
Definition run (ns : string) (argv : list string) : Script K :=
  fun s => let '(k, code) := exec ns argv (host s) in
           (mkShell k (LOG_FILE s) (invoked s),
            if bool_decide (code = 0) then Done else Exit code).

(** [command || handler] *)
Definition or_else (ns : string) (argv : list string) (handler : Script K) : Script K :=
  fun s => let '(k, code) := exec ns argv (host s) in
           let s' := mkShell k (LOG_FILE s) (invoked s) in
           if bool_decide (code = 0) then (s', Done) else handler s'.

(** [command || true] *)
Definition or_true (ns : string) (argv : list string) : Script K :=
  or_else ns argv skip.

(** [$cmd || handler], with [$cmd] expanded where it stands. *)
Definition or_else_cmd (ns cmd : string) (handler : Script K) : Script K :=
  fun s => or_else ns (unquoted cmd (host s)) handler s.

Definition or_true_cmd (ns cmd : string) : Script K := or_else_cmd ns cmd skip.

Definition create_namespace (namespace_name : string) : Script K :=
  enter (create_namespace_ namespace_name) ;>
  fun s =>
    (* Check if namespace already exists *)
    if netns_list_grep namespace_name (host s)
    then log_warn ("Namespace '" +:+ namespace_name +:+ "' already exists, skipping") s
    else
      ((* Create the namespace *)
       run EmptyString ["ip"; "netns"; "add"; namespace_name] ;>
       (* Bring up loopback interface inside the namespace *)
       run namespace_name ["ip"; "link"; "set"; "lo"; "up"] ;>
       log_success ("Created namespace: " +:+ namespace_name)) s.

Definition create_veth (veth_name peer_name namespace_name peer_namespace_name : string)
  : Script K :=
  enter (create_veth_ veth_name peer_name namespace_name peer_namespace_name) ;>
  fun s =>
    (* Check if veth already exists *)
    if link_show EmptyString veth_name (host s)
    then log_warn ("Veth '" +:+ veth_name +:+ "' already exists, skipping") s
    else
      ((* Create veth pair in host namespace *)
       run EmptyString ["ip"; "link"; "add"; veth_name; "type"; "veth";
                        "peer"; "name"; peer_name] ;>
       (* Move first interface to namespace if specified *)
       (if given namespace_name
        then run EmptyString ["ip"; "link"; "set"; veth_name; "netns"; namespace_name]
        else skip) ;>
       (* Move peer interface to namespace if specified *)
       (if given peer_namespace_name
        then run EmptyString ["ip"; "link"; "set"; peer_name; "netns"; peer_namespace_name]
        else skip) ;>
       log_success ("Created veth pair: " +:+ veth_name +:+ " <-> " +:+ peer_name)) s.

Definition add_ip_address (interface_name ip_address namespace_name : string) : Script K :=
  enter (add_ip_address_ interface_name ip_address namespace_name) ;>
  (* Build the command *)
  let cmd := "ip addr add " +:+ ip_address +:+ " dev " +:+ interface_name in
  fun s =>
    if given namespace_name
    then
      (* Check if address already exists *)
      if addr_show_grep namespace_name interface_name ip_address (host s)
      then log_warn ("Address '" +:+ ip_address +:+ "' already exists on " +:+
                     interface_name +:+ " in " +:+ namespace_name +:+ ", skipping") s
      else
        ((* Add address and bring interface up *)
         or_true_cmd namespace_name cmd ;>
         or_true namespace_name ["ip"; "link"; "set"; interface_name; "up"] ;>
         log_success ("Added IP: " +:+ ip_address +:+ " to " +:+ interface_name)) s
    else
      if addr_show_grep EmptyString interface_name ip_address (host s)
      then log_warn ("Address '" +:+ ip_address +:+ "' already exists on " +:+
                     interface_name +:+ ", skipping") s
      else
        (or_true_cmd EmptyString cmd ;>
         or_true EmptyString ["ip"; "link"; "set"; interface_name; "up"] ;>
         log_success ("Added IP: " +:+ ip_address +:+ " to " +:+ interface_name)) s.

(** The command [add_route] builds. *)
Definition route_command (destination gateway interface_name : string) : string :=
  let cmd := "ip route add" in
  (* Add destination (default or specific network) *)
  let cmd := if bool_decide (destination = "default" ∨ destination = EmptyString)
             then cmd +:+ " default" else cmd +:+ " " +:+ destination in
  (* Add gateway if specified *)
  let cmd := if given gateway then cmd +:+ " via " +:+ gateway else cmd in
  (* Add output interface if specified *)
  if given interface_name then cmd +:+ " dev " +:+ interface_name else cmd.

(** The namespace a command runs in: [ip netns exec] when one is given. *)
Definition where_ (namespace_name : string) : string :=
  if given namespace_name then namespace_name else EmptyString.

Definition add_route (destination gateway interface_name namespace_name : string)
  : Script K :=
  enter (add_route_ destination gateway interface_name namespace_name) ;>
  (* Build the route command *)
  let cmd := route_command destination gateway interface_name in
  (* Execute in namespace or host *)
  or_else_cmd (where_ namespace_name) cmd
              (log_warn ("Route may already exist: " +:+ destination)) ;>
  log_success ("Added route: " +:+ destination).

Definition create_bridge (bridge_name namespace_name : string) : Script K :=
  enter (create_bridge_ bridge_name namespace_name) ;>
  fun s =>
    if given namespace_name
    then
      (* Create bridge in namespace *)
      if link_show namespace_name bridge_name (host s)
      then log_warn ("Bridge '" +:+ bridge_name +:+ "' already exists in " +:+
                     namespace_name +:+ ", skipping") s
      else
        (run namespace_name ["ip"; "link"; "add"; bridge_name; "type"; "bridge"] ;>
         run namespace_name ["ip"; "link"; "set"; bridge_name; "up"] ;>
         log_success ("Created bridge: " +:+ bridge_name)) s
    else
      (* Create bridge in host namespace *)
      if link_show EmptyString bridge_name (host s)
      then log_warn ("Bridge '" +:+ bridge_name +:+ "' already exists, skipping") s
      else
        (run EmptyString ["ip"; "link"; "add"; bridge_name; "type"; "bridge"] ;>
         run EmptyString ["ip"; "link"; "set"; bridge_name; "up"] ;>
         log_success ("Created bridge: " +:+ bridge_name)) s.

Definition add_bridge_port (bridge_name interface_name namespace_name : string)
  : Script K :=
  enter (add_bridge_port_ bridge_name interface_name namespace_name) ;>
  or_true (where_ namespace_name)
          ["ip"; "link"; "set"; interface_name; "master"; bridge_name] ;>
  log_success ("Added port " +:+ interface_name +:+ " to bridge " +:+ bridge_name).

(** The command [create_gre_tunnel] builds. *)
Definition gre_command (tunnel_name local_ip remote_ip gre_key ttl : string) : string :=
  let cmd := "ip link add " +:+ tunnel_name +:+ " type gre local " +:+ local_ip +:+
             " remote " +:+ remote_ip in
  (* Add key if specified and non-zero *)
  let cmd := if given gre_key && negb (bool_decide (gre_key = "0"))
             then cmd +:+ " key " +:+ gre_key else cmd in
  (* Add TTL if specified and non-zero *)
  if given ttl && negb (bool_decide (ttl = "0"))
  then cmd +:+ " ttl " +:+ ttl else cmd.

Definition create_gre_tunnel (tunnel_name local_ip remote_ip gre_key ttl namespace_name : string)
  : Script K :=
  enter (create_gre_tunnel_ tunnel_name local_ip remote_ip gre_key ttl namespace_name) ;>
  (* Build the command *)
  let cmd := gre_command tunnel_name local_ip remote_ip gre_key ttl in
  fun s =>
    if given namespace_name
    then
      (* Check if tunnel already exists in namespace *)
      if link_show namespace_name tunnel_name (host s)
      then log_warn ("GRE tunnel '" +:+ tunnel_name +:+ "' already exists in " +:+
                     namespace_name +:+ ", skipping") s
      else
        ((* Create tunnel in namespace *)
         or_true_cmd namespace_name cmd ;>
         or_true namespace_name ["ip"; "link"; "set"; tunnel_name; "up"] ;>
         log_success ("Created GRE tunnel: " +:+ tunnel_name +:+ " (local=" +:+ local_ip
                      +:+ ", remote=" +:+ remote_ip +:+ ")")) s
    else
      (* Check if tunnel already exists in host *)
      if link_show EmptyString tunnel_name (host s)
      then log_warn ("GRE tunnel '" +:+ tunnel_name +:+ "' already exists, skipping") s
      else
        ((* Create tunnel in host namespace *)
         or_true_cmd EmptyString cmd ;>
         or_true EmptyString ["ip"; "link"; "set"; tunnel_name; "up"] ;>
         log_success ("Created GRE tunnel: " +:+ tunnel_name +:+ " (local=" +:+ local_ip
                      +:+ ", remote=" +:+ remote_ip +:+ ")")) s.

(** [ORDER BY id] *)
Definition id_le {A} (id : A -> Z) (a b : A) : Prop := (id a ≤ id b)%Z.

#[global] Instance id_le_dec {A} (id : A -> Z) a b : Decision (id_le id a b).
Proof. unfold id_le. apply _. Defined.

Definition order_by_id {A} (id : A -> Z) (rows : list A) : list A :=
  merge_sort (id_le id) rows.

(** What [SELECT name FROM namespaces WHERE id=$namespace_id] prints, and
    the empty name the script uses when the field is empty; sqlite3 prints
    NULL as the empty string and prints nothing when no row matches. *)
Definition namespace_name_of (d : db.DB) (namespace_id : option Z) : string :=
  match namespace_id with
  | Some id =>
      match find (fun n => bool_decide (db.Namespace.ID n = id)) (db.namespaces d) with
      | Some n => db.Namespace.Name n
      | None => EmptyString
      end
  | None => EmptyString
  end.

(** Convert namespace_id to namespace_name: the query is made only for a
    field that is neither empty nor NULL. *)
Definition with_namespace_name (d : db.DB) (namespace_id : option Z)
  (rest : string -> Script K) : Script K :=
  match namespace_id with
  | Some id =>
      assign ("SELECT name FROM namespaces WHERE id=" +:+ pretty id +:+ ";")
             (namespace_name_of d namespace_id) rest
  | None => rest EmptyString
  end.

Definition restore_namespaces (d : db.DB) : Script K :=
  (* Get all namespace names from database *)
  assign "SELECT name FROM namespaces ORDER BY id;"
         (lines (db.Namespace.Name <$> order_by_id db.Namespace.ID (db.namespaces d)))
    (fun namespaces s =>
       (* Loop through each namespace *)
       for_each (fun name =>
                   if negb (bool_decide (name = EmptyString))
                   then create_namespace name else skip)
                (unquoted namespaces (host s)) s).

Definition restore_bridges (d : db.DB) : Script K :=
  while_read "SELECT id, name, ns_id FROM bridges ORDER BY id;"
    (order_by_id db.Bridge.ID (db.bridges d))
    (fun b =>
       (* Skip if bridge_name is empty *)
       if bool_decide (db.Bridge.Name b = EmptyString) then skip
       else
         with_namespace_name d (db.Bridge.NsID b) (fun namespace_name =>
           create_bridge (db.Bridge.Name b) namespace_name)).

Definition restore_veth_pairs (d : db.DB) : Script K :=
  while_read "SELECT id, name, peer_name, ns_id, peer_ns_id FROM veth_pairs ORDER BY id;"
    (order_by_id db.VethPair.ID (db.veth_pairs d))
    (fun v =>
       if bool_decide (db.VethPair.Name v = EmptyString) then skip
       else
         (* Convert IDs to names *)
         with_namespace_name d (db.VethPair.NsID v) (fun namespace_name =>
         with_namespace_name d (db.VethPair.PeerNsID v) (fun peer_namespace_name =>
           create_veth (db.VethPair.Name v) (db.VethPair.PeerName v)
                       namespace_name peer_namespace_name))).

Definition restore_ip_addresses (d : db.DB) : Script K :=
  while_read "SELECT id, interface_name, ns_id, address FROM ip_addresses ORDER BY id;"
    (order_by_id db.IPAddress.ID (db.ip_addresses d))
    (fun a =>
       if bool_decide (db.IPAddress.Address a = EmptyString) then skip
       else
         with_namespace_name d (db.IPAddress.NsID a) (fun namespace_name =>
           add_ip_address (db.IPAddress.InterfaceName a) (db.IPAddress.Address a)
                          namespace_name)).

Definition restore_routes (d : db.DB) : Script K :=
  while_read "SELECT id, ns_id, destination, gateway, interface_name FROM routes ORDER BY id;"
    (order_by_id db.Route.ID (db.routes d))
    (fun r =>
       if bool_decide (db.Route.Destination r = EmptyString) then skip
       else
         with_namespace_name d (db.Route.NsID r) (fun namespace_name =>
           add_route (db.Route.Destination r) (db.Route.Gateway r)
                     (db.Route.InterfaceName r) namespace_name)).

(** The bridge row of a port, when there is one. *)
Definition bridge_row (d : db.DB) (bridge_id : Z) : option db.Bridge.t :=
  find (fun b => bool_decide (db.Bridge.ID b = bridge_id)) (db.bridges d).

Definition restore_bridge_ports (d : db.DB) : Script K :=
  while_read "SELECT id, bridge_id, interface_name FROM bridge_ports ORDER BY id;"
    (order_by_id db.BridgePort.ID (db.bridge_ports d))
    (fun p =>
       if bool_decide (db.BridgePort.InterfaceName p = EmptyString) then skip
       else
         (* Get bridge info *)
         let bridge_id := pretty (db.BridgePort.BridgeID p) in
         let row := bridge_row d (db.BridgePort.BridgeID p) in
         assign ("SELECT name FROM bridges WHERE id=" +:+ bridge_id +:+ ";")
                (from_option db.Bridge.Name EmptyString row) (fun bridge_name =>
         assign ("SELECT ns_id FROM bridges WHERE id=" +:+ bridge_id +:+ ";")
                (from_option (fun b => from_option pretty EmptyString (db.Bridge.NsID b))
                             EmptyString row) (fun _ =>
         with_namespace_name d (row ≫= db.Bridge.NsID) (fun namespace_name =>
           add_bridge_port bridge_name (db.BridgePort.InterfaceName p) namespace_name)))).

Definition restore_gre_tunnels (d : db.DB) : Script K :=
  while_read
    "SELECT id, name, local_ip, remote_ip, gre_key, ttl, ns_id FROM gre_tunnels ORDER BY id;"
    (order_by_id db.GRETunnel.ID (db.gre_tunnels d))
    (fun t =>
       if bool_decide (db.GRETunnel.Name t = EmptyString) then skip
       else
         with_namespace_name d (db.GRETunnel.NsID t) (fun namespace_name =>
           create_gre_tunnel (db.GRETunnel.Name t) (db.GRETunnel.LocalIP t)
                             (db.GRETunnel.RemoteIP t)
                             (pretty (db.GRETunnel.Key t)) (pretty (db.GRETunnel.TTL t))
                             namespace_name)).

Definition banner : string := "==========================================".

(** Main restore function *)
Definition restore_all (d : db.DB) : Script K :=
  log_info banner ;>
  log_info "Starting network namespace restoration" ;>
  log_info banner ;>
  (* 1. Restore namespaces *)
  log_info "Restoring namespaces..." ;>
  restore_namespaces d ;>
  (* 2. Restore bridges (before veths, as veths might connect to bridges) *)
  log_info "Restoring bridges..." ;>
  restore_bridges d ;>
  (* 3. Restore veth pairs *)
  log_info "Restoring veth pairs..." ;>
  restore_veth_pairs d ;>
  (* 4. Restore IP addresses *)
  log_info "Restoring IP addresses..." ;>
  restore_ip_addresses d ;>
  (* 5. Restore routes *)
  log_info "Restoring routes..." ;>
  restore_routes d ;>
  (* 6. Restore bridge ports *)
  log_info "Restoring bridge ports..." ;>
  restore_bridge_ports d ;>
  (* 7. Restore GRE tunnels *)
  log_info "Restoring GRE tunnels..." ;>
  restore_gre_tunnels d ;>
  log_info banner ;>
  log_info "Restoration complete!" ;>
  log_info banner.

(** Cleanup function - Remove all managed namespaces.  The three commands
    of its list, [ip netns del ... && log_info ... || true], cannot end the
    script. *)
Definition cleanup_all (d : db.DB) : Script K :=
  log_info "Cleaning up all managed namespaces..." ;>
  while_read "SELECT id, name FROM namespaces;" (db.namespaces d)
    (fun n =>
       (* Skip empty names *)
       if bool_decide (db.Namespace.Name n = EmptyString) then skip
       else
         (* Delete the namespace *)
         fun s =>
           let '(k, code) := exec EmptyString
                                  ["ip"; "netns"; "del"; db.Namespace.Name n] (host s) in
           let s' := mkShell k (LOG_FILE s) (invoked s) in
           if bool_decide (code = 0)
           then ((log_info ("Deleted namespace: " +:+ db.Namespace.Name n) s').1, Done)
           else (s', Done)).

(** Check if running as root *)
Definition check_root (EUID : Z) : Script K :=
  if negb (bool_decide (EUID = 0))
  then log_error "This script must be run as root" ;> exit 1
  else skip.

(** Check if database exists *)
Definition check_db (DB_PATH : string) (database : option db.DB) : Script K :=
  match database with
  | None => log_error ("Database not found: " +:+ DB_PATH) ;> exit 1
  | Some _ => log_info ("Using database: " +:+ DB_PATH)
  end.

(** Main entry point: [arguments] are the arguments [main] is called
    with, [database] is the file at [DB_PATH] when there is one. *)
Definition main (EUID : Z) (DB_PATH : string) (database : option db.DB)
  (arguments : list string) : Script K :=
  (* Step 1: Check if running as root *)
  check_root EUID ;>
  (* Step 2: Check if database exists *)
  check_db DB_PATH database ;>
  (* Step 3: Run the requested action *)
  match database with
  | None => skip
  | Some d =>
      let action := match arguments with
                    | [] => "restore"
                    | first :: _ => if bool_decide (first = EmptyString)
                                    then "restore" else first
                    end in
      if bool_decide (action = "restore") then restore_all d
      else if bool_decide (action = "cleanup") then cleanup_all d
      else exit 1
  end.

(** Parse arguments: the loop at the top of the script consumes every
    argument; [shift 2] fails when [--db] or [--log] is the last one. *)
Inductive Options : Type :=
| Parsed (DB_PATH LOG_PATH : string)
| Stop (code : Z).

Fixpoint parse_arguments (arguments : list string) (DB_PATH LOG_PATH : string) : Options :=
  match arguments with
  | [] => Parsed DB_PATH LOG_PATH
  | first :: rest =>
      if bool_decide (first = "--db")
      then match rest with
           | value :: rest' => parse_arguments rest' value LOG_PATH
           | [] => Stop 1
           end
      else if bool_decide (first = "--log")
      then match rest with
           | value :: rest' => parse_arguments rest' DB_PATH value
           | [] => Stop 1
           end
      else if bool_decide (first = "-h" ∨ first = "--help") then Stop 0
      else Stop 1
  end.

(** The script: [HOME] and [EUID] of the process, the database files of the
    host by path, and the arguments of the command line.  [main "$@"] runs
    after the loop has shifted every argument away. *)
Definition netns_restore (HOME : string) (EUID : Z) (databases : string -> option db.DB)
  (arguments : list string) : Script K :=
  match parse_arguments arguments (HOME +:+ "/.netns-mgr/netns.db")
                        "/var/log/netns-restore.log" with
  | Stop code => exit code
  | Parsed DB_PATH _ => main EUID DB_PATH (databases DB_PATH) []
  end.

End script.
End restore.

(** ** The [ip] tool on the reference host

    The script is a process of its own in the initial network namespace;
    [ip netns exec ns] runs the rest of the line inside the namespace
    mounted on [/var/run/netns/ns].  Exit status 2 is an error answered by
    the kernel, 1 an error of [ip] itself. *)

Module RefIp.
Import RefKernel.

Definition named (ns : string) (k : t) : option nsid :=
  if bool_decide (ns = EmptyString) then Some 0
  else match files k !! netns.Join netns.netnsPath ns with
       | Some (Some n) => Some n
       | _ => None
       end.

Definition ok (k : t) : t * Z := (k, 0).
Definition kernel_error (k : t) : t * Z := (k, 2).

Definition add_link (n : nsid) (name : string) (kd : kind) (k : t) : t * Z :=
  if bool_decide (is_Some (by_name n name k)) then kernel_error k
  else ok (new_link n name kd k).

Definition on_link (n : nsid) (name : string) (f : link -> t -> t * Z) (k : t) : t * Z :=
  match by_name n name k with
  | Some l => f l k
  | None => kernel_error k
  end.

(** The options of [ip route add] after the destination. *)
Fixpoint route_options (n : nsid) (argv : list string) (r : NlRoute) (k : t)
  : option NlRoute :=
  match argv with
  | [] => Some r
  | "via" :: gw :: rest =>
      match net_ParseIP gw with
      | Some g => route_options n rest (mkRoute (Dst r) (Some g) (LinkIndex r)) k
      | None => None
      end
  | "dev" :: dev :: rest =>
      match by_name n dev k with
      | Some l => route_options n rest (mkRoute (Dst r) (Gw r) (l_index l)) k
      | None => None
      end
  | _ => None
  end.

(** A decimal number. *)
Definition parse_Z (s : string) : option Z :=
  if bool_decide (s = EmptyString) then None
  else foldl (fun acc c => a ← acc; d ← Ascii.is_nat c; Some (10 * a + Z.of_nat d))
             (Some 0) (String.list_ascii_of_string s).

(** The options of [ip link add ... type gre] after the two endpoints. *)
Fixpoint gre_options (argv : list string) (key ttl : string) : option (string * string) :=
  match argv with
  | [] => Some (key, ttl)
  | "key" :: v :: rest => gre_options rest v ttl
  | "ttl" :: v :: rest => gre_options rest key v
  | _ => None
  end.

Definition ip_in (n : nsid) (argv : list string) (k : t) : t * Z :=
  match argv with
  | ["ip"; "link"; "set"; name; "up"] =>
      on_link n name (fun l k =>
        ok (update_link (l_index l)
              (fun x => mkL (l_index x) (l_name x) (l_ns x) (l_kind x) (l_master x) true) k)) k
  | ["ip"; "link"; "add"; name; "type"; "veth"; "peer"; "name"; peer] =>
      if bool_decide (peer = name ∨ is_Some (by_name n name k) ∨ is_Some (by_name n peer k))
      then kernel_error k
      else
        let i := next_index k in
        ok (new_link n name (KVeth i) (new_link n peer (KVeth (i + 1)) k))
  | ["ip"; "link"; "set"; name; "netns"; target] =>
      match files k !! netns.Join netns.netnsPath target with
      | Some (Some m) =>
          on_link n name (fun l k =>
            if bool_decide (is_Some (by_name m name k)) then kernel_error k
            else ok (set_addrs (filter (fun a => a.1 ≠ l_index l) (addrs k))
                       (update_link (l_index l)
                          (fun x => mkL (l_index x) (l_name x) m (l_kind x) None false) k))) k
      | _ => (k, 1)
      end
  | ["ip"; "link"; "add"; name; "type"; "bridge"] => add_link n name KBridge k
  | ["ip"; "link"; "set"; name; "master"; bridge] =>
      on_link n bridge (fun b k =>
        match l_kind b with
        | KBridge =>
            on_link n name (fun l k =>
              ok (update_link (l_index l)
                    (fun x => mkL (l_index x) (l_name x) (l_ns x) (l_kind x)
                                  (Some (l_index b)) (l_up x)) k)) k
        | _ => kernel_error k
        end) k
  | ["ip"; "addr"; "add"; address; "dev"; name] =>
      match net_ParseCIDR address with
      | Some a =>
          on_link n name (fun l k =>
            if bool_decide ((l_index l, a) ∈ addrs k) then kernel_error k
            else ok (set_addrs (addrs k ++ [(l_index l, a)]) k)) k
      | None => (k, 1)
      end
  | "ip" :: "route" :: "add" :: destination :: options =>
      match (if bool_decide (destination = "default") then Some None
             else Some <$> net_ParseCIDR destination) with
      | Some dst =>
          match route_options n options (mkRoute dst None 0) k with
          | Some r =>
              if bool_decide (Exists (same_dst n r) (routes k)) then kernel_error k
              else ok (set_routes (routes k ++ [(n, r)]) k)
          | None => (k, 1)
          end
      | None => (k, 1)
      end
  | "ip" :: "link" :: "add" :: name :: "type" :: "gre" :: "local" :: l :: "remote" :: r
         :: options =>
      match net_ParseIP l, net_ParseIP r, gre_options options "0" "0" with
      | Some l, Some r, Some (key, ttl) =>
          match parse_Z key, parse_Z ttl with
          | Some key, Some ttl => add_link n name (KGre l r key key ttl) k
          | _, _ => (k, 1)
          end
      | _, _, _ => (k, 1)
      end
  | _ => (k, 1)
  end.

Definition ip_netns_add (name : string) (k : t) : t * Z :=
  let path := netns.Join netns.netnsPath name in
  match files k !! path with
  | Some _ => (k, 1)
  | None =>
      let n := next_nsid k in
      ok (new_link n "lo" KLoopback
            (set_next_nsid (n + 1)
               (set_files (<[path := Some n]> (files k)) (set_dir_exists true k))))
  end.

Definition ip_netns_del (name : string) (k : t) : t * Z :=
  let path := netns.Join netns.netnsPath name in
  match files k !! path with
  | Some _ => ok (reap (set_files (delete path (files k)) k))
  | None => (k, 1)
  end.

Definition exec (ns : string) (argv : list string) (k : t) : t * Z :=
  let '(b, fs) := pop_fault (faults k) in
  let k := set_faults fs k in
  if b then (k, 1)
  else
    match named ns k with
    | None => (k, 1)
    | Some n =>
        match argv with
        | ["ip"; "netns"; "add"; name] => ip_netns_add name k
        | ["ip"; "netns"; "del"; name] => ip_netns_del name k
        | _ => ip_in n argv k
        end
    end.

Definition netns_list_grep (name : string) (k : t) : bool :=
  bool_decide (is_Some (files k !! netns.Join netns.netnsPath name)).

Definition link_show (ns name : string) (k : t) : bool :=
  match named ns k with
  | Some n => bool_decide (is_Some (by_name n name k))
  | None => false
  end.

Definition addr_show_grep (ns interface address : string) (k : t) : bool :=
  match named ns k with
  | Some n =>
      match by_name n interface k with
      | Some l => bool_decide ((l_index l, address) ∈ addrs k)
      | None => false
      end
  | None => false
  end.

(** On the reference host the database can be read and the log written,
    and the working directory holds no file a pattern matches. *)
Definition sqlite3 (sql : string) (k : t) : Z := 0.

Definition tee (k : t) : Z := 0.

Definition pathname_expansion (word : string) (k : t) : list string := [word].

#[global] Instance tools : restore.Tools t :=
  restore.Build_Tools t exec netns_list_grep link_show addr_show_grep
                      sqlite3 tee pathname_expansion.


End RefIp.

(** * Properties *)

(** ** The entity store: deleting a namespace record *)

Section store_facts.
Import db.

(** A nullable reference points at one of the namespace ids [gone]. *)
Definition references (gone : list Z) (ref : option Z) : Prop :=
  ∃ id, id ∈ gone ∧ ref = Some id.

Lemma refers_true gone ref : Repository.refers gone ref = true ↔ references gone ref.
Proof.
  unfold Repository.refers, references. destruct ref as [id|].
  - rewrite bool_decide_eq_true. naive_solver.
  - naive_solver.
Qed.

Lemma refers_false gone ref : Repository.refers gone ref = false ↔ ¬ references gone ref.
Proof. rewrite <- refers_true. destruct (Repository.refers gone ref); naive_solver. Qed.

(** The ids of the namespace records named [name]. *)
Definition ids_named (name : string) (d : DB) : list Z :=
  Namespace.ID <$> filter (fun n => Namespace.Name n = name) (namespaces d).

(** What a successful [DeleteNamespace] leaves behind. *)
Lemma DeleteNamespace_Ok name d d' :
  Repository.DeleteNamespace name d = (d', Ok tt) →
  ids_named name d ≠ [] ∧
  d' = Repository.on_delete_namespaces (ids_named name d)
         (set_namespaces (filter (fun n => Namespace.Name n ≠ name) (namespaces d))
            (set_faults (pop_fault (faults d)).2 d)).
Proof.
  unfold Repository.DeleteNamespace, Repository.delete_namespace_rows, bind, statement.
  destruct (pop_fault (faults d)) as [[] fs]; simpl; [discriminate|].
  fold (ids_named name d).
  case_bool_decide as Hrows; unfold throw, ret; intros [= <-].
  split; [|reflexivity].
  intros Hnil. rewrite Hnil in Hrows. simpl in Hrows. lia.
Qed.

(** The spec's scenario: namespace ns1 owns an address and a route and holds
    the first end of the pair v0/v1, whose peer end is in ns2. *)
Definition scenario : DB :=
  mkDB [Namespace.mk 1 "ns1" 100 EmptyString; Namespace.mk 2 "ns2" 101 EmptyString]
       [VethPair.mk 1 "v0" "v1" (Some 1) (Some 2) 102]
       [IPAddress.mk 1 "v0" (Some 1) "10.0.0.1/24" 103]
       [Route.mk 1 (Some 1) "default" "10.0.0.254" EmptyString 104]
       [] [] [] ∅ 200 [].

(** The cascade as the specification words it: every pair that references
    the deleted namespace, on either end, survives with that reference
    nulled and the other one unchanged. *)
Definition cascade_as_specified (name : string) (d : DB) : Prop :=
  ∀ d', Repository.DeleteNamespace name d = (d', Ok tt) →
  ∀ id, id ∈ ids_named name d →
    (∀ a, a ∈ ip_addresses d' → IPAddress.NsID a ≠ Some id) ∧
    (∀ r, r ∈ routes d' → Route.NsID r ≠ Some id) ∧
    (∀ b, b ∈ bridges d' → Bridge.NsID b ≠ Some id) ∧
    (∀ t, t ∈ gre_tunnels d' → GRETunnel.NsID t ≠ Some id) ∧
    (∀ v, v ∈ veth_pairs d →
       VethPair.NsID v = Some id ∨ VethPair.PeerNsID v = Some id →
       ∃ v', v' ∈ veth_pairs d' ∧ VethPair.ID v' = VethPair.ID v ∧
             VethPair.NsID v' =
               (if decide (VethPair.NsID v = Some id) then None else VethPair.NsID v) ∧
             VethPair.PeerNsID v' =
               (if decide (VethPair.PeerNsID v = Some id) then None
                else VethPair.PeerNsID v)).

End store_facts.

(** C1, as stated, fails on the spec's own scenario: deleting ns1 deletes
    the record of the pair v0/v1, whose first end referenced ns1, because
    [veth_pairs.ns_id] is declared ON DELETE CASCADE. *)
Lemma cascade_as_specified_fails : ¬ cascade_as_specified "ns1" scenario.
Proof.
  intros Hspec.
  destruct (Hspec (db.Repository.DeleteNamespace "ns1" scenario).1 eq_refl 1)
    as (_ & _ & _ & _ & Hveth).
  { vm_compute. set_solver. }
  destruct (Hveth (db.VethPair.mk 1 "v0" "v1" (Some 1) (Some 2) 102))
    as (v' & Hin & _).
  - vm_compute. set_solver.
  - by left.
  - vm_compute in Hin. set_solver.
Qed.

(** C1 (amended).  After a successful [DeleteNamespace name]: the namespace
    records named [name] are gone; an Address, Route, Bridge or Tunnel
    record survives exactly when it does not reference a deleted namespace;
    a VirtualLinkPair record whose first end ([ns_id]) references a deleted
    namespace is deleted too, and every other pair survives, with its peer
    reference ([peer_ns_id]) nulled when it pointed at a deleted namespace
    and its first-end reference unchanged. *)
Theorem DeleteNamespace_cascade (name : string) (d d' : db.DB) :
  db.Repository.DeleteNamespace name d = (d', Ok tt) →
  let gone := ids_named name d in
  gone ≠ [] ∧
  (∀ n, n ∈ db.namespaces d' ↔ n ∈ db.namespaces d ∧ db.Namespace.Name n ≠ name) ∧
  (∀ a, a ∈ db.ip_addresses d' ↔
        a ∈ db.ip_addresses d ∧ ¬ references gone (db.IPAddress.NsID a)) ∧
  (∀ r, r ∈ db.routes d' ↔ r ∈ db.routes d ∧ ¬ references gone (db.Route.NsID r)) ∧
  (∀ b, b ∈ db.bridges d' ↔ b ∈ db.bridges d ∧ ¬ references gone (db.Bridge.NsID b)) ∧
  (∀ t, t ∈ db.gre_tunnels d' ↔
        t ∈ db.gre_tunnels d ∧ ¬ references gone (db.GRETunnel.NsID t)) ∧
  (∀ v', v' ∈ db.veth_pairs d' ↔
     ∃ v, v ∈ db.veth_pairs d ∧ ¬ references gone (db.VethPair.NsID v) ∧
          db.VethPair.ID v' = db.VethPair.ID v ∧
          db.VethPair.Name v' = db.VethPair.Name v ∧
          db.VethPair.PeerName v' = db.VethPair.PeerName v ∧
          db.VethPair.CreatedAt v' = db.VethPair.CreatedAt v ∧
          db.VethPair.NsID v' = db.VethPair.NsID v ∧
          ((references gone (db.VethPair.PeerNsID v) ∧ db.VethPair.PeerNsID v' = None) ∨
           (¬ references gone (db.VethPair.PeerNsID v) ∧
            db.VethPair.PeerNsID v' = db.VethPair.PeerNsID v))).
Proof.
  intros Hdel gone. apply DeleteNamespace_Ok in Hdel as [Hgone ->].
  fold gone. split; [done|].
  unfold db.Repository.on_delete_namespaces, db.Repository.on_delete_bridges. simpl.
  split; [intros n; rewrite list_elem_of_filter; naive_solver|].
  split; [intros a; rewrite list_elem_of_filter, refers_false; naive_solver|].
  split; [intros r; rewrite list_elem_of_filter, refers_false; naive_solver|].
  split; [intros b; rewrite list_elem_of_filter, refers_false; naive_solver|].
  split; [intros t; rewrite list_elem_of_filter, refers_false; naive_solver|].
  intros v'. split.
  - intros Hin. apply list_elem_of_fmap in Hin as (v & -> & Hv).
    apply list_elem_of_filter in Hv as [Hns Hv]. apply refers_false in Hns.
    exists v. unfold db.Repository.set_null_peer.
    destruct (db.Repository.refers gone (db.VethPair.PeerNsID v)) eqn:Hpeer; simpl.
    + apply refers_true in Hpeer. naive_solver.
    + apply refers_false in Hpeer. naive_solver.
  - intros (v & Hv & Hns & Hid & Hname & Hpn & Hc & Hnsid & Hpeer).
    apply list_elem_of_fmap. exists v. split.
    + unfold db.Repository.set_null_peer. destruct v', v; simpl in *. subst.
      destruct Hpeer as [[Hr ->]|[Hr ->]].
      * apply refers_true in Hr. by rewrite Hr.
      * apply refers_false in Hr. by rewrite Hr.
    + apply list_elem_of_filter. by rewrite refers_false.
Qed.

(** The theorem on the spec's scenario, with ns2 deleted: the pair survives
    with its peer reference nulled. *)
Lemma DeleteNamespace_cascade_witness :
  db.Repository.DeleteNamespace "ns2" scenario =
    ((db.Repository.DeleteNamespace "ns2" scenario).1, Ok tt) ∧
  db.VethPair.mk 1 "v0" "v1" (Some 1) None 102
    ∈ db.veth_pairs (db.Repository.DeleteNamespace "ns2" scenario).1.
Proof.
  split; [reflexivity|].
  apply (DeleteNamespace_cascade "ns2" scenario _ eq_refl).
  exists (db.VethPair.mk 1 "v0" "v1" (Some 1) (Some 2) 102).
  split; [vm_compute; set_solver|].
  split; [intros (id & Hid & Heq); vm_compute in Hid; set_solver|].
  repeat split. left. split; [|reflexivity].
  exists 2. split; [vm_compute; set_solver|reflexivity].
Defined.

(** ** The reconciler: the report of [nsListCmd] *)

Section reconciler_facts.
Import db cli.

(** The lookup map the command builds from the records. *)
Lemma databaseNamespaceMap_lookup (records : list Namespace.t) (m : gmap string bool)
  (name : string) :
  foldl (fun m r => <[Namespace.Name r := true]> m) m records !! name =
    if bool_decide (name ∈ Namespace.Name <$> records) then Some true else m !! name.
Proof.
  revert m. induction records as [|r records IH]; intros m; [done|].
  rewrite fmap_cons. cbn [foldl].
  - rewrite IH. destruct (decide (Namespace.Name r = name)) as [<-|Hne].
    + rewrite lookup_insert_eq.
      rewrite (bool_decide_eq_true_2 (_ ∈ _ :: _)) by set_solver.
      by case_bool_decide.
    + rewrite lookup_insert_ne by done.
      repeat case_bool_decide; set_solver.
Qed.

Lemma foundInSystem_false (live : list string) (name : string) :
  existsb (fun n => bool_decide (name = n)) live = false ↔ name ∉ live.
Proof.
  induction live as [|n live IH]; simpl.
  - set_solver.
  - rewrite orb_false_iff, IH, bool_decide_eq_false. set_solver.
Qed.

Lemma find_by_name (records : list Namespace.t) (name : string) :
  match find (fun r => bool_decide (Namespace.Name r = name)) records with
  | Some r => r ∈ records ∧ Namespace.Name r = name
  | None => name ∉ Namespace.Name <$> records
  end.
Proof.
  induction records as [|r records IH]; simpl; [set_solver|].
  case_bool_decide as Hr; [set_solver|].
  destruct (find _ records); set_solver.
Qed.

(** The rows of the namespaces the system lists, and of the records no
    listed namespace matches. *)
Definition presentRows (live : list string) (persisted : list Namespace.t) : list Row :=
  take (length live) (nsListRows live persisted).
Definition orphanedRows (live : list string) (persisted : list Namespace.t) : list Row :=
  drop (length live) (nsListRows live persisted).

Lemma presentRows_eq live persisted :
  presentRows live persisted =
    (fun name =>
       mkRow name
         (if bool_decide (name ∈ Namespace.Name <$> persisted) then "active" else "untracked")
         (match find (fun r => bool_decide (Namespace.Name r = name)) persisted with
          | Some r => Format (Namespace.CreatedAt r)
          | None => "-"
          end)) <$> live.
Proof.
  unfold presentRows, nsListRows.
  rewrite take_app_length' by (by rewrite length_fmap).
  apply list_fmap_ext. intros _ name _. f_equal.
  rewrite databaseNamespaceMap_lookup, lookup_empty.
  by case_bool_decide.
Qed.

Lemma orphanedRows_eq live persisted :
  orphanedRows live persisted =
    (fun r => mkRow (Namespace.Name r) "orphaned" (Format (Namespace.CreatedAt r)))
      <$> filter (fun r => Namespace.Name r ∉ live) persisted.
Proof.
  unfold orphanedRows, nsListRows.
  rewrite drop_app_length' by (by rewrite length_fmap).
  f_equal. apply list_filter_iff. intros r. apply foundInSystem_false.
Qed.

Lemma presentRows_names live persisted : NAME <$> presentRows live persisted = live.
Proof.
  rewrite presentRows_eq. induction live as [|n live IH]; [done|].
  rewrite !fmap_cons. by f_equal.
Qed.

Lemma orphanedRows_names live persisted :
  NAME <$> orphanedRows live persisted =
    Namespace.Name <$> filter (fun r => Namespace.Name r ∉ live) persisted.
Proof.
  rewrite orphanedRows_eq.
  induction (filter (fun r => Namespace.Name r ∉ live) persisted) as [|r l IH]; [done|].
  rewrite !fmap_cons. by f_equal.
Qed.

Lemma nsListRows_split live persisted :
  nsListRows live persisted =
    (presentRows live persisted ++ orphanedRows live persisted)%list.
Proof. unfold presentRows, orphanedRows. by rewrite take_drop. Qed.

End reconciler_facts.

(** C7.  Every name of the live set or of the persisted set is reported,
    and all rows of a name carry one status: active when the name is in
    both sets, untracked when it is live only, orphaned when it is persisted
    only; no row names anything else; a name listed once in each input has
    one row.  Classifying is a total function, and the command that prints
    the report returns no error once its two enumerations succeeded. *)
Theorem reconcile_classifies (live : list string) (persisted : list db.Namespace.t)
  (name : string) :
  name ∈ live ∨ name ∈ (db.Namespace.Name <$> persisted) →
  let rows := cli.nsListRows live persisted in
  (∃ status,
     (∃ row, row ∈ rows ∧ cli.NAME row = name ∧ cli.STATUS row = status) ∧
     (∀ row, row ∈ rows → cli.NAME row = name → cli.STATUS row = status) ∧
     (status = "active" ∨ status = "untracked" ∨ status = "orphaned") ∧
     (status = "active" ↔ name ∈ live ∧ name ∈ (db.Namespace.Name <$> persisted)) ∧
     (status = "untracked" ↔ name ∈ live ∧ name ∉ (db.Namespace.Name <$> persisted)) ∧
     (status = "orphaned" ↔ (name ∉ live) ∧ name ∈ (db.Namespace.Name <$> persisted))) ∧
  (∀ row, row ∈ rows →
     cli.NAME row ∈ live ∨ cli.NAME row ∈ (db.Namespace.Name <$> persisted)) ∧
  (NoDup live → NoDup (db.Namespace.Name <$> persisted) → NoDup (cli.NAME <$> rows)) ∧
  (∀ K (HK : Sys K) (w : cli.World K) k d,
     netns.Manager.List (cli.kernel w) = (k, Ok live) →
     db.Repository.ListNamespaces (cli.Repo w) = (d, Ok persisted) →
     (cli.nsListCmd w).2 = Ok tt).
Proof.
  intros Hin rows. subst rows. rewrite nsListRows_split.
  split; [|split; [|split]].
  - rewrite presentRows_eq, orphanedRows_eq.
    destruct (decide (name ∈ live)) as [Hlive|Hlive].
    + exists (if bool_decide (name ∈ db.Namespace.Name <$> persisted)
              then "active" else "untracked").
      split; [|split].
      * eexists. split; [apply elem_of_app; left; apply list_elem_of_fmap;
                         eexists; split; [reflexivity|exact Hlive]|]. done.
      * intros row [Hrow|Hrow]%elem_of_app Hname.
        -- apply list_elem_of_fmap in Hrow as (n & -> & _). simpl in Hname. by subst.
        -- apply list_elem_of_fmap in Hrow as (r & -> & Hr).
           apply list_elem_of_filter in Hr as [Hr _]. simpl in Hname. by subst.
      * case_bool_decide; naive_solver.
    + destruct Hin as [Hin|Hin]; [done|]. exists "orphaned".
      apply list_elem_of_fmap in Hin as (r & -> & Hr).
      split; [|split].
      * eexists. split; [apply elem_of_app; right; apply list_elem_of_fmap;
                         eexists; split; [reflexivity|]|].
        -- apply list_elem_of_filter. done.
        -- done.
      * intros row [Hrow|Hrow]%elem_of_app Hname.
        -- apply list_elem_of_fmap in Hrow as (n & -> & Hn). simpl in Hname. by subst.
        -- by apply list_elem_of_fmap in Hrow as (r' & -> & _).
      * assert (db.Namespace.Name r ∈ (db.Namespace.Name <$> persisted))
          by (apply list_elem_of_fmap; eauto).
        naive_solver.
  - rewrite presentRows_eq, orphanedRows_eq.
    intros row [Hrow|Hrow]%elem_of_app.
    + apply list_elem_of_fmap in Hrow as (n & -> & Hn). by left.
    + apply list_elem_of_fmap in Hrow as (r & -> & Hr).
      apply list_elem_of_filter in Hr as [_ Hr]. right. apply list_elem_of_fmap. eauto.
  - intros Hlive Hpers. rewrite fmap_app, presentRows_names, orphanedRows_names.
    apply NoDup_app. split; [done|split].
    + intros n Hn Hn'.
      apply list_elem_of_fmap in Hn' as (r & -> & Hr).
      by apply list_elem_of_filter in Hr as [Hr _].
    + clear Hin Hlive. induction persisted as [|r persisted IH]; [constructor|].
      rewrite fmap_cons in Hpers. apply NoDup_cons in Hpers as [Hr Hpers].
      rewrite filter_cons. case_decide; [|by apply IH].
      rewrite fmap_cons. apply NoDup_cons. split; [|by apply IH].
      intros (r' & Heq & Hr')%list_elem_of_fmap.
      apply list_elem_of_filter in Hr' as [_ Hr'].
      apply Hr. apply list_elem_of_fmap. eauto.
  - intros K HK w k d Hlist Hrecs.
    unfold cli.nsListCmd, bind, cli.sys, cli.repo, cli.Printf, modify.
    rewrite Hlist. simpl. rewrite Hrecs. reflexivity.
Qed.

(** The example of the specification: live {x, y}, persisted {y, z}. *)
Lemma reconcile_classifies_witness :
  cli.nsListRows ["x"; "y"] [db.Namespace.mk 1 "y" 10 EmptyString;
                              db.Namespace.mk 2 "z" 20 EmptyString] =
    [cli.mkRow "x" "untracked" "-"; cli.mkRow "y" "active" "10";
     cli.mkRow "z" "orphaned" "20"] ∧
  ∃ status, ∀ row,
    row ∈ cli.nsListRows ["x"; "y"] [db.Namespace.mk 1 "y" 10 EmptyString;
                                      db.Namespace.mk 2 "z" 20 EmptyString] →
    cli.NAME row = "z" → cli.STATUS row = status.
Proof.
  split; [reflexivity|].
  destruct (reconcile_classifies ["x"; "y"]
              [db.Namespace.mk 1 "y" 10 EmptyString; db.Namespace.mk 2 "z" 20 EmptyString]
              "z") as [(status & _ & Hall & _) _].
  - right. set_solver.
  - exists status. exact Hall.
Defined.

Lemma StronglySorted_filter {A} (R : relation A) (P : A → Prop) `{∀ x, Decision (P x)}
  (l : list A) :
  StronglySorted R l → StronglySorted R (filter P l).
Proof.
  induction 1 as [|x l Hl IH Hx]; [constructor|].
  rewrite filter_cons. case_decide; [|done].
  constructor; [done|]. apply list.Forall_forall. intros y Hy.
  apply list_elem_of_filter in Hy as [_ Hy].
  rewrite list.Forall_forall in Hx. by apply Hx.
Qed.

#[local] Instance name_le_trans : Transitive db.Repository.name_le.
Proof. intros a b c. unfold db.Repository.name_le. apply transitivity. Qed.

#[local] Instance name_le_total : Total db.Repository.name_le.
Proof. intros a b. unfold db.Repository.name_le. apply total. apply _. Qed.

(** ORDER BY name: what [ListNamespaces] returns is sorted by name. *)
Lemma ListNamespaces_sorted (d d' : db.DB) (records : list db.Namespace.t) :
  db.Repository.ListNamespaces d = (d', Ok records) →
  Sorted db.Repository.name_le records ∧ records ≡ₚ db.namespaces d.
Proof.
  unfold db.Repository.ListNamespaces, bind, db.statement, gets.
  destruct (pop_fault (db.faults d)) as [[] fs]; simpl; [discriminate|].
  intros [= <- <-]. split.
  - apply Sorted_merge_sort. apply _.
  - apply merge_sort_Permutation.
Qed.

(** The report as the specification words it: ordered by name across all
    its entries. *)
Definition report_ordered_by_name (live : list string) (persisted : list db.Namespace.t)
  : Prop :=
  Sorted String.le (cli.NAME <$> cli.nsListRows live persisted).

(** C8, as stated, fails: with the live namespace b and the persisted record
    a, both inputs being sorted, the report lists b before a. *)
Lemma report_ordered_by_name_fails :
  Sorted String.le ["b"] ∧
  Sorted db.Repository.name_le [db.Namespace.mk 1 "a" 10 EmptyString] ∧
  cli.nsListRows ["b"] [db.Namespace.mk 1 "a" 10 EmptyString] =
    [cli.mkRow "b" "untracked" "-"; cli.mkRow "a" "orphaned" "10"] ∧
  ¬ report_ordered_by_name ["b"] [db.Namespace.mk 1 "a" 10 EmptyString].
Proof.
  split; [repeat constructor|]. split; [repeat constructor|]. split; [reflexivity|].
  intros Hsorted. inversion Hsorted as [|? ? _ Hhd]. inversion Hhd as [|? ? Hle].
  vm_compute in Hle. done.
Qed.

(** C8 (amended).  The report has two parts.  First one row per listed
    live namespace, in the order of the live enumeration, with status active
    or untracked; then one row per persisted record that no live namespace
    matches, in the order of the persisted list, with status orphaned.
    Each part is ordered by name when its input is, and the persisted
    list is ([ListNamespaces] orders by name); the report as a whole need
    not be.  An untracked row carries no timestamp (a dash); an active or
    orphaned row carries the creation time of a persisted record of its
    name. *)
Theorem report_layout (live : list string) (persisted : list db.Namespace.t) :
  let rows := cli.nsListRows live persisted in
  rows = (presentRows live persisted ++ orphanedRows live persisted)%list ∧
  cli.NAME <$> presentRows live persisted = live ∧
  cli.NAME <$> orphanedRows live persisted =
    filter (fun n => n ∉ live) (db.Namespace.Name <$> persisted) ∧
  (∀ row, row ∈ presentRows live persisted →
     cli.STATUS row = "active" ∨ cli.STATUS row = "untracked") ∧
  (∀ row, row ∈ orphanedRows live persisted → cli.STATUS row = "orphaned") ∧
  (Sorted String.le live → Sorted String.le (cli.NAME <$> presentRows live persisted)) ∧
  (Sorted db.Repository.name_le persisted →
     Sorted String.le (cli.NAME <$> orphanedRows live persisted)) ∧
  (∀ row, row ∈ rows → cli.STATUS row = "untracked" → cli.CREATED row = "-") ∧
  (∀ row, row ∈ rows →
     cli.STATUS row = "active" ∨ cli.STATUS row = "orphaned" →
     ∃ r, r ∈ persisted ∧ db.Namespace.Name r = cli.NAME row ∧
          cli.CREATED row = cli.Format (db.Namespace.CreatedAt r)) ∧
  (∀ d d', db.Repository.ListNamespaces d = (d', Ok persisted) →
           Sorted db.Repository.name_le persisted).
Proof.
  intros rows. subst rows.
  split; [apply nsListRows_split|].
  split; [apply presentRows_names|].
  split.
  { rewrite orphanedRows_names. clear. induction persisted as [|r l IH]; [done|].
    rewrite fmap_cons, !filter_cons. case_decide; [|done]. rewrite fmap_cons. by f_equal. }
  split.
  { rewrite presentRows_eq. intros row (n & -> & _)%list_elem_of_fmap. simpl.
    case_bool_decide; auto. }
  split.
  { rewrite orphanedRows_eq. by intros row (r & -> & _)%list_elem_of_fmap. }
  split; [by rewrite presentRows_names|].
  split.
  { intros Hsorted. rewrite orphanedRows_names.
    apply Sorted_fmap with (R1 := db.Repository.name_le); [done|].
    apply StronglySorted_Sorted, StronglySorted_filter.
    by apply Sorted_StronglySorted; [apply _|]. }
  split.
  { rewrite nsListRows_split, presentRows_eq, orphanedRows_eq.
    intros row [Hrow|Hrow]%elem_of_app.
    - apply list_elem_of_fmap in Hrow as (n & -> & _). simpl.
      pose proof (find_by_name persisted n) as Hfind.
      case_bool_decide as Hn; [done|]. intros _.
      destruct (find _ persisted) as [r|]; [|done].
      destruct Hfind as [Hr <-]. exfalso. apply Hn, list_elem_of_fmap. eauto.
    - by apply list_elem_of_fmap in Hrow as (r & -> & _). }
  split.
  { rewrite nsListRows_split, presentRows_eq, orphanedRows_eq.
    intros row [Hrow|Hrow]%elem_of_app.
    - apply list_elem_of_fmap in Hrow as (n & -> & _). simpl.
      pose proof (find_by_name persisted n) as Hfind.
      case_bool_decide as Hn; [|by intros [|]]. intros _.
      destruct (find _ persisted) as [r|]; [naive_solver|done].
    - apply list_elem_of_fmap in Hrow as (r & -> & Hr).
      apply list_elem_of_filter in Hr as [_ Hr]. intros _. eauto. }
  intros d d' Hlist. by apply ListNamespaces_sorted in Hlist as [? _].
Qed.

(** The theorem on the example of the specification. *)
Lemma report_layout_witness :
  Sorted String.le ["x"; "y"] ∧
  Sorted String.le
    (cli.NAME <$> presentRows ["x"; "y"] [db.Namespace.mk 1 "y" 10 EmptyString;
                                          db.Namespace.mk 2 "z" 20 EmptyString]) ∧
  Sorted String.le
    (cli.NAME <$> orphanedRows ["x"; "y"] [db.Namespace.mk 1 "y" 10 EmptyString;
                                           db.Namespace.mk 2 "z" 20 EmptyString]).
Proof.
  assert (Hlive : Sorted String.le ["x"; "y"]) by (repeat constructor).
  assert (Hpers : Sorted db.Repository.name_le
                    [db.Namespace.mk 1 "y" 10 EmptyString;
                     db.Namespace.mk 2 "z" 20 EmptyString]) by (repeat constructor).
  destruct (report_layout ["x"; "y"] [db.Namespace.mk 1 "y" 10 EmptyString;
                                      db.Namespace.mk 2 "z" 20 EmptyString])
    as (_ & _ & _ & _ & _ & Hpresent & Horphans & _).
  split; [exact Hlive|]. split; [exact (Hpresent Hlive)|exact (Horphans Hpers)].
Defined.

(** ** The restore batch *)

(** The stage of the batch a function of the script belongs to. *)
Definition stage (i : restore.Invocation) : nat :=
  match i with
  | restore.create_namespace_ _ => 1
  | restore.create_bridge_ _ _ => 2
  | restore.create_veth_ _ _ _ _ => 3
  | restore.add_ip_address_ _ _ _ => 4
  | restore.add_route_ _ _ _ _ => 5
  | restore.add_bridge_port_ _ _ _ => 6
  | restore.create_gre_tunnel_ _ _ _ _ _ _ => 7
  end.

Definition stage_le (a b : restore.Invocation) : Prop := (stage a ≤ stage b)%nat.

(** The records of one table the batch replays, in the order of their ids;
    a record whose key field is empty is passed over. *)
Definition replayed {A} (id : A → Z) (key : A → string) (rows : list A) : list A :=
  filter (fun r => key r ≠ EmptyString) (restore.order_by_id id rows).

(** The calls for the records of a table. *)
Definition bridge_calls (d : db.DB) : list restore.Invocation :=
  (fun b => restore.create_bridge_ (db.Bridge.Name b)
              (restore.namespace_name_of d (db.Bridge.NsID b)))
    <$> replayed db.Bridge.ID db.Bridge.Name (db.bridges d).

Definition veth_calls (d : db.DB) : list restore.Invocation :=
  (fun v => restore.create_veth_ (db.VethPair.Name v) (db.VethPair.PeerName v)
              (restore.namespace_name_of d (db.VethPair.NsID v))
              (restore.namespace_name_of d (db.VethPair.PeerNsID v)))
    <$> replayed db.VethPair.ID db.VethPair.Name (db.veth_pairs d).

Definition address_calls (d : db.DB) : list restore.Invocation :=
  (fun a => restore.add_ip_address_ (db.IPAddress.InterfaceName a) (db.IPAddress.Address a)
              (restore.namespace_name_of d (db.IPAddress.NsID a)))
    <$> replayed db.IPAddress.ID db.IPAddress.Address (db.ip_addresses d).

Definition route_calls (d : db.DB) : list restore.Invocation :=
  (fun r => restore.add_route_ (db.Route.Destination r) (db.Route.Gateway r)
              (db.Route.InterfaceName r) (restore.namespace_name_of d (db.Route.NsID r)))
    <$> replayed db.Route.ID db.Route.Destination (db.routes d).

(** A port is added to the bridge its record names, in the namespace of
    that bridge; both are empty when the bridge record is missing. *)
Definition port_calls (d : db.DB) : list restore.Invocation :=
  (fun p => restore.add_bridge_port_
              (from_option db.Bridge.Name EmptyString
                 (restore.bridge_row d (db.BridgePort.BridgeID p)))
              (db.BridgePort.InterfaceName p)
              (restore.namespace_name_of d
                 (restore.bridge_row d (db.BridgePort.BridgeID p) ≫= db.Bridge.NsID)))
    <$> replayed db.BridgePort.ID db.BridgePort.InterfaceName (db.bridge_ports d).

Definition tunnel_calls (d : db.DB) : list restore.Invocation :=
  (fun t => restore.create_gre_tunnel_ (db.GRETunnel.Name t) (db.GRETunnel.LocalIP t)
              (db.GRETunnel.RemoteIP t) (pretty (db.GRETunnel.Key t))
              (pretty (db.GRETunnel.TTL t))
              (restore.namespace_name_of d (db.GRETunnel.NsID t)))
    <$> replayed db.GRETunnel.ID db.GRETunnel.Name (db.gre_tunnels d).

(** The batch as the specification orders it: all namespaces, then all
    bridges, pairs, addresses, routes, bridge ports and tunnels, each table
    in the order of its ids. *)
Definition plan (d : db.DB) : list restore.Invocation :=
  ((fun n => restore.create_namespace_ (db.Namespace.Name n))
     <$> replayed db.Namespace.ID db.Namespace.Name (db.namespaces d)) ++
  bridge_calls d ++ veth_calls d ++ address_calls d ++ route_calls d ++
  port_calls d ++ tunnel_calls d.

(** A name the shell leaves as it is: no character of [IFS] and no pattern
    character. *)
Fixpoint plain (word : string) : bool :=
  match word with
  | EmptyString => true
  | String a word' =>
      negb (restore.IFS a) && negb (restore.is_pattern (String a EmptyString)) && plain word'
  end.

Definition plain_names (d : db.DB) : Prop :=
  Forall (fun n => plain (db.Namespace.Name n) = true) (db.namespaces d).

(** A column [read] returns as it is stored: it holds neither the
    separator [|] nor a newline. *)
Fixpoint column (text : string) : bool :=
  match text with
  | EmptyString => true
  | String a text' =>
      negb (bool_decide (a = "|"%char)) && negb (bool_decide (a = "010"%char)) && column text'
  end.

(** A database whose rows [while IFS='|' read -r] returns column by column,
    and whose names a command substitution returns whole. *)
Definition separable (d : db.DB) : Prop :=
  Forall (fun n => column (db.Namespace.Name n) = true) (db.namespaces d) ∧
  Forall (fun b => column (db.Bridge.Name b) = true) (db.bridges d) ∧
  Forall (fun v => column (db.VethPair.Name v) = true ∧
                   column (db.VethPair.PeerName v) = true) (db.veth_pairs d) ∧
  Forall (fun a => column (db.IPAddress.InterfaceName a) = true ∧
                   column (db.IPAddress.Address a) = true) (db.ip_addresses d) ∧
  Forall (fun r => column (db.Route.Destination r) = true ∧
                   column (db.Route.Gateway r) = true ∧
                   column (db.Route.InterfaceName r) = true) (db.routes d) ∧
  Forall (fun p => column (db.BridgePort.InterfaceName p) = true) (db.bridge_ports d) ∧
  Forall (fun t => column (db.GRETunnel.Name t) = true ∧
                   column (db.GRETunnel.LocalIP t) = true ∧
                   column (db.GRETunnel.RemoteIP t) = true) (db.gre_tunnels d).

(** A line of the run: a banner of [restore_all] or the call of a function
    for a record. *)
Inductive Step : Type :=
| Say (msg : string)
| Call (i : restore.Invocation).

Definition calls (steps : list Step) : list restore.Invocation :=
  omap (fun x => match x with Call i => Some i | Say _ => None end) steps.

Section batch.
Context {K : Type} `{restore.Tools K}.

(** The function a call stands for. *)
Definition call (i : restore.Invocation) : restore.Script K :=
  match i with
  | restore.create_namespace_ namespace_name => restore.create_namespace namespace_name
  | restore.create_bridge_ bridge_name namespace_name =>
      restore.create_bridge bridge_name namespace_name
  | restore.create_veth_ veth_name peer_name namespace_name peer_namespace_name =>
      restore.create_veth veth_name peer_name namespace_name peer_namespace_name
  | restore.add_ip_address_ interface_name ip_address namespace_name =>
      restore.add_ip_address interface_name ip_address namespace_name
  | restore.add_route_ destination gateway interface_name namespace_name =>
      restore.add_route destination gateway interface_name namespace_name
  | restore.add_bridge_port_ bridge_name interface_name namespace_name =>
      restore.add_bridge_port bridge_name interface_name namespace_name
  | restore.create_gre_tunnel_ tunnel_name local_ip remote_ip gre_key ttl namespace_name =>
      restore.create_gre_tunnel tunnel_name local_ip remote_ip gre_key ttl namespace_name
  end.

Definition step (x : Step) : restore.Script K :=
  match x with
  | Say msg => restore.log_info msg
  | Call i => call i
  end.

(** The lines of a list one after the other, up to the first that ends the
    script. *)
Fixpoint replay (steps : list Step) (s : restore.Shell K) : restore.Shell K * restore.status :=
  match steps with
  | [] => (s, restore.Done)
  | x :: steps' =>
      match step x s with
      | (s', restore.Done) => replay steps' s'
      | (s', restore.Exit code) => (s', restore.Exit code)
      end
  end.

(** The calls of the first stage on the host [k]: one for each word the
    loop finds in the names the database prints. *)
Definition namespace_calls (d : db.DB) (k : K) : list restore.Invocation :=
  restore.create_namespace_
    <$> filter (fun name => name ≠ EmptyString)
          (restore.unquoted
             (restore.lines (db.Namespace.Name
                               <$> restore.order_by_id db.Namespace.ID (db.namespaces d))) k).

(** The calls of a run that is not cut short. *)
Definition planned (d : db.DB) (k : K) : list restore.Invocation :=
  namespace_calls d k ++
  bridge_calls d ++ veth_calls d ++ address_calls d ++ route_calls d ++
  port_calls d ++ tunnel_calls d.

(** The lines of [restore_all]. *)
Definition outline (d : db.DB) (k : K) : list Step :=
  [Say restore.banner; Say "Starting network namespace restoration"; Say restore.banner;
   Say "Restoring namespaces..."] ++ (Call <$> namespace_calls d k) ++
  [Say "Restoring bridges..."] ++ (Call <$> bridge_calls d) ++
  [Say "Restoring veth pairs..."] ++ (Call <$> veth_calls d) ++
  [Say "Restoring IP addresses..."] ++ (Call <$> address_calls d) ++
  [Say "Restoring routes..."] ++ (Call <$> route_calls d) ++
  [Say "Restoring bridge ports..."] ++ (Call <$> port_calls d) ++
  [Say "Restoring GRE tunnels..."] ++ (Call <$> tunnel_calls d) ++
  [Say restore.banner; Say "Restoration complete!"; Say restore.banner].

End batch.

Section restore_facts.
Import restore.
Context {K : Type} `{Tools K}.

Lemma seq_congr (a a' b b' : Script K) s :
  a s = a' s → (∀ s', b s' = b' s') → (a ;> b) s = (a' ;> b') s.
Proof. intros Ha Hb. unfold seq. rewrite Ha. by destruct (a' s) as [s' []]. Qed.

Lemma log_written level msg (s : Shell K) :
  tee (host s) = 0 →
  log level msg s = (mkShell (host s) (LOG_FILE s ++ [(level, msg)]) (invoked s), Done).
Proof. intros Htee. unfold log. by rewrite bool_decide_eq_true_2. Qed.

Lemma log_failed level msg (s : Shell K) :
  tee (host s) ≠ 0 → log level msg s = (s, Exit (tee (host s))).
Proof. intros Htee. unfold log. by rewrite bool_decide_eq_false_2. Qed.

(** What follows a banner sees the host the banner saw. *)
Lemma seq_log_congr level msg (b b' : Script K) s :
  (∀ s', host s' = host s → b s' = b' s') → (log level msg ;> b) s = (log level msg ;> b') s.
Proof.
  intros Hb. unfold seq, log. case_bool_decide; [|done]. by apply Hb.
Qed.

Lemma assign_ok sql output (rest : string → Script K) s :
  sqlite3 sql (host s) = 0 → assign sql output rest s = rest output s.
Proof. intros Hsql. unfold assign. by rewrite bool_decide_eq_true_2. Qed.

Lemma assign_failed sql output (rest : string → Script K) s :
  sqlite3 sql (host s) ≠ 0 → assign sql output rest s = (s, Exit (sqlite3 sql (host s))).
Proof. intros Hsql. unfold assign. by rewrite bool_decide_eq_false_2. Qed.

Lemma while_read_ok {A} sql (rows : list A) (body : A → Script K) s :
  sqlite3 sql (host s) = 0 → while_read sql rows body s = for_each body rows s.
Proof. intros Hsql. unfold while_read. by rewrite bool_decide_eq_true_2. Qed.

Lemma while_read_failed {A} sql (rows : list A) (body : A → Script K) s :
  sqlite3 sql (host s) ≠ 0 → while_read sql rows body s = (s, Done).
Proof. intros Hsql. unfold while_read. by rewrite bool_decide_eq_false_2. Qed.

Lemma with_namespace_name_ok d namespace_id (rest : string → Script K) s :
  (∀ sql, sqlite3 sql (host s) = 0) →
  with_namespace_name d namespace_id rest s = rest (namespace_name_of d namespace_id) s.
Proof.
  intros Hsql. destruct namespace_id as [id|]; [|done].
  unfold with_namespace_name. by rewrite assign_ok.
Qed.

Lemma replay_cons x steps (s : Shell K) :
  replay (x :: steps) s = (step x ;> replay steps) s.
Proof. done. Qed.

Lemma replay_app p q (s : Shell K) : replay (p ++ q) s = (replay p ;> replay q) s.
Proof.
  revert s. induction p as [|x p IH]; intros s; [done|].
  cbn [app replay]. unfold seq. cbn [replay].
  destruct (step x s) as [s' [|code]]; [|done]. apply IH.
Qed.

Lemma calls_app p q : calls (p ++ q) = calls p ++ calls q.
Proof. apply omap_app. Qed.

Lemma calls_Call l : calls (Call <$> l) = l.
Proof.
  unfold calls. induction l as [|i l IH]; [done|].
  rewrite fmap_cons. cbn [omap list_omap]. by f_equal.
Qed.

Lemma calls_outline d (k : K) : calls (outline d k) = planned d k.
Proof.
  unfold outline, planned. rewrite !calls_app, !calls_Call.
  unfold calls. cbn [omap list_omap app]. by rewrite app_nil_r.
Qed.

(** A stage: one loop over the rows of a table. *)
Lemma for_each_replay {A} (rows : list A) (key : A → string) (body : A → Script K)
  (f : A → Invocation) s :
  (∀ r s', body r s' = call (f r) s') →
  for_each (fun r => if bool_decide (key r = EmptyString) then skip else body r) rows s =
    replay (Call <$> (f <$> filter (fun r => key r ≠ EmptyString) rows)) s.
Proof.
  intros Hbody. revert s. induction rows as [|r rows IH]; intros s; [done|].
  cbn [for_each foldr]. rewrite filter_cons. case_bool_decide as Hkey.
  - rewrite decide_False by (by intros ?). apply IH.
  - rewrite decide_True by done. rewrite !fmap_cons, replay_cons.
    apply seq_congr; [apply Hbody|apply IH].
Qed.

Section queries_answered.
Hypothesis Hsql : ∀ sql (k : K), sqlite3 sql k = 0.

Lemma restore_namespaces_replay d s :
  restore_namespaces d s = replay (Call <$> namespace_calls d (host s)) s.
Proof.
  unfold restore_namespaces, namespace_calls. rewrite assign_ok by apply Hsql.
  generalize (unquoted (lines (db.Namespace.Name
                                 <$> order_by_id db.Namespace.ID (db.namespaces d))) (host s)).
  intros names. revert s. induction names as [|name names IH]; intros s; [done|].
  cbn [for_each foldr]. rewrite filter_cons. case_bool_decide as Hkey; simpl.
  - rewrite decide_False by (by intros ?). apply IH.
  - rewrite decide_True by done. rewrite !fmap_cons, replay_cons.
    apply seq_congr; [done|apply IH].
Qed.

Lemma restore_bridges_replay d s : restore_bridges d s = replay (Call <$> bridge_calls d) s.
Proof.
  unfold restore_bridges, bridge_calls, replayed. rewrite while_read_ok by apply Hsql.
  apply for_each_replay. intros b s'. by rewrite with_namespace_name_ok.
Qed.

Lemma restore_veth_pairs_replay d s :
  restore_veth_pairs d s = replay (Call <$> veth_calls d) s.
Proof.
  unfold restore_veth_pairs, veth_calls, replayed. rewrite while_read_ok by apply Hsql.
  apply for_each_replay. intros v s'. by rewrite !with_namespace_name_ok.
Qed.

Lemma restore_ip_addresses_replay d s :
  restore_ip_addresses d s = replay (Call <$> address_calls d) s.
Proof.
  unfold restore_ip_addresses, address_calls, replayed. rewrite while_read_ok by apply Hsql.
  apply for_each_replay. intros a s'. by rewrite with_namespace_name_ok.
Qed.

Lemma restore_routes_replay d s : restore_routes d s = replay (Call <$> route_calls d) s.
Proof.
  unfold restore_routes, route_calls, replayed. rewrite while_read_ok by apply Hsql.
  apply for_each_replay. intros r s'. by rewrite with_namespace_name_ok.
Qed.

Lemma restore_bridge_ports_replay d s :
  restore_bridge_ports d s = replay (Call <$> port_calls d) s.
Proof.
  unfold restore_bridge_ports, port_calls, replayed. rewrite while_read_ok by apply Hsql.
  apply for_each_replay. intros p s'. cbv zeta.
  by rewrite !assign_ok, with_namespace_name_ok.
Qed.

Lemma restore_gre_tunnels_replay d s :
  restore_gre_tunnels d s = replay (Call <$> tunnel_calls d) s.
Proof.
  unfold restore_gre_tunnels, tunnel_calls, replayed. rewrite while_read_ok by apply Hsql.
  apply for_each_replay. intros t s'. by rewrite with_namespace_name_ok.
Qed.

(** With its queries answered, the batch is the list of its lines. *)
Lemma restore_all_replay d s : restore_all d s = replay (outline d (host s)) s.
Proof.
  unfold restore_all, outline. cbn [app]. rewrite !replay_cons. cbn [step].
  unfold log_info.
  apply seq_log_congr. intros s1 H1. apply seq_log_congr. intros s2 H2.
  apply seq_log_congr. intros s3 H3. apply seq_log_congr. intros s4 H4.
  assert (Hk : host s4 = host s) by congruence. rewrite <- Hk. clear s s1 s2 s3 H1 H2 H3 H4 Hk.
  rewrite replay_app.
  apply seq_congr; [apply restore_namespaces_replay|]. intros s'. rewrite replay_cons.
  apply seq_congr; [done|]. clear s'. intros s'. rewrite replay_app.
  apply seq_congr; [apply restore_bridges_replay|]. clear s'. intros s'. rewrite replay_cons.
  apply seq_congr; [done|]. clear s'. intros s'. rewrite replay_app.
  apply seq_congr; [apply restore_veth_pairs_replay|]. clear s'. intros s'. rewrite replay_cons.
  apply seq_congr; [done|]. clear s'. intros s'. rewrite replay_app.
  apply seq_congr; [apply restore_ip_addresses_replay|]. clear s'. intros s'.
  rewrite replay_cons.
  apply seq_congr; [done|]. clear s'. intros s'. rewrite replay_app.
  apply seq_congr; [apply restore_routes_replay|]. clear s'. intros s'. rewrite replay_cons.
  apply seq_congr; [done|]. clear s'. intros s'. rewrite replay_app.
  apply seq_congr; [apply restore_bridge_ports_replay|]. clear s'. intros s'.
  rewrite replay_cons.
  apply seq_congr; [done|]. clear s'. intros s'. rewrite replay_app.
  apply seq_congr; [apply restore_gre_tunnels_replay|]. clear s'. intros s'.
  rewrite !replay_cons. cbn [step replay]. unfold log_info.
  apply seq_congr; [done|]. clear s'. intros s'.
  apply seq_congr; [done|]. clear s'. intros s'.
  unfold seq. by destruct (log "INFO" banner s') as [? []].
Qed.

End queries_answered.

End restore_facts.

(** Case analysis on the tests of a function body. *)
Ltac script_cases :=
  let s := fresh "s" in intros s; cbv beta zeta;
  repeat match goal with
         | |- context [if ?b then _ else _] => destruct b
         end.

Section restore_calls.
Import restore.
Context {K : Type} `{Tools K}.

(** [silent c]: [c] calls no function of the script. *)
Definition silent (c : Script K) : Prop :=
  ∀ s, invoked (c s).1 = invoked s.

Lemma silent_pointwise (c : Script K) s : silent c → invoked (c s).1 = invoked s.
Proof. intros Hc. apply Hc. Qed.

Lemma silent_log level msg : silent (log level msg).
Proof. intros s. unfold log. by case_bool_decide. Qed.

Lemma silent_skip : silent skip.
Proof. by intros s. Qed.

Lemma silent_exit code : silent (exit code).
Proof. by intros s. Qed.

Lemma silent_run ns argv : silent (run ns argv).
Proof. intros s. unfold run. by destruct (exec ns argv (host s)). Qed.

Lemma silent_or_else ns argv handler : silent handler → silent (or_else ns argv handler).
Proof.
  intros Hh s. unfold or_else. destruct (exec ns argv (host s)) as [k code].
  case_bool_decide; [done|]. apply (Hh (mkShell k (LOG_FILE s) (invoked s))).
Qed.

Lemma silent_or_else_cmd ns cmd handler : silent handler → silent (or_else_cmd ns cmd handler).
Proof. intros Hh s. unfold or_else_cmd. by apply silent_or_else. Qed.

Lemma silent_seq a b : silent a → silent b → silent (a ;> b).
Proof.
  intros Ha Hb s. unfold seq. specialize (Ha s).
  destruct (a s) as [s' []]; simpl in *; [|done]. by rewrite Hb.
Qed.

End restore_calls.

Ltac silent_steps :=
  repeat first [ apply silent_seq | apply silent_run | apply silent_log | apply silent_skip
               | apply silent_or_else_cmd | apply silent_or_else ].

Section restore_order.
Import restore.
Context {K : Type} `{Tools K}.

Lemma enter_invoked i (body : Script K) s :
  silent body → invoked ((enter i ;> body) s).1 = invoked s ++ [i].
Proof. intros Hbody. unfold seq, enter. by rewrite Hbody. Qed.

(** Every function registers its call, once. *)
Lemma call_invoked i (s : Shell K) : invoked (call i s).1 = invoked s ++ [i].
Proof.
  destruct i; simpl.
  - apply enter_invoked. script_cases; apply silent_pointwise; silent_steps.
  - apply enter_invoked. script_cases; apply silent_pointwise; silent_steps.
  - apply enter_invoked. script_cases; apply silent_pointwise; silent_steps.
  - apply enter_invoked. script_cases; apply silent_pointwise; silent_steps.
  - apply enter_invoked. silent_steps.
  - apply enter_invoked. unfold or_true. silent_steps.
  - apply enter_invoked. script_cases; apply silent_pointwise; unfold or_true_cmd, or_true;
      silent_steps.
Qed.

(** [within P c]: the calls [c] makes all satisfy [P]. *)
Definition within (P : Invocation → Prop) (c : Script K) : Prop :=
  ∀ s, ∃ t, invoked (c s).1 = invoked s ++ t ∧ Forall P t.

Lemma within_silent P c : silent c → within P c.
Proof. intros Hc s. exists []. by rewrite Hc, app_nil_r. Qed.

Lemma within_call (P : Invocation → Prop) i : P i → within P (call i).
Proof. intros Hi s. exists [i]. split; [apply call_invoked|by constructor]. Qed.

Lemma within_seq P a b : within P a → within P b → within P (a ;> b).
Proof.
  intros Ha Hb s. unfold seq. destruct (Ha s) as (ta & Hia & Hta).
  destruct (a s) as [s' [|code]]; simpl in *; [|by exists ta].
  destruct (Hb s') as (tb & Hib & Htb). exists (ta ++ tb).
  rewrite Hib, Hia, app_assoc. split; [done|]. by apply Forall_app.
Qed.

Lemma within_for_each {A} P (body : A → Script K) rows :
  (∀ row, within P (body row)) → within P (for_each body rows).
Proof.
  intros Hbody. induction rows as [|row rows IH]; simpl.
  - apply within_silent, silent_skip.
  - by apply within_seq.
Qed.

Lemma within_assign P sql output (rest : string → Script K) :
  (∀ out, within P (rest out)) → within P (assign sql output rest).
Proof.
  intros Hrest s. unfold assign. case_bool_decide; [apply Hrest|].
  exists []. by rewrite app_nil_r.
Qed.

Lemma within_while_read {A} P sql (rows : list A) (body : A → Script K) :
  (∀ row, within P (body row)) → within P (while_read sql rows body).
Proof. intros Hbody s. unfold while_read. by apply within_for_each. Qed.

Lemma within_with_namespace_name P d namespace_id (rest : string → Script K) :
  (∀ name, within P (rest name)) → within P (with_namespace_name d namespace_id rest).
Proof.
  intros Hrest. destruct namespace_id; simpl; [by apply within_assign|apply Hrest].
Qed.

Lemma within_keyed P (key : string) (body : Script K) :
  within P body → within P (if bool_decide (key = EmptyString) then skip else body).
Proof. intros Hbody. case_bool_decide; [apply within_silent, silent_skip|done]. Qed.

Lemma within_restore_namespaces d :
  within (fun i => stage i = 1%nat) (restore_namespaces d).
Proof.
  unfold restore_namespaces. apply within_assign. intros names s.
  apply within_for_each. intros name. destruct (negb _).
  - by apply (within_call _ (create_namespace_ name)).
  - apply within_silent, silent_skip.
Qed.

Lemma within_restore_bridges d : within (fun i => stage i = 2%nat) (restore_bridges d).
Proof.
  apply within_while_read. intros b. apply within_keyed, within_with_namespace_name.
  intros name. by apply (within_call _ (create_bridge_ _ _)).
Qed.

Lemma within_restore_veth_pairs d : within (fun i => stage i = 3%nat) (restore_veth_pairs d).
Proof.
  apply within_while_read. intros v. apply within_keyed, within_with_namespace_name.
  intros name. apply within_with_namespace_name.
  intros peer. by apply (within_call _ (create_veth_ _ _ _ _)).
Qed.

Lemma within_restore_ip_addresses d :
  within (fun i => stage i = 4%nat) (restore_ip_addresses d).
Proof.
  apply within_while_read. intros a. apply within_keyed, within_with_namespace_name.
  intros name. by apply (within_call _ (add_ip_address_ _ _ _)).
Qed.

Lemma within_restore_routes d : within (fun i => stage i = 5%nat) (restore_routes d).
Proof.
  apply within_while_read. intros r. apply within_keyed, within_with_namespace_name.
  intros name. by apply (within_call _ (add_route_ _ _ _ _)).
Qed.

Lemma within_restore_bridge_ports d :
  within (fun i => stage i = 6%nat) (restore_bridge_ports d).
Proof.
  apply within_while_read. intros p. apply within_keyed. cbv zeta.
  apply within_assign. intros bridge_name. apply within_assign. intros _.
  apply within_with_namespace_name.
  intros name. by apply (within_call _ (add_bridge_port_ _ _ _)).
Qed.

Lemma within_restore_gre_tunnels d :
  within (fun i => stage i = 7%nat) (restore_gre_tunnels d).
Proof.
  apply within_while_read. intros t. apply within_keyed, within_with_namespace_name.
  intros name. by apply (within_call _ (create_gre_tunnel_ _ _ _ _ _ _)).
Qed.

(** [ordered lo c]: the calls [c] makes never go back to an earlier stage,
    and none is of a stage before [lo]. *)
Definition ordered (lo : nat) (c : Script K) : Prop :=
  ∀ s, ∃ t, invoked (c s).1 = invoked s ++ t ∧ StronglySorted stage_le t ∧
            Forall (fun i => (lo ≤ stage i)%nat) t.

Lemma stage_le_segment (n : nat) (l rest : list Invocation) :
  Forall (fun i => stage i = n) l →
  StronglySorted stage_le rest → Forall (fun i => (n ≤ stage i)%nat) rest →
  StronglySorted stage_le (l ++ rest) ∧ Forall (fun i => (n ≤ stage i)%nat) (l ++ rest).
Proof.
  intros Hl Hrest Hlow. rewrite list.Forall_forall in Hl. rewrite list.Forall_forall in Hlow.
  split.
  - apply StronglySorted_app. split_and!; [| |done].
    + intros x y Hx Hy. unfold stage_le. rewrite (Hl x Hx). by apply Hlow.
    + clear Hrest Hlow. induction l as [|x l IH]; constructor.
      * apply IH. intros y Hy. apply Hl. by right.
      * apply list.Forall_forall. intros y Hy. unfold stage_le.
        rewrite (Hl x), (Hl y); [done|by right|by left].
  - apply list.Forall_forall. intros x [Hx|Hx]%elem_of_app.
    + by rewrite (Hl x Hx).
    + by apply Hlow.
Qed.

Lemma ordered_within n c : within (fun i => stage i = n) c → ordered n c.
Proof.
  intros Hc s. destruct (Hc s) as (t & Hi & Ht). exists t. split; [done|].
  destruct (stage_le_segment n t [] Ht) as [Hs Hl]; [constructor|constructor|].
  by rewrite app_nil_r in Hs, Hl.
Qed.

Lemma ordered_seq n m a b :
  within (fun i => stage i = n) a → ordered m b → (n ≤ m)%nat → ordered n (a ;> b).
Proof.
  intros Ha Hb Hnm s. unfold seq. destruct (Ha s) as (ta & Hia & Hta).
  destruct (a s) as [s' [|code]]; simpl in *.
  - destruct (Hb s') as (tb & Hib & Hsb & Hlb). exists (ta ++ tb).
    rewrite Hib, Hia, app_assoc. split; [done|].
    apply stage_le_segment; [done|done|].
    eapply Forall_impl; [exact Hlb|]. simpl. intros. lia.
  - exists ta. split; [done|].
    destruct (stage_le_segment n ta [] Hta) as [Hs Hl]; [constructor|constructor|].
    by rewrite app_nil_r in Hs, Hl.
Qed.

(** Whatever fails, the batch never goes back to an earlier stage. *)
Lemma restore_all_ordered d : ordered 1 (restore_all d).
Proof.
  unfold restore_all.
  do 4 (apply (ordered_seq 1 1); [apply within_silent, silent_log| |done]).
  apply (ordered_seq 1 2); [apply within_restore_namespaces| |lia].
  apply (ordered_seq 2 2); [apply within_silent, silent_log| |done].
  apply (ordered_seq 2 3); [apply within_restore_bridges| |lia].
  apply (ordered_seq 3 3); [apply within_silent, silent_log| |done].
  apply (ordered_seq 3 4); [apply within_restore_veth_pairs| |lia].
  apply (ordered_seq 4 4); [apply within_silent, silent_log| |done].
  apply (ordered_seq 4 5); [apply within_restore_ip_addresses| |lia].
  apply (ordered_seq 5 5); [apply within_silent, silent_log| |done].
  apply (ordered_seq 5 6); [apply within_restore_routes| |lia].
  apply (ordered_seq 6 6); [apply within_silent, silent_log| |done].
  apply (ordered_seq 6 7); [apply within_restore_bridge_ports| |lia].
  apply (ordered_seq 7 7); [apply within_silent, silent_log| |done].
  apply ordered_within.
  apply within_seq; [apply within_restore_gre_tunnels|].
  apply within_silent. unfold log_info. silent_steps.
Qed.

End restore_order.

Lemma StronglySorted_lookup_lt {A} (R : relation A) (l : list A) (i j : nat) (a b : A) :
  StronglySorted R l → l !! i = Some a → l !! j = Some b → (i < j)%nat → R a b.
Proof.
  intros Hl. revert i j. induction Hl as [|x l Hl IH Hx]; intros i j Hi Hj Hlt.
  - by rewrite lookup_nil in Hi.
  - destruct j as [|j]; [lia|]. simpl in Hj. destruct i as [|i].
    + simpl in Hi. injection Hi as ->. rewrite list.Forall_forall in Hx.
      apply Hx. by eapply list_elem_of_lookup_2.
    + simpl in Hi. apply (IH i j); [done|done|lia].
Qed.

Lemma sorted_stages_in_order (t : list restore.Invocation) :
  StronglySorted stage_le t →
  ∀ i j a b, t !! i = Some a → t !! j = Some b → (stage a < stage b)%nat → (i < j)%nat.
Proof.
  intros Hsorted i j a b Ha Hb Hlt. destruct (decide (i < j)%nat) as [|Hge]; [done|].
  destruct (decide (i = j)) as [->|Hne].
  - rewrite Ha in Hb. injection Hb as ->. lia.
  - assert (stage_le b a) as Hle
      by (apply (StronglySorted_lookup_lt stage_le t j i); [done|done|done|lia]).
    unfold stage_le in Hle. lia.
Qed.

Section restore_exits.
Import restore.
Context {K : Type} `{Tools K}.

(** [mute c]: [c] writes nothing to the log. *)
Definition mute (c : Script K) : Prop :=
  ∀ s, LOG_FILE (c s).1 = LOG_FILE s.

Lemma mute_run ns argv : mute (run ns argv).
Proof. intros s. unfold run. by destruct (exec ns argv (host s)). Qed.

Lemma mute_skip : mute skip.
Proof. by intros s. Qed.

Lemma mute_enter i : mute (enter i).
Proof. by intros s. Qed.

(** [stops c]: when [c] ends the script, a command has answered the exit
    status, which is not 0, and [c] has logged nothing. *)
Definition stops (c : Script K) : Prop :=
  ∀ s code, (c s).2 = Exit code →
    code ≠ 0 ∧ LOG_FILE (c s).1 = LOG_FILE s ∧
    ∃ ns argv k, exec ns argv k = (host (c s).1, code).

(** [returns c]: [c] never ends the script. *)
Definition returns (c : Script K) : Prop :=
  ∀ s, (c s).2 = Done.

Lemma returns_pointwise (c : Script K) s : returns c → (c s).2 = Done.
Proof. intros Hc. apply Hc. Qed.

Lemma stops_pointwise (c : Script K) s code :
  stops c → (c s).2 = Exit code →
  code ≠ 0 ∧ LOG_FILE (c s).1 = LOG_FILE s ∧ ∃ ns argv k, exec ns argv k = (host (c s).1, code).
Proof. intros Hc. apply Hc. Qed.

Lemma stops_returns c : returns c → stops c.
Proof. intros Hc s code Hexit. by rewrite Hc in Hexit. Qed.

Lemma stops_run ns argv : stops (run ns argv).
Proof.
  intros s code. unfold run. destruct (exec ns argv (host s)) as [k c] eqn:Hexec. simpl.
  case_bool_decide as Hc; [done|]. intros [= <-]. split; [done|]. split; [done|].
  by exists ns, argv, (host s).
Qed.

Lemma stops_seq a b : mute a → stops a → stops b → stops (a ;> b).
Proof.
  intros Hm Ha Hb s code. unfold seq. specialize (Hm s). specialize (Ha s).
  destruct (a s) as [s' [|c]]; simpl in *.
  - intros Hexit. destruct (Hb s' code Hexit) as (Hc & Hlog & Hcmd).
    split; [done|]. split; [congruence|done].
  - intros [= <-]. by apply Ha.
Qed.

Lemma returns_skip : returns skip.
Proof. by intros s. Qed.

Lemma returns_enter i : returns (enter i).
Proof. by intros s. Qed.

Lemma returns_seq a b : returns a → returns b → returns (a ;> b).
Proof.
  intros Ha Hb s. unfold seq. specialize (Ha s).
  destruct (a s) as [s' st]. simpl in *. subst st. apply Hb.
Qed.

Lemma returns_or_else ns argv handler : returns handler → returns (or_else ns argv handler).
Proof.
  intros Hh s. unfold or_else. destruct (exec ns argv (host s)) as [k code].
  case_bool_decide; [done|]. apply (Hh (mkShell k (LOG_FILE s) (invoked s))).
Qed.

Lemma returns_or_else_cmd ns cmd handler :
  returns handler → returns (or_else_cmd ns cmd handler).
Proof. intros Hh s. unfold or_else_cmd. by apply returns_or_else. Qed.

Section log_written.
Hypothesis Htee : ∀ k : K, tee k = 0.

Lemma returns_log level msg : returns (log level msg).
Proof. intros s. by rewrite log_written. Qed.

(** The functions of the last four stages never end the script. *)
Lemma call_late i (s : Shell K) : (4 ≤ stage i)%nat → (call i s).2 = Done.
Proof.
  destruct i; simpl; try lia; intros _.
  - apply returns_pointwise, returns_seq; [apply returns_enter|].
    script_cases; apply returns_pointwise; unfold or_true_cmd, or_true;
      repeat first [ apply returns_seq | apply returns_or_else_cmd | apply returns_or_else
                   | apply returns_log | apply returns_skip ].
  - apply returns_pointwise.
    repeat first [ apply returns_seq | apply returns_or_else_cmd | apply returns_enter
                 | apply returns_log ].
  - apply returns_pointwise. unfold or_true.
    repeat first [ apply returns_seq | apply returns_or_else | apply returns_enter
                 | apply returns_log | apply returns_skip ].
  - apply returns_pointwise, returns_seq; [apply returns_enter|].
    script_cases; apply returns_pointwise; unfold or_true_cmd, or_true;
      repeat first [ apply returns_seq | apply returns_or_else_cmd | apply returns_or_else
                   | apply returns_log | apply returns_skip ].
Qed.

(** A function of the first three stages ends the script only with the
    status of a command of its own that failed, and then logs nothing. *)
Lemma call_early_stops i : (stage i ≤ 3)%nat → stops (call i).
Proof.
  destruct i; simpl; try lia; intros _.
  - apply stops_seq; [apply mute_enter|apply stops_returns, returns_enter|].
    script_cases; intros code; apply stops_pointwise.
    + apply stops_returns, returns_log.
    + repeat first [ apply stops_seq | apply mute_run | apply stops_run
                   | apply stops_returns, returns_log ].
  - apply stops_seq; [apply mute_enter|apply stops_returns, returns_enter|].
    script_cases; intros code; apply stops_pointwise;
      repeat first [ apply stops_seq | apply mute_run | apply stops_run
                   | apply stops_returns, returns_log ].
  - apply stops_seq; [apply mute_enter|apply stops_returns, returns_enter|].
    script_cases; intros code; apply stops_pointwise;
      repeat first [ apply stops_seq | apply mute_run | apply stops_run
                   | apply mute_skip | apply stops_returns, returns_skip
                   | apply stops_returns, returns_log ].
Qed.

Lemma call_exit i (s : Shell K) code :
  (call i s).2 = Exit code →
  code ≠ 0 ∧ (stage i ≤ 3)%nat ∧ LOG_FILE (call i s).1 = LOG_FILE s ∧
  ∃ ns argv k, exec ns argv k = (host (call i s).1, code).
Proof.
  intros Hexit. destruct (decide (stage i ≤ 3)%nat) as [Hi|Hi].
  - destruct (call_early_stops i Hi s code Hexit) as (Hc & Hlog & Hcmd). done.
  - rewrite call_late in Hexit by lia. done.
Qed.

(** What a list of lines calls, and where it can be cut short. *)
Lemma replay_spec steps (s : Shell K) :
  ∃ t, invoked (replay steps s).1 = invoked s ++ t ∧
       t `prefix_of` calls steps ∧
       ((replay steps s).2 = Done → t = calls steps) ∧
       (∀ code, (replay steps s).2 = Exit code →
          ∃ t0 i s0, t = t0 ++ [i] ∧ invoked s0 = invoked s ++ t0 ∧
                     call i s0 = ((replay steps s).1, Exit code)).
Proof.
  revert s. induction steps as [|[msg|i] steps IH]; intros s.
  - exists []. rewrite app_nil_r. by repeat split.
  - cbn [replay step]. unfold log_info. rewrite log_written by apply Htee.
    destruct (IH (mkShell (host s) (LOG_FILE s ++ [("INFO", msg)]) (invoked s)))
      as (t & Hi & Hp & Hd & Hx).
    exists t. done.
  - cbn [replay step]. pose proof (call_invoked i s) as Hcall.
    destruct (call i s) as [s' [|code]] eqn:Hstep; simpl in Hcall.
    + destruct (IH s') as (t & Hi & Hp & Hd & Hx). exists (i :: t).
      rewrite Hi, Hcall, <- app_assoc. split; [done|].
      split; [by apply prefix_cons|]. split; [by intros ->%Hd|].
      intros code (t0 & j & s0 & -> & Hs0 & Hj)%Hx. exists (i :: t0), j, s0.
      split; [done|]. split; [|done]. by rewrite Hs0, Hcall, <- app_assoc.
    + exists [i]. split; [done|]. split; [apply prefix_cons, prefix_nil|].
      split; [done|]. intros c [= <-]. exists [], i, s.
      by rewrite app_nil_r.
Qed.

End log_written.

End restore_exits.

(** *** Names the shell leaves as they are *)

Lemma string_app_assoc (a b c : string) : (a +:+ b) +:+ c = a +:+ (b +:+ c).
Proof.
  induction a as [|x a IH]; [done|].
  change (String x ((a +:+ b) +:+ c) = String x (a +:+ (b +:+ c))). by rewrite IH.
Qed.

Lemma string_app_nil_r (a : string) : a +:+ EmptyString = a.
Proof.
  induction a as [|x a IH]; [done|].
  change (String x (a +:+ EmptyString) = String x a). by rewrite IH.
Qed.

Lemma plain_cons a word :
  plain (String a word) = true →
  restore.IFS a = false ∧ restore.is_pattern (String a EmptyString) = false ∧
  plain word = true.
Proof.
  cbn [plain]. intros [[Hifs Hpat]%andb_prop Hword]%andb_prop.
  apply negb_true_iff in Hifs. apply negb_true_iff in Hpat. done.
Qed.

Lemma plain_is_pattern word : plain word = true → restore.is_pattern word = false.
Proof.
  induction word as [|a word IH]; [done|].
  intros (_ & Hpat & Hword)%plain_cons. cbn [restore.is_pattern] in *.
  rewrite orb_false_r in Hpat. by rewrite Hpat, IH.
Qed.

Lemma fields_go_word field word rest :
  plain word = true →
  restore.fields_go field (word +:+ String "010" rest) =
    restore.close_field (field +:+ word) ++ restore.fields_go EmptyString rest.
Proof.
  revert field. induction word as [|a word IH]; intros field Hword.
  - by rewrite string_app_nil_r.
  - apply plain_cons in Hword as (Hifs & _ & Hword).
    change (String a word +:+ String "010" rest)
      with (String a (word +:+ String "010" rest)).
    cbn [restore.fields_go]. rewrite Hifs, (IH _ Hword).
    by rewrite string_app_assoc.
Qed.

Lemma fields_lines (names : list string) :
  Forall (fun name => plain name = true) names →
  restore.fields (restore.lines names) = filter (fun name => name ≠ EmptyString) names.
Proof.
  unfold restore.fields. induction 1 as [|name names Hname Hnames IH]; [done|].
  cbn [restore.lines foldr]. rewrite fields_go_word by done.
  fold (restore.lines names). rewrite IH, filter_cons.
  change (EmptyString +:+ name) with name.
  destruct name; [by rewrite decide_False by (by intros ?)|by rewrite decide_True].
Qed.

Lemma unquoted_lines {K : Type} `{restore.Tools K} (names : list string) (k : K) :
  Forall (fun name => plain name = true) names →
  restore.unquoted (restore.lines names) k = filter (fun name => name ≠ EmptyString) names.
Proof.
  intros Hnames. unfold restore.unquoted. rewrite fields_lines by done.
  induction Hnames as [|name names Hname Hnames IH]; [done|].
  rewrite filter_cons. case_decide; [|done].
  rewrite fmap_cons. cbn [concat]. by rewrite plain_is_pattern, IH.
Qed.

Lemma filter_fmap_key {A} (key : A → string) (rows : list A) :
  filter (fun name => name ≠ EmptyString) (key <$> rows) =
    key <$> filter (fun r => key r ≠ EmptyString) rows.
Proof.
  induction rows as [|r rows IH]; [done|].
  rewrite fmap_cons, !filter_cons. case_decide; [|done]. by rewrite fmap_cons, IH.
Qed.

(** With plain names, the calls of a full run are the plan. *)
Lemma planned_plain {K : Type} `{restore.Tools K} (d : db.DB) (k : K) :
  plain_names d → planned d k = plan d.
Proof.
  intros Hplain. unfold planned, plan, namespace_calls, replayed. f_equal.
  assert (Hsorted : Forall (fun name => plain name = true)
                      (db.Namespace.Name
                         <$> restore.order_by_id db.Namespace.ID (db.namespaces d))).
  { apply Forall_fmap. unfold restore.order_by_id.
    rewrite merge_sort_Permutation. exact Hplain. }
  rewrite unquoted_lines by done.
  rewrite list_filter_filter.
  rewrite (list_filter_iff _ (fun name : string => name ≠ EmptyString)) by (intros ?; tauto).
  by rewrite filter_fmap_key, <- list_fmap_compose.
Qed.

(** A record of every kind. *)
Definition one_of_each : db.DB :=
  db.mkDB [db.Namespace.mk 1 "ns1" 100 EmptyString]
          [db.VethPair.mk 1 "v0" "v1" None (Some 1) 101]
          [db.IPAddress.mk 1 "v0" None "10.0.0.1/24" 102]
          [db.Route.mk 1 None "10.1.0.0/16" EmptyString "v0" 103]
          [db.Bridge.mk 1 "br0" (Some 1) 104]
          [db.BridgePort.mk 1 1 "v1" 105]
          [db.GRETunnel.mk 1 "gre1" "10.0.0.1" "10.0.0.2" 0 64 None 106] ∅ 200 [].

(** The shell of a first run, on the reference host after boot. *)
Definition first_run : restore.Shell RefKernel.t := restore.mkShell RefKernel.boot [] [].

(** One namespace with a blank in its name. *)
Definition blank_in_name : db.DB :=
  db.mkDB [db.Namespace.mk 1 "a b" 100 EmptyString] [] [] [] [] [] [] ∅ 200 [].

(** [for name in $namespaces] splits the names the database prints into
    words: the record of the namespace [a b] is replayed as the two
    namespaces [a] and [b]. *)
Lemma separable_one_of_each : separable one_of_each.
Proof.
  unfold separable.
  split_and!; repeat (apply Forall_cons_2; [by vm_compute|]); apply Forall_nil_2.
Qed.

Lemma name_with_blank_is_split :
  plan blank_in_name = [restore.create_namespace_ "a b"] ∧
  planned blank_in_name RefKernel.boot =
    [restore.create_namespace_ "a"; restore.create_namespace_ "b"] ∧
  restore.invoked (restore.restore_all blank_in_name first_run).1 =
    [restore.create_namespace_ "a"; restore.create_namespace_ "b"] ∧
  (restore.restore_all blank_in_name first_run).2 = restore.Done.
Proof. split_and!; by vm_compute. Qed.

(** C6.  A run of the batch calls the functions of the script stage by
    stage: the namespaces first, then the bridges, the pairs, the
    addresses, the routes, the bridge ports and the tunnels.  Whatever
    fails, a call of an earlier stage comes before every call of a later
    stage.  When the queries of the database are answered, and no column
    holds [|] or a newline, the run is the list of the lines of
    [restore_all]: the banners and, between them, the
    calls for the records of each table in the order of their ids, up to
    the first call that ends the script.  When the log can be written as
    well, the calls of the run are a prefix of that list, all of it when
    the run returns; the run is cut short only inside a call of the first
    three stages, by the status of a command that failed, so when every
    command succeeds the run returns.  For names without blanks and pattern
    characters the list is the plan of the specification. *)
Theorem restore_all_stage_order {K : Type} `{restore.Tools K}
  (d : db.DB) (s : restore.Shell K) :
  (∃ t,
     restore.invoked (restore.restore_all d s).1 = restore.invoked s ++ t ∧
     StronglySorted stage_le t ∧
     (∀ i j a b, t !! i = Some a → t !! j = Some b →
                 (stage a < stage b)%nat → (i < j)%nat)) ∧
  (separable d → (∀ sql (k : K), restore.sqlite3 sql k = 0) →
   restore.restore_all d s = replay (outline d (restore.host s)) s) ∧
  (separable d → (∀ sql (k : K), restore.sqlite3 sql k = 0) → (∀ k : K, restore.tee k = 0) →
   ∃ t,
     restore.invoked (restore.restore_all d s).1 = restore.invoked s ++ t ∧
     t `prefix_of` planned d (restore.host s) ∧
     ((restore.restore_all d s).2 = restore.Done → t = planned d (restore.host s)) ∧
     (∀ code, (restore.restore_all d s).2 = restore.Exit code →
        code ≠ 0 ∧
        ∃ t0 i ns argv (k : K),
          t = t0 ++ [i] ∧ (stage i ≤ 3)%nat ∧ (restore.exec ns argv k).2 = code) ∧
     ((∀ ns argv (k : K), (restore.exec ns argv k).2 = 0) →
      (restore.restore_all d s).2 = restore.Done ∧ t = planned d (restore.host s))) ∧
  (plain_names d → planned d (restore.host s) = plan d).
Proof.
  split_and!.
  - destruct (restore_all_ordered d s) as (t & Hi & Hsorted & _).
    exists t. split; [done|]. split; [done|]. by apply sorted_stages_in_order.
  - intros _ Hsql. by apply restore_all_replay.
  - intros _ Hsql Htee. rewrite (restore_all_replay Hsql).
    destruct (replay_spec Htee (outline d (restore.host s)) s) as (t & Hi & Hp & Hd & Hx).
    rewrite calls_outline in Hp, Hd. exists t.
    split; [done|]. split; [done|]. split; [done|].
    assert (Hexit : ∀ code, (replay (outline d (restore.host s)) s).2 = restore.Exit code →
              code ≠ 0 ∧
              ∃ t0 i ns argv (k : K),
                t = t0 ++ [i] ∧ (stage i ≤ 3)%nat ∧ (restore.exec ns argv k).2 = code).
    { intros code (t0 & i & s0 & -> & Hs0 & Hcall)%Hx.
      destruct (call_exit Htee i s0 code) as (Hcode & Hstage & _ & ns & argv & k & Hcmd).
      { by rewrite Hcall. }
      split; [done|]. exists t0, i, ns, argv, k. by rewrite Hcmd. }
    split; [done|]. intros Hexec.
    destruct (replay (outline d (restore.host s)) s).2 as [|code] eqn:Hst; [by split; [|apply Hd]|].
    destruct (Hexit code eq_refl) as (Hcode & t0 & i & ns & argv & k & _ & _ & Hcmd).
    by rewrite Hexec in Hcmd.
  - apply planned_plain.
Qed.

(** The theorem on the reference host, for a record of every kind. *)
Lemma restore_all_stage_order_witness :
  separable one_of_each ∧ plain_names one_of_each ∧
  restore.restore_all one_of_each first_run =
    replay (outline one_of_each (restore.host first_run)) first_run ∧
  planned one_of_each (restore.host first_run) = plan one_of_each.
Proof.
  assert (Hplain : plain_names one_of_each) by (repeat constructor).
  destruct (restore_all_stage_order one_of_each first_run) as (_ & Hreplay & _ & Hplan).
  split; [exact separable_one_of_each|]. split; [exact Hplain|].
  split; [exact (Hreplay separable_one_of_each (fun _ _ => eq_refl))|exact (Hplan Hplain)].
Defined.

(** *** What the functions of the script return *)

Section restore_results.
Import restore.
Context {K : Type} `{Tools K}.

Lemma create_namespace_found namespace_name (s : Shell K) :
  netns_list_grep namespace_name (host s) = true → tee (host s) = 0 →
  create_namespace namespace_name s =
    (mkShell (host s)
       (LOG_FILE s ++
          [("WARN", "Namespace '" +:+ namespace_name +:+ "' already exists, skipping")])
       (invoked s ++ [create_namespace_ namespace_name]),
     Done).
Proof.
  intros Hfound Htee. unfold create_namespace, seq, enter. simpl.
  rewrite Hfound. unfold log_warn. by rewrite log_written.
Qed.

Lemma create_namespace_add_failed namespace_name (s : Shell K) k code :
  netns_list_grep namespace_name (host s) = false →
  exec EmptyString ["ip"; "netns"; "add"; namespace_name] (host s) = (k, code) → code ≠ 0 →
  create_namespace namespace_name s =
    (mkShell k (LOG_FILE s) (invoked s ++ [create_namespace_ namespace_name]), Exit code).
Proof.
  intros Hprobe Hadd Hcode. unfold create_namespace, seq, enter, run. simpl.
  rewrite Hprobe, Hadd. simpl. by rewrite bool_decide_eq_false_2.
Qed.

Lemma create_namespace_up_failed namespace_name (s : Shell K) k1 k code :
  netns_list_grep namespace_name (host s) = false →
  exec EmptyString ["ip"; "netns"; "add"; namespace_name] (host s) = (k1, 0) →
  exec namespace_name ["ip"; "link"; "set"; "lo"; "up"] k1 = (k, code) → code ≠ 0 →
  create_namespace namespace_name s =
    (mkShell k (LOG_FILE s) (invoked s ++ [create_namespace_ namespace_name]), Exit code).
Proof.
  intros Hprobe Hadd Hup Hcode. unfold create_namespace, seq, enter, run. simpl.
  rewrite Hprobe, Hadd. simpl. rewrite Hup. simpl. by rewrite bool_decide_eq_false_2.
Qed.

Lemma create_bridge_found bridge_name namespace_name (s : Shell K) :
  link_show (where_ namespace_name) bridge_name (host s) = true → tee (host s) = 0 →
  create_bridge bridge_name namespace_name s =
    (mkShell (host s)
       (LOG_FILE s ++
          [("WARN",
            if given namespace_name
            then "Bridge '" +:+ bridge_name +:+ "' already exists in " +:+
                 namespace_name +:+ ", skipping"
            else "Bridge '" +:+ bridge_name +:+ "' already exists, skipping")])
       (invoked s ++ [create_bridge_ bridge_name namespace_name]),
     Done).
Proof.
  intros Hfound Htee. unfold create_bridge, seq, enter, where_ in *. simpl.
  destruct (given namespace_name); rewrite Hfound; unfold log_warn; by rewrite log_written.
Qed.

Lemma create_bridge_add_failed bridge_name namespace_name (s : Shell K) k code :
  link_show (where_ namespace_name) bridge_name (host s) = false →
  exec (where_ namespace_name) ["ip"; "link"; "add"; bridge_name; "type"; "bridge"] (host s)
    = (k, code) →
  code ≠ 0 →
  create_bridge bridge_name namespace_name s =
    (mkShell k (LOG_FILE s) (invoked s ++ [create_bridge_ bridge_name namespace_name]),
     Exit code).
Proof.
  intros Hprobe Hadd Hcode. unfold create_bridge, seq, enter, run, where_ in *. simpl.
  destruct (given namespace_name); rewrite Hprobe, Hadd; simpl;
    by rewrite bool_decide_eq_false_2.
Qed.

Lemma create_bridge_up_failed bridge_name namespace_name (s : Shell K) k1 k code :
  link_show (where_ namespace_name) bridge_name (host s) = false →
  exec (where_ namespace_name) ["ip"; "link"; "add"; bridge_name; "type"; "bridge"] (host s)
    = (k1, 0) →
  exec (where_ namespace_name) ["ip"; "link"; "set"; bridge_name; "up"] k1 = (k, code) →
  code ≠ 0 →
  create_bridge bridge_name namespace_name s =
    (mkShell k (LOG_FILE s) (invoked s ++ [create_bridge_ bridge_name namespace_name]),
     Exit code).
Proof.
  intros Hprobe Hadd Hup Hcode. unfold create_bridge, seq, enter, run, where_ in *. simpl.
  destruct (given namespace_name); rewrite Hprobe, Hadd; simpl; rewrite Hup; simpl;
    by rewrite bool_decide_eq_false_2.
Qed.

Lemma create_veth_found veth_name peer_name namespace_name peer_namespace_name (s : Shell K) :
  link_show EmptyString veth_name (host s) = true → tee (host s) = 0 →
  create_veth veth_name peer_name namespace_name peer_namespace_name s =
    (mkShell (host s)
       (LOG_FILE s ++ [("WARN", "Veth '" +:+ veth_name +:+ "' already exists, skipping")])
       (invoked s ++
          [create_veth_ veth_name peer_name namespace_name peer_namespace_name]),
     Done).
Proof.
  intros Hfound Htee. unfold create_veth, seq, enter. simpl.
  rewrite Hfound. unfold log_warn. by rewrite log_written.
Qed.

Lemma create_veth_add_failed veth_name peer_name namespace_name peer_namespace_name
  (s : Shell K) k code :
  link_show EmptyString veth_name (host s) = false →
  exec EmptyString ["ip"; "link"; "add"; veth_name; "type"; "veth"; "peer"; "name"; peer_name]
       (host s) = (k, code) →
  code ≠ 0 →
  create_veth veth_name peer_name namespace_name peer_namespace_name s =
    (mkShell k (LOG_FILE s)
       (invoked s ++ [create_veth_ veth_name peer_name namespace_name peer_namespace_name]),
     Exit code).
Proof.
  intros Hprobe Hadd Hcode. unfold create_veth, seq, enter, run. simpl.
  rewrite Hprobe, Hadd. simpl. by rewrite bool_decide_eq_false_2.
Qed.

Lemma create_veth_move_failed veth_name peer_name namespace_name peer_namespace_name
  (s : Shell K) k1 k code :
  link_show EmptyString veth_name (host s) = false →
  exec EmptyString ["ip"; "link"; "add"; veth_name; "type"; "veth"; "peer"; "name"; peer_name]
       (host s) = (k1, 0) →
  given namespace_name = true →
  exec EmptyString ["ip"; "link"; "set"; veth_name; "netns"; namespace_name] k1 = (k, code) →
  code ≠ 0 →
  create_veth veth_name peer_name namespace_name peer_namespace_name s =
    (mkShell k (LOG_FILE s)
       (invoked s ++ [create_veth_ veth_name peer_name namespace_name peer_namespace_name]),
     Exit code).
Proof.
  intros Hprobe Hadd Hgiven Hmove Hcode. unfold create_veth, seq, enter, run. simpl.
  rewrite Hprobe, Hadd, Hgiven. simpl. rewrite Hmove. simpl.
  by rewrite bool_decide_eq_false_2.
Qed.

Lemma create_veth_peer_move_failed veth_name peer_name namespace_name peer_namespace_name
  (s : Shell K) k1 k2 k code :
  link_show EmptyString veth_name (host s) = false →
  exec EmptyString ["ip"; "link"; "add"; veth_name; "type"; "veth"; "peer"; "name"; peer_name]
       (host s) = (k1, 0) →
  (if given namespace_name
   then exec EmptyString ["ip"; "link"; "set"; veth_name; "netns"; namespace_name] k1 = (k2, 0)
   else k2 = k1) →
  given peer_namespace_name = true →
  exec EmptyString ["ip"; "link"; "set"; peer_name; "netns"; peer_namespace_name] k2
    = (k, code) →
  code ≠ 0 →
  create_veth veth_name peer_name namespace_name peer_namespace_name s =
    (mkShell k (LOG_FILE s)
       (invoked s ++ [create_veth_ veth_name peer_name namespace_name peer_namespace_name]),
     Exit code).
Proof.
  intros Hprobe Hadd Hfirst Hgiven Hmove Hcode. unfold create_veth, seq, enter, run. simpl.
  rewrite Hprobe, Hadd, Hgiven. simpl. revert Hfirst.
  destruct (given namespace_name); intros Hfirst; simpl; [rewrite Hfirst|subst k2]; simpl;
    rewrite Hmove; simpl; by rewrite bool_decide_eq_false_2.
Qed.

Lemma add_ip_address_found interface_name ip_address namespace_name (s : Shell K) :
  addr_show_grep (where_ namespace_name) interface_name ip_address (host s) = true →
  tee (host s) = 0 →
  add_ip_address interface_name ip_address namespace_name s =
    (mkShell (host s)
       (LOG_FILE s ++
          [("WARN",
            if given namespace_name
            then "Address '" +:+ ip_address +:+ "' already exists on " +:+
                 interface_name +:+ " in " +:+ namespace_name +:+ ", skipping"
            else "Address '" +:+ ip_address +:+ "' already exists on " +:+
                 interface_name +:+ ", skipping")])
       (invoked s ++ [add_ip_address_ interface_name ip_address namespace_name]),
     Done).
Proof.
  intros Hfound Htee. unfold add_ip_address, seq, enter, where_ in *. simpl.
  destruct (given namespace_name); rewrite Hfound; unfold log_warn; by rewrite log_written.
Qed.

(** Whatever its two commands answer, [add_ip_address] logs a success. *)
Lemma add_ip_address_fresh interface_name ip_address namespace_name (s : Shell K) k1 c1 k c :
  addr_show_grep (where_ namespace_name) interface_name ip_address (host s) = false →
  exec (where_ namespace_name)
       (unquoted ("ip addr add " +:+ ip_address +:+ " dev " +:+ interface_name) (host s))
       (host s) = (k1, c1) →
  exec (where_ namespace_name) ["ip"; "link"; "set"; interface_name; "up"] k1 = (k, c) →
  tee k = 0 →
  add_ip_address interface_name ip_address namespace_name s =
    (mkShell k
       (LOG_FILE s ++ [("OK", "Added IP: " +:+ ip_address +:+ " to " +:+ interface_name)])
       (invoked s ++ [add_ip_address_ interface_name ip_address namespace_name]),
     Done).
Proof.
  intros Hprobe Hadd Hup Htee.
  unfold add_ip_address, seq, enter, or_true_cmd, or_else_cmd, or_true, or_else, skip,
    where_ in *.
  simpl. destruct (given namespace_name); rewrite Hprobe, Hadd; simpl;
    destruct (bool_decide (c1 = 0)); simpl; rewrite Hup; simpl;
    destruct (bool_decide (c = 0)); simpl; unfold log_success; by rewrite log_written.
Qed.

Lemma add_route_added destination gateway interface_name namespace_name (s : Shell K) k :
  exec (where_ namespace_name)
       (unquoted (route_command destination gateway interface_name) (host s)) (host s)
    = (k, 0) →
  tee k = 0 →
  add_route destination gateway interface_name namespace_name s =
    (mkShell k (LOG_FILE s ++ [("OK", "Added route: " +:+ destination)])
       (invoked s ++ [add_route_ destination gateway interface_name namespace_name]),
     Done).
Proof.
  intros Hadd Htee. unfold add_route, seq, enter, or_else_cmd, or_else. simpl.
  rewrite Hadd. simpl. unfold log_success. by rewrite log_written.
Qed.

(** A route command that fails is answered by a warning, and the success
    line follows. *)
Lemma add_route_failed destination gateway interface_name namespace_name (s : Shell K) k code :
  exec (where_ namespace_name)
       (unquoted (route_command destination gateway interface_name) (host s)) (host s)
    = (k, code) →
  code ≠ 0 → tee k = 0 →
  add_route destination gateway interface_name namespace_name s =
    (mkShell k
       (LOG_FILE s ++ [("WARN", "Route may already exist: " +:+ destination);
                       ("OK", "Added route: " +:+ destination)])
       (invoked s ++ [add_route_ destination gateway interface_name namespace_name]),
     Done).
Proof.
  intros Hadd Hcode Htee. unfold add_route, seq, enter, or_else_cmd, or_else. simpl.
  rewrite Hadd. simpl. rewrite bool_decide_eq_false_2 by done.
  unfold log_warn, log_success. rewrite log_written by done. simpl.
  rewrite log_written by done. simpl. by rewrite <- app_assoc.
Qed.

(** Whatever its command answers, [add_bridge_port] logs a success. *)
Lemma add_bridge_port_always bridge_name interface_name namespace_name (s : Shell K) k code :
  exec (where_ namespace_name) ["ip"; "link"; "set"; interface_name; "master"; bridge_name]
       (host s) = (k, code) →
  tee k = 0 →
  add_bridge_port bridge_name interface_name namespace_name s =
    (mkShell k
       (LOG_FILE s ++
          [("OK", "Added port " +:+ interface_name +:+ " to bridge " +:+ bridge_name)])
       (invoked s ++ [add_bridge_port_ bridge_name interface_name namespace_name]),
     Done).
Proof.
  intros Hset Htee. unfold add_bridge_port, seq, enter, or_true, or_else, skip. simpl.
  rewrite Hset. simpl. destruct (bool_decide (code = 0)); simpl;
    unfold log_success; by rewrite log_written.
Qed.

Lemma create_gre_tunnel_found tunnel_name local_ip remote_ip gre_key ttl namespace_name
  (s : Shell K) :
  link_show (where_ namespace_name) tunnel_name (host s) = true → tee (host s) = 0 →
  create_gre_tunnel tunnel_name local_ip remote_ip gre_key ttl namespace_name s =
    (mkShell (host s)
       (LOG_FILE s ++
          [("WARN",
            if given namespace_name
            then "GRE tunnel '" +:+ tunnel_name +:+ "' already exists in " +:+
                 namespace_name +:+ ", skipping"
            else "GRE tunnel '" +:+ tunnel_name +:+ "' already exists, skipping")])
       (invoked s ++
          [create_gre_tunnel_ tunnel_name local_ip remote_ip gre_key ttl namespace_name]),
     Done).
Proof.
  intros Hfound Htee. unfold create_gre_tunnel, seq, enter, where_ in *. simpl.
  destruct (given namespace_name); rewrite Hfound; unfold log_warn; by rewrite log_written.
Qed.

(** Whatever its two commands answer, [create_gre_tunnel] logs a success. *)
Lemma create_gre_tunnel_fresh tunnel_name local_ip remote_ip gre_key ttl namespace_name
  (s : Shell K) k1 c1 k c :
  link_show (where_ namespace_name) tunnel_name (host s) = false →
  exec (where_ namespace_name)
       (unquoted (gre_command tunnel_name local_ip remote_ip gre_key ttl) (host s))
       (host s) = (k1, c1) →
  exec (where_ namespace_name) ["ip"; "link"; "set"; tunnel_name; "up"] k1 = (k, c) →
  tee k = 0 →
  create_gre_tunnel tunnel_name local_ip remote_ip gre_key ttl namespace_name s =
    (mkShell k
       (LOG_FILE s ++
          [("OK", "Created GRE tunnel: " +:+ tunnel_name +:+ " (local=" +:+ local_ip
                  +:+ ", remote=" +:+ remote_ip +:+ ")")])
       (invoked s ++
          [create_gre_tunnel_ tunnel_name local_ip remote_ip gre_key ttl namespace_name]),
     Done).
Proof.
  intros Hprobe Hadd Hup Htee.
  unfold create_gre_tunnel, seq, enter, or_true_cmd, or_else_cmd, or_true, or_else, skip,
    where_ in *.
  simpl. destruct (given namespace_name); rewrite Hprobe, Hadd; simpl;
    destruct (bool_decide (c1 = 0)); simpl; rewrite Hup; simpl;
    destruct (bool_decide (c = 0)); simpl; unfold log_success; by rewrite log_written.
Qed.

(** When the log cannot be written the batch ends at its first line. *)
Lemma restore_all_tee_failed d (s : Shell K) :
  tee (host s) ≠ 0 → restore_all d s = (s, Exit (tee (host s))).
Proof.
  intros Htee. unfold restore_all, seq at 1, log_info. by rewrite log_failed.
Qed.

Lemma with_namespace_name_failed d id (rest : string → Script K) (s : Shell K) :
  sqlite3 ("SELECT name FROM namespaces WHERE id=" +:+ pretty id +:+ ";") (host s) ≠ 0 →
  with_namespace_name d (Some id) rest s =
    (s, Exit (sqlite3 ("SELECT name FROM namespaces WHERE id=" +:+ pretty id +:+ ";")
                      (host s))).
Proof. intros Hsql. unfold with_namespace_name. by rewrite assign_failed. Qed.

(** The batch is cut short by the call that ends the script. *)
Lemma restore_all_cut d (s : Shell K) before i after s0 final code :
  (∀ sql (k : K), sqlite3 sql k = 0) →
  outline d (host s) = before ++ Call i :: after →
  replay before s = (s0, Done) → call i s0 = (final, Exit code) →
  restore_all d s = (final, Exit code).
Proof.
  intros Hsql Hline Hbefore Hcall.
  rewrite (restore_all_replay Hsql), Hline, replay_app. unfold seq. rewrite Hbefore.
  cbn [replay step]. by rewrite Hcall.
Qed.

Lemma restore_all_exit d (s : Shell K) code :
  (∀ sql (k : K), sqlite3 sql k = 0) → (∀ k : K, tee k = 0) →
  (restore_all d s).2 = Exit code →
  ∃ t0 i s0,
    invoked s0 = invoked s ++ t0 ∧ (t0 ++ [i]) `prefix_of` planned d (host s) ∧
    (stage i ≤ 3)%nat ∧ code ≠ 0 ∧
    call i s0 = ((restore_all d s).1, Exit code) ∧
    LOG_FILE (restore_all d s).1 = LOG_FILE s0 ∧
    invoked (restore_all d s).1 = invoked s ++ t0 ++ [i] ∧
    ∃ ns argv k, exec ns argv k = (host (restore_all d s).1, code).
Proof.
  intros Hsql Htee. rewrite (restore_all_replay Hsql). intros Hexit.
  destruct (replay_spec Htee (outline d (host s)) s) as (t & Hi & Hp & _ & Hx).
  rewrite calls_outline in Hp.
  destruct (Hx code Hexit) as (t0 & i & s0 & -> & Hs0 & Hcall).
  destruct (call_exit Htee i s0 code) as (Hcode & Hstage & Hlog & Hcmd).
  { by rewrite Hcall. }
  rewrite Hcall in Hlog, Hcmd. simpl in Hlog, Hcmd.
  exists t0, i, s0. done.
Qed.

Lemma restore_all_late d (s : Shell K) t i :
  (∀ sql (k : K), sqlite3 sql k = 0) → (∀ k : K, tee k = 0) →
  invoked (restore_all d s).1 = invoked s ++ t → i ∈ t → (4 ≤ stage i)%nat →
  (restore_all d s).2 = Done ∧ t = planned d (host s).
Proof.
  intros Hsql Htee Hinv Hin Hstage.
  destruct (restore_all_ordered d s) as (t' & Hi' & Hsorted & _).
  rewrite Hi' in Hinv. apply app_inv_head in Hinv as ->.
  destruct (restore_all d s).2 as [|code] eqn:Hst.
  - split; [done|]. revert Hi' Hst. rewrite (restore_all_replay Hsql). intros Hi' Hst.
    destruct (replay_spec Htee (outline d (host s)) s) as (t'' & Hi & _ & Hd & _).
    rewrite calls_outline in Hd. rewrite Hi' in Hi. apply app_inv_head in Hi as ->.
    by apply Hd.
  - exfalso. destruct (restore_all_exit d s code Hsql Htee Hst)
      as (t0 & j & s0 & _ & _ & Hj & _ & _ & _ & Hinv & _).
    rewrite Hi' in Hinv. apply app_inv_head in Hinv as ->.
    apply elem_of_app in Hin as [Hin|Hin].
    + assert (stage_le i j) as Hle
        by (apply (StronglySorted_app_1_elem_of _ _ _ _ _ Hsorted); set_solver).
      unfold stage_le in Hle. lia.
    + apply list_elem_of_singleton in Hin as ->. lia.
Qed.

End restore_results.

(** *** Failures during the batch *)

(** The batch as the specification words its failure policy: whatever
    fails, the batch is not cut short. *)
Definition batch_never_aborts (d : db.DB) (s : restore.Shell RefKernel.t) : Prop :=
  (restore.restore_all d s).2 = restore.Done ∧
  restore.invoked (restore.restore_all d s).1 = restore.invoked s ++ plan d.

(** A database with one pair and one address, and a host on which the name
    of the peer end is already taken. *)
Definition pair_and_address : db.DB :=
  db.mkDB [] [db.VethPair.mk 1 "v0" "v1" None None 100]
          [db.IPAddress.mk 1 "lo" None "10.9.9.9/32" 101] [] [] [] [] ∅ 200 [].

Definition peer_name_taken : RefKernel.t :=
  (RefIp.exec EmptyString ["ip"; "link"; "add"; "v1"; "type"; "bridge"] RefKernel.boot).1.

(** A database with one address on an interface the host does not have. *)
Definition address_without_interface : db.DB :=
  db.mkDB [] [] [db.IPAddress.mk 1 "eth9" None "10.9.9.9/32" 101] [] [] [] [] ∅ 200 [].

(** C4, as stated, fails.  When [ip link add] fails for the pair, [set -e]
    ends the script: no warning is logged and the address record is never
    reached.  And when [ip addr add] fails for an address, the batch goes
    on but logs a success, not a warning. *)
Lemma batch_never_aborts_fails :
  ¬ batch_never_aborts pair_and_address (restore.mkShell peer_name_taken [] []) ∧
  restore.restore_all pair_and_address (restore.mkShell peer_name_taken [] []) =
    (restore.mkShell peer_name_taken
       [("INFO", restore.banner); ("INFO", "Starting network namespace restoration");
        ("INFO", restore.banner); ("INFO", "Restoring namespaces...");
        ("INFO", "Restoring bridges..."); ("INFO", "Restoring veth pairs...")]
       [restore.create_veth_ "v0" "v1" EmptyString EmptyString],
     restore.Exit 2) ∧
  (RefIp.exec EmptyString ["ip"; "addr"; "add"; "10.9.9.9/32"; "dev"; "eth9"]
              RefKernel.boot).2 = 2 ∧
  restore.LOG_FILE
    (restore.restore_all address_without_interface
       (restore.mkShell RefKernel.boot [] [])).1 =
    [("INFO", restore.banner); ("INFO", "Starting network namespace restoration");
     ("INFO", restore.banner); ("INFO", "Restoring namespaces...");
     ("INFO", "Restoring bridges..."); ("INFO", "Restoring veth pairs...");
     ("INFO", "Restoring IP addresses..."); ("OK", "Added IP: 10.9.9.9/32 to eth9");
     ("INFO", "Restoring routes..."); ("INFO", "Restoring bridge ports...");
     ("INFO", "Restoring GRE tunnels..."); ("INFO", restore.banner);
     ("INFO", "Restoration complete!"); ("INFO", restore.banner)].
Proof.
  split; [|split; [|split]].
  - intros [Hdone _]. vm_compute in Hdone. discriminate.
  - vm_compute. reflexivity.
  - vm_compute. reflexivity.
  - vm_compute. reflexivity.
Qed.

(** C4 (amended).  Provided the log can be written and the database
    queried, and no column holds [|] or a newline, the batch tolerates only the failing commands of Address,
    Route, BridgePort and Tunnel records: their functions always return and
    log a success line, for a route after the warning that the route may
    already exist, and the batch goes on.  A failing command of a
    Namespace, Bridge or VirtualLinkPair record ends the script at once with
    the status of the command: the function logs nothing, and the batch ends
    where that call ends, with no later record or stage.  So a run is cut
    short only inside the call for a record of the first three stages, by a
    command that failed; once it has called the function of an address, a
    route, a bridge port or a tunnel it runs to its end.  The proviso is
    needed: a [tee] that fails ends the script at the line it logs, a lookup
    of [sqlite3] that fails inside a loop ends it at that record, in any
    stage, a query of the namespace table that fails ends it before the
    first record, and a query of another table that fails passes its stage
    over in silence. *)
Theorem restore_late_failures_tolerated {K : Type} `{restore.Tools K} :
  (* the four late functions always return *)
  ((∀ k : K, restore.tee k = 0) →
   (∀ interface_name ip_address namespace_name (s : restore.Shell K),
      (restore.add_ip_address interface_name ip_address namespace_name s).2 = restore.Done) ∧
   (∀ destination gateway interface_name namespace_name (s : restore.Shell K),
      (restore.add_route destination gateway interface_name namespace_name s).2
        = restore.Done) ∧
   (∀ bridge_name interface_name namespace_name (s : restore.Shell K),
      (restore.add_bridge_port bridge_name interface_name namespace_name s).2
        = restore.Done) ∧
   (∀ tunnel_name local_ip remote_ip gre_key ttl namespace_name (s : restore.Shell K),
      (restore.create_gre_tunnel tunnel_name local_ip remote_ip gre_key ttl
         namespace_name s).2 = restore.Done)) ∧
  (* and log a success, whatever their commands answer *)
  (∀ destination gateway interface_name namespace_name (s : restore.Shell K) k code,
     restore.exec (restore.where_ namespace_name)
       (restore.unquoted (restore.route_command destination gateway interface_name)
          (restore.host s))
       (restore.host s) = (k, code) →
     code ≠ 0 → restore.tee k = 0 →
     restore.add_route destination gateway interface_name namespace_name s =
       (restore.mkShell k
          (restore.LOG_FILE s ++ [("WARN", "Route may already exist: " +:+ destination);
                                  ("OK", "Added route: " +:+ destination)])
          (restore.invoked s ++
             [restore.add_route_ destination gateway interface_name namespace_name]),
        restore.Done)) ∧
  (∀ destination gateway interface_name namespace_name (s : restore.Shell K) k,
     restore.exec (restore.where_ namespace_name)
       (restore.unquoted (restore.route_command destination gateway interface_name)
          (restore.host s))
       (restore.host s) = (k, 0) →
     restore.tee k = 0 →
     restore.add_route destination gateway interface_name namespace_name s =
       (restore.mkShell k
          (restore.LOG_FILE s ++ [("OK", "Added route: " +:+ destination)])
          (restore.invoked s ++
             [restore.add_route_ destination gateway interface_name namespace_name]),
        restore.Done)) ∧
  (∀ interface_name ip_address namespace_name (s : restore.Shell K) k1 c1 k c,
     restore.addr_show_grep (restore.where_ namespace_name) interface_name ip_address
       (restore.host s) = false →
     restore.exec (restore.where_ namespace_name)
       (restore.unquoted ("ip addr add " +:+ ip_address +:+ " dev " +:+ interface_name)
          (restore.host s))
       (restore.host s) = (k1, c1) →
     restore.exec (restore.where_ namespace_name)
       ["ip"; "link"; "set"; interface_name; "up"] k1 = (k, c) →
     restore.tee k = 0 →
     restore.add_ip_address interface_name ip_address namespace_name s =
       (restore.mkShell k
          (restore.LOG_FILE s ++
             [("OK", "Added IP: " +:+ ip_address +:+ " to " +:+ interface_name)])
          (restore.invoked s ++
             [restore.add_ip_address_ interface_name ip_address namespace_name]),
        restore.Done)) ∧
  (∀ bridge_name interface_name namespace_name (s : restore.Shell K) k code,
     restore.exec (restore.where_ namespace_name)
       ["ip"; "link"; "set"; interface_name; "master"; bridge_name] (restore.host s)
       = (k, code) →
     restore.tee k = 0 →
     restore.add_bridge_port bridge_name interface_name namespace_name s =
       (restore.mkShell k
          (restore.LOG_FILE s ++
             [("OK", "Added port " +:+ interface_name +:+ " to bridge " +:+ bridge_name)])
          (restore.invoked s ++
             [restore.add_bridge_port_ bridge_name interface_name namespace_name]),
        restore.Done)) ∧
  (∀ tunnel_name local_ip remote_ip gre_key ttl namespace_name (s : restore.Shell K)
     k1 c1 k c,
     restore.link_show (restore.where_ namespace_name) tunnel_name (restore.host s)
       = false →
     restore.exec (restore.where_ namespace_name)
       (restore.unquoted (restore.gre_command tunnel_name local_ip remote_ip gre_key ttl)
          (restore.host s))
       (restore.host s) = (k1, c1) →
     restore.exec (restore.where_ namespace_name)
       ["ip"; "link"; "set"; tunnel_name; "up"] k1 = (k, c) →
     restore.tee k = 0 →
     restore.create_gre_tunnel tunnel_name local_ip remote_ip gre_key ttl namespace_name s =
       (restore.mkShell k
          (restore.LOG_FILE s ++
             [("OK", "Created GRE tunnel: " +:+ tunnel_name +:+ " (local=" +:+ local_ip
                     +:+ ", remote=" +:+ remote_ip +:+ ")")])
          (restore.invoked s ++
             [restore.create_gre_tunnel_ tunnel_name local_ip remote_ip gre_key ttl
                namespace_name]),
        restore.Done)) ∧
  (* a failing command of a namespace ends the script *)
  (∀ namespace_name (s : restore.Shell K) k code,
     restore.netns_list_grep namespace_name (restore.host s) = false →
     restore.exec EmptyString ["ip"; "netns"; "add"; namespace_name] (restore.host s)
       = (k, code) →
     code ≠ 0 →
     restore.create_namespace namespace_name s =
       (restore.mkShell k (restore.LOG_FILE s)
          (restore.invoked s ++ [restore.create_namespace_ namespace_name]),
        restore.Exit code)) ∧
  (∀ namespace_name (s : restore.Shell K) k1 k code,
     restore.netns_list_grep namespace_name (restore.host s) = false →
     restore.exec EmptyString ["ip"; "netns"; "add"; namespace_name] (restore.host s)
       = (k1, 0) →
     restore.exec namespace_name ["ip"; "link"; "set"; "lo"; "up"] k1 = (k, code) →
     code ≠ 0 →
     restore.create_namespace namespace_name s =
       (restore.mkShell k (restore.LOG_FILE s)
          (restore.invoked s ++ [restore.create_namespace_ namespace_name]),
        restore.Exit code)) ∧
  (* of a bridge *)
  (∀ bridge_name namespace_name (s : restore.Shell K) k code,
     restore.link_show (restore.where_ namespace_name) bridge_name (restore.host s)
       = false →
     restore.exec (restore.where_ namespace_name)
       ["ip"; "link"; "add"; bridge_name; "type"; "bridge"] (restore.host s) = (k, code) →
     code ≠ 0 →
     restore.create_bridge bridge_name namespace_name s =
       (restore.mkShell k (restore.LOG_FILE s)
          (restore.invoked s ++ [restore.create_bridge_ bridge_name namespace_name]),
        restore.Exit code)) ∧
  (∀ bridge_name namespace_name (s : restore.Shell K) k1 k code,
     restore.link_show (restore.where_ namespace_name) bridge_name (restore.host s)
       = false →
     restore.exec (restore.where_ namespace_name)
       ["ip"; "link"; "add"; bridge_name; "type"; "bridge"] (restore.host s) = (k1, 0) →
     restore.exec (restore.where_ namespace_name)
       ["ip"; "link"; "set"; bridge_name; "up"] k1 = (k, code) →
     code ≠ 0 →
     restore.create_bridge bridge_name namespace_name s =
       (restore.mkShell k (restore.LOG_FILE s)
          (restore.invoked s ++ [restore.create_bridge_ bridge_name namespace_name]),
        restore.Exit code)) ∧
  (* of a pair *)
  (∀ veth_name peer_name namespace_name peer_namespace_name (s : restore.Shell K) k code,
     restore.link_show EmptyString veth_name (restore.host s) = false →
     restore.exec EmptyString
       ["ip"; "link"; "add"; veth_name; "type"; "veth"; "peer"; "name"; peer_name]
       (restore.host s) = (k, code) →
     code ≠ 0 →
     restore.create_veth veth_name peer_name namespace_name peer_namespace_name s =
       (restore.mkShell k (restore.LOG_FILE s)
          (restore.invoked s ++
             [restore.create_veth_ veth_name peer_name namespace_name peer_namespace_name]),
        restore.Exit code)) ∧
  (∀ veth_name peer_name namespace_name peer_namespace_name (s : restore.Shell K)
     k1 k code,
     restore.link_show EmptyString veth_name (restore.host s) = false →
     restore.exec EmptyString
       ["ip"; "link"; "add"; veth_name; "type"; "veth"; "peer"; "name"; peer_name]
       (restore.host s) = (k1, 0) →
     restore.given namespace_name = true →
     restore.exec EmptyString ["ip"; "link"; "set"; veth_name; "netns"; namespace_name] k1
       = (k, code) →
     code ≠ 0 →
     restore.create_veth veth_name peer_name namespace_name peer_namespace_name s =
       (restore.mkShell k (restore.LOG_FILE s)
          (restore.invoked s ++
             [restore.create_veth_ veth_name peer_name namespace_name peer_namespace_name]),
        restore.Exit code)) ∧
  (∀ veth_name peer_name namespace_name peer_namespace_name (s : restore.Shell K)
     k1 k2 k code,
     restore.link_show EmptyString veth_name (restore.host s) = false →
     restore.exec EmptyString
       ["ip"; "link"; "add"; veth_name; "type"; "veth"; "peer"; "name"; peer_name]
       (restore.host s) = (k1, 0) →
     (if restore.given namespace_name
      then restore.exec EmptyString
             ["ip"; "link"; "set"; veth_name; "netns"; namespace_name] k1 = (k2, 0)
      else k2 = k1) →
     restore.given peer_namespace_name = true →
     restore.exec EmptyString
       ["ip"; "link"; "set"; peer_name; "netns"; peer_namespace_name] k2 = (k, code) →
     code ≠ 0 →
     restore.create_veth veth_name peer_name namespace_name peer_namespace_name s =
       (restore.mkShell k (restore.LOG_FILE s)
          (restore.invoked s ++
             [restore.create_veth_ veth_name peer_name namespace_name peer_namespace_name]),
        restore.Exit code)) ∧
  (* the batch ends where the call that ends the script ends *)
  (∀ d (s : restore.Shell K) before i after s0 final code,
     separable d → (∀ sql (k : K), restore.sqlite3 sql k = 0) →
     outline d (restore.host s) = before ++ Call i :: after →
     replay before s = (s0, restore.Done) → call i s0 = (final, restore.Exit code) →
     restore.restore_all d s = (final, restore.Exit code)) ∧
  (* and is cut short only there, in the first three stages *)
  (∀ d (s : restore.Shell K) code,
     separable d →
     (∀ sql (k : K), restore.sqlite3 sql k = 0) → (∀ k : K, restore.tee k = 0) →
     (restore.restore_all d s).2 = restore.Exit code →
     ∃ t0 i s0,
       restore.invoked s0 = restore.invoked s ++ t0 ∧
       (t0 ++ [i]) `prefix_of` planned d (restore.host s) ∧
       (stage i ≤ 3)%nat ∧ code ≠ 0 ∧
       call i s0 = ((restore.restore_all d s).1, restore.Exit code) ∧
       restore.LOG_FILE (restore.restore_all d s).1 = restore.LOG_FILE s0 ∧
       restore.invoked (restore.restore_all d s).1 = restore.invoked s ++ t0 ++ [i] ∧
       ∃ ns argv k,
         restore.exec ns argv k = (restore.host (restore.restore_all d s).1, code)) ∧
  (∀ d (s : restore.Shell K) t i,
     separable d →
     (∀ sql (k : K), restore.sqlite3 sql k = 0) → (∀ k : K, restore.tee k = 0) →
     restore.invoked (restore.restore_all d s).1 = restore.invoked s ++ t →
     i ∈ t → (4 ≤ stage i)%nat →
     (restore.restore_all d s).2 = restore.Done ∧ t = planned d (restore.host s)) ∧
  (* without the proviso *)
  (∀ d (s : restore.Shell K),
     restore.tee (restore.host s) ≠ 0 →
     restore.restore_all d s = (s, restore.Exit (restore.tee (restore.host s)))) ∧
  (∀ level msg (s : restore.Shell K),
     restore.tee (restore.host s) ≠ 0 →
     restore.log level msg s = (s, restore.Exit (restore.tee (restore.host s)))) ∧
  (∀ d id rest (s : restore.Shell K),
     restore.sqlite3 ("SELECT name FROM namespaces WHERE id=" +:+ pretty id +:+ ";")
       (restore.host s) ≠ 0 →
     restore.with_namespace_name d (Some id) rest s =
       (s, restore.Exit
             (restore.sqlite3
                ("SELECT name FROM namespaces WHERE id=" +:+ pretty id +:+ ";")
                (restore.host s)))) ∧
  (∀ d (s : restore.Shell K),
     restore.sqlite3 "SELECT name FROM namespaces ORDER BY id;" (restore.host s) ≠ 0 →
     restore.restore_namespaces d s =
       (s, restore.Exit
             (restore.sqlite3 "SELECT name FROM namespaces ORDER BY id;" (restore.host s)))) ∧
  (∀ d (s : restore.Shell K),
     restore.sqlite3 "SELECT id, name, ns_id FROM bridges ORDER BY id;" (restore.host s)
       ≠ 0 →
     restore.restore_bridges d s = (s, restore.Done)) ∧
  (∀ d (s : restore.Shell K),
     restore.sqlite3
       "SELECT id, name, peer_name, ns_id, peer_ns_id FROM veth_pairs ORDER BY id;"
       (restore.host s) ≠ 0 →
     restore.restore_veth_pairs d s = (s, restore.Done)) ∧
  (∀ d (s : restore.Shell K),
     restore.sqlite3
       "SELECT id, interface_name, ns_id, address FROM ip_addresses ORDER BY id;"
       (restore.host s) ≠ 0 →
     restore.restore_ip_addresses d s = (s, restore.Done)) ∧
  (∀ d (s : restore.Shell K),
     restore.sqlite3
       "SELECT id, ns_id, destination, gateway, interface_name FROM routes ORDER BY id;"
       (restore.host s) ≠ 0 →
     restore.restore_routes d s = (s, restore.Done)) ∧
  (∀ d (s : restore.Shell K),
     restore.sqlite3 "SELECT id, bridge_id, interface_name FROM bridge_ports ORDER BY id;"
       (restore.host s) ≠ 0 →
     restore.restore_bridge_ports d s = (s, restore.Done)) ∧
  (∀ d (s : restore.Shell K),
     restore.sqlite3
       "SELECT id, name, local_ip, remote_ip, gre_key, ttl, ns_id FROM gre_tunnels ORDER BY id;"
       (restore.host s) ≠ 0 →
     restore.restore_gre_tunnels d s = (s, restore.Done)).
Proof.
  split_and!.
  - intros Htee. split_and!.
    + intros. by eapply (call_late Htee (restore.add_ip_address_ _ _ _)).
    + intros. by eapply (call_late Htee (restore.add_route_ _ _ _ _)); simpl; lia.
    + intros. by eapply (call_late Htee (restore.add_bridge_port_ _ _ _)); simpl; lia.
    + intros. by eapply (call_late Htee (restore.create_gre_tunnel_ _ _ _ _ _ _)); simpl; lia.
  - intros. by eapply add_route_failed.
  - intros. by eapply add_route_added.
  - intros. by eapply add_ip_address_fresh.
  - intros. by eapply add_bridge_port_always.
  - intros. by eapply create_gre_tunnel_fresh.
  - intros. by eapply create_namespace_add_failed.
  - intros. by eapply create_namespace_up_failed.
  - intros. by eapply create_bridge_add_failed.
  - intros. by eapply create_bridge_up_failed.
  - intros. by eapply create_veth_add_failed.
  - intros. by eapply create_veth_move_failed.
  - intros. by eapply create_veth_peer_move_failed.
  - intros. by eapply restore_all_cut.
  - intros. by eapply restore_all_exit.
  - intros. by eapply restore_all_late.
  - intros. by eapply restore_all_tee_failed.
  - intros. by eapply log_failed.
  - intros. by eapply with_namespace_name_failed.
  - intros. unfold restore.restore_namespaces. by rewrite assign_failed.
  - intros. unfold restore.restore_bridges. by rewrite while_read_failed.
  - intros. unfold restore.restore_veth_pairs. by rewrite while_read_failed.
  - intros. unfold restore.restore_ip_addresses. by rewrite while_read_failed.
  - intros. unfold restore.restore_routes. by rewrite while_read_failed.
  - intros. unfold restore.restore_bridge_ports. by rewrite while_read_failed.
  - intros. unfold restore.restore_gre_tunnels. by rewrite while_read_failed.
Qed.

(** The theorem on the host without the interface: the route of a record
    cannot be added, the warning is logged and the function returns. *)
Lemma restore_late_failures_tolerated_witness :
  restore.exec (restore.where_ EmptyString)
    (restore.unquoted (restore.route_command "10.1.0.0/16" EmptyString "eth9")
       (restore.host first_run))
    (restore.host first_run) = (RefKernel.boot, 1) ∧
  restore.add_route "10.1.0.0/16" EmptyString "eth9" EmptyString first_run =
    (restore.mkShell RefKernel.boot
       (restore.LOG_FILE first_run ++
          [("WARN", "Route may already exist: " +:+ "10.1.0.0/16");
           ("OK", "Added route: " +:+ "10.1.0.0/16")])
       (restore.invoked first_run ++
          [restore.add_route_ "10.1.0.0/16" EmptyString "eth9" EmptyString]),
     restore.Done).
Proof.
  assert (Hfail : restore.exec (restore.where_ EmptyString)
                    (restore.unquoted (restore.route_command "10.1.0.0/16" EmptyString "eth9")
                       (restore.host first_run))
                    (restore.host first_run) = (RefKernel.boot, 1))
    by (vm_compute; reflexivity).
  split; [exact Hfail|].
  destruct (@restore_late_failures_tolerated RefKernel.t RefIp.tools) as (_ & Hwarn & _).
  apply (Hwarn "10.1.0.0/16" EmptyString "eth9" EmptyString first_run RefKernel.boot 1 Hfail).
  - discriminate.
  - reflexivity.
Defined.

(** *** Running the batch again *)

(** A warning that a resource is skipped. *)
Definition skip_warning (e : string * string) : Prop :=
  e.1 = "WARN" ∧ ∃ what, e.2 = what +:+ ", skipping".

(** What a second run may log: the banners, the warnings that a resource
    is skipped, and the lines of the routes and the bridge ports. *)
Definition rerun_entry (e : string * string) : Prop :=
  e.1 = "INFO" ∨ skip_warning e ∨
  (e.1 = "WARN" ∧ String.prefix "Route may already exist: " e.2 = true) ∨
  (e.1 = "OK" ∧ (String.prefix "Added route: " e.2 = true ∨
                 String.prefix "Added port " e.2 = true)).

Lemma prefix_app (p x : string) : String.prefix p (p +:+ x) = true.
Proof.
  induction p as [|a p IH]; [by destruct x|].
  change (String a p +:+ x) with (String a (p +:+ x)). simpl.
  by destruct (Ascii.ascii_dec a a).
Qed.

Section rerun.
Import restore.
Context {K : Type} `{Tools K}.

(** The probe of a call finds its resource on the host [k]; for the two
    kinds that are not probed, the command leaves [k] as it is.  A pair is
    looked for where [create_veth] makes it, in the host namespace, and
    this finds the pairs whose first end stays there. *)
Definition found (i : Invocation) (k : K) : Prop :=
  match i with
  | create_namespace_ namespace_name => netns_list_grep namespace_name k = true
  | create_bridge_ bridge_name namespace_name =>
      link_show (where_ namespace_name) bridge_name k = true
  | create_veth_ veth_name peer_name namespace_name peer_namespace_name =>
      given namespace_name = false ∧ link_show (where_ namespace_name) veth_name k = true
  | add_ip_address_ interface_name ip_address namespace_name =>
      addr_show_grep (where_ namespace_name) interface_name ip_address k = true
  | add_route_ destination gateway interface_name namespace_name =>
      (exec (where_ namespace_name)
         (unquoted (route_command destination gateway interface_name) k) k).1 = k
  | add_bridge_port_ bridge_name interface_name namespace_name =>
      (exec (where_ namespace_name)
         ["ip"; "link"; "set"; interface_name; "master"; bridge_name] k).1 = k
  | create_gre_tunnel_ tunnel_name local_ip remote_ip gre_key ttl namespace_name =>
      link_show (where_ namespace_name) tunnel_name k = true
  end.

(** What such a call logs. *)
Definition rerun_log (i : Invocation) (k : K) : list (string * string) :=
  match i with
  | create_namespace_ namespace_name =>
      [("WARN", "Namespace '" +:+ namespace_name +:+ "' already exists, skipping")]
  | create_bridge_ bridge_name namespace_name =>
      [("WARN",
        if given namespace_name
        then "Bridge '" +:+ bridge_name +:+ "' already exists in " +:+
             namespace_name +:+ ", skipping"
        else "Bridge '" +:+ bridge_name +:+ "' already exists, skipping")]
  | create_veth_ veth_name peer_name namespace_name peer_namespace_name =>
      [("WARN", "Veth '" +:+ veth_name +:+ "' already exists, skipping")]
  | add_ip_address_ interface_name ip_address namespace_name =>
      [("WARN",
        if given namespace_name
        then "Address '" +:+ ip_address +:+ "' already exists on " +:+
             interface_name +:+ " in " +:+ namespace_name +:+ ", skipping"
        else "Address '" +:+ ip_address +:+ "' already exists on " +:+
             interface_name +:+ ", skipping")]
  | add_route_ destination gateway interface_name namespace_name =>
      (if bool_decide ((exec (where_ namespace_name)
                          (unquoted (route_command destination gateway interface_name) k)
                          k).2 = 0)
       then []
       else [("WARN", "Route may already exist: " +:+ destination)]) ++
      [("OK", "Added route: " +:+ destination)]
  | add_bridge_port_ bridge_name interface_name namespace_name =>
      [("OK", "Added port " +:+ interface_name +:+ " to bridge " +:+ bridge_name)]
  | create_gre_tunnel_ tunnel_name local_ip remote_ip gre_key ttl namespace_name =>
      [("WARN",
        if given namespace_name
        then "GRE tunnel '" +:+ tunnel_name +:+ "' already exists in " +:+
             namespace_name +:+ ", skipping"
        else "GRE tunnel '" +:+ tunnel_name +:+ "' already exists, skipping")]
  end.

(** Every call of a full run finds its resource. *)
Definition all_found (d : db.DB) (k : K) : Prop :=
  Forall (fun i => found i k) (planned d k).

Definition rerun_line (k : K) (x : Step) : list (string * string) :=
  match x with
  | Say msg => [("INFO", msg)]
  | Call i => rerun_log i k
  end.

(** The log of a run in which every call finds its resource. *)
Definition rerun_lines (d : db.DB) (k : K) : list (string * string) :=
  outline d k ≫= rerun_line k.

Lemma call_found i k (s : Shell K) :
  found i k → tee k = 0 → host s = k →
  call i s = (mkShell k (LOG_FILE s ++ rerun_log i k) (invoked s ++ [i]), Done).
Proof.
  intros Hfound Htee <-. destruct i; simpl in *.
  - by apply create_namespace_found.
  - by apply create_bridge_found.
  - destruct Hfound as [Hgiven Hfound]. unfold where_ in Hfound. rewrite Hgiven in Hfound.
    by apply create_veth_found.
  - by apply add_ip_address_found.
  - destruct (exec (where_ namespace_name)
                (unquoted (route_command destination gateway interface_name) (host s))
                (host s)) as [k code] eqn:Hexec.
    simpl in *. subst k. case_bool_decide as Hcode.
    + subst code. by apply add_route_added.
    + by eapply add_route_failed.
  - destruct (exec (where_ namespace_name)
                ["ip"; "link"; "set"; interface_name; "master"; bridge_name] (host s))
      as [k code] eqn:Hexec.
    simpl in *. subst k. by eapply add_bridge_port_always.
  - by apply create_gre_tunnel_found.
Qed.

Lemma replay_found k steps (s : Shell K) :
  tee k = 0 → host s = k → Forall (fun i => found i k) (calls steps) →
  replay steps s =
    (mkShell k (LOG_FILE s ++ (steps ≫= rerun_line k)) (invoked s ++ calls steps), Done).
Proof.
  intros Htee. revert s. induction steps as [|[msg|i] steps IH]; intros s Hs Hfound.
  - cbn. rewrite !app_nil_r. destruct s. simpl in Hs. by subst.
  - cbn [replay step]. unfold log_info. rewrite log_written by (by rewrite Hs).
    rewrite IH; [|by simpl|done]. cbn [LOG_FILE invoked].
    by rewrite <- app_assoc.
  - change (calls (Call i :: steps)) with (i :: calls steps) in *.
    apply Forall_cons in Hfound as [Hi Hfound].
    cbn [replay step]. rewrite (call_found i k s Hi Htee Hs).
    rewrite IH; [|done|done]. cbn [LOG_FILE invoked].
    by rewrite <- !app_assoc.
Qed.

(** With every resource found, the batch returns, leaves the host as it is
    and logs the banners and one entry for each call. *)
Lemma restore_all_found d (s : Shell K) :
  (∀ sql (k : K), sqlite3 sql k = 0) → tee (host s) = 0 → all_found d (host s) →
  restore_all d s =
    (mkShell (host s) (LOG_FILE s ++ rerun_lines d (host s))
       (invoked s ++ planned d (host s)),
     Done).
Proof.
  intros Hsql Htee Hfound. rewrite (restore_all_replay Hsql).
  rewrite (replay_found (host s)); [|done|done|by rewrite calls_outline].
  by rewrite calls_outline.
Qed.

Lemma skip_warning_intro (what msg : string) :
  msg = what +:+ ", skipping" → skip_warning ("WARN", msg).
Proof. intros ->. split; [done|]. by exists what. Qed.

Lemma rerun_log_entries i k : Forall rerun_entry (rerun_log i k).
Proof.
  destruct i; simpl.
  - constructor; [|done]. right; left.
    apply (skip_warning_intro
               ("Namespace '" +:+ namespace_name +:+ "' already exists"));
      by rewrite !string_app_assoc.
  - constructor; [|done]. right; left. destruct (given namespace_name).
    + apply (skip_warning_intro
               ("Bridge '" +:+ bridge_name +:+ "' already exists in " +:+ namespace_name));
      by rewrite !string_app_assoc.
    + apply (skip_warning_intro
               ("Bridge '" +:+ bridge_name +:+ "' already exists"));
      by rewrite !string_app_assoc.
  - constructor; [|done]. right; left.
    apply (skip_warning_intro
               ("Veth '" +:+ veth_name +:+ "' already exists"));
      by rewrite !string_app_assoc.
  - constructor; [|done]. right; left. destruct (given namespace_name).
    + apply (skip_warning_intro
               ("Address '" +:+ ip_address +:+ "' already exists on " +:+ interface_name
                +:+ " in " +:+ namespace_name));
      by rewrite !string_app_assoc.
    + apply (skip_warning_intro
               ("Address '" +:+ ip_address +:+ "' already exists on " +:+ interface_name));
      by rewrite !string_app_assoc.
  - apply Forall_app. split.
    + case_bool_decide; [done|]. constructor; [|done]. right; right; left.
      split; [done|]. apply prefix_app.
    + constructor; [|done]. right; right; right. split; [done|]. left. apply prefix_app.
  - constructor; [|done]. right; right; right. split; [done|]. right. apply prefix_app.
  - constructor; [|done]. right; left. destruct (given namespace_name).
    + apply (skip_warning_intro
               ("GRE tunnel '" +:+ tunnel_name +:+ "' already exists in " +:+ namespace_name));
      by rewrite !string_app_assoc.
    + apply (skip_warning_intro
               ("GRE tunnel '" +:+ tunnel_name +:+ "' already exists"));
      by rewrite !string_app_assoc.
Qed.

Lemma rerun_lines_entries d k : Forall rerun_entry (rerun_lines d k).
Proof.
  unfold rerun_lines. apply Forall_bind, list.Forall_forall. intros [msg|i] _; simpl.
  - constructor; [by left|done].
  - apply rerun_log_entries.
Qed.

End rerun.

(** The batch as the specification words its second run: after a first run
    that completes, a second run on the host the first one left completes
    too, changes nothing and logs, besides the banners, only warnings that
    a resource is skipped. *)
Definition second_run_only_skips (d : db.DB) (k : RefKernel.t) : Prop :=
  let first := restore.restore_all d (restore.mkShell k [] []) in
  first.2 = restore.Done →
  let second := restore.restore_all d (restore.mkShell (restore.host first.1) [] []) in
  second.2 = restore.Done ∧
  restore.host second.1 = restore.host first.1 ∧
  Forall (fun e => e.1 = "INFO" ∨ skip_warning e) (restore.LOG_FILE second.1).

(** One route on the loopback interface of the host. *)
Definition one_route : db.DB :=
  db.mkDB [] [] [] [db.Route.mk 1 None "10.1.0.0/16" EmptyString "lo" 101] [] [] [] ∅ 200 [].

(** One namespace and a pair whose first end lives in it. *)
Definition pair_in_namespace : db.DB :=
  db.mkDB [db.Namespace.mk 1 "ns1" 100 EmptyString]
          [db.VethPair.mk 1 "v0" "v1" (Some 1) None 101] [] [] [] [] [] ∅ 200 [].

(** The host a first run leaves. *)
Definition restored (d : db.DB) : RefKernel.t :=
  restore.host (restore.restore_all d first_run).1.

(** C5, as stated, fails.  A route is not probed: the second run issues
    [ip route add] again, the command fails because the route is there, and
    the run logs that the route may already exist and then that it was
    added, which is neither a skip nor the outcome of a check. *)
Lemma second_run_only_skips_fails :
  ¬ second_run_only_skips one_route RefKernel.boot ∧
  (restore.restore_all one_route first_run).2 = restore.Done ∧
  restore.restore_all one_route (restore.mkShell (restored one_route) [] []) =
    (restore.mkShell (restored one_route)
       [("INFO", restore.banner); ("INFO", "Starting network namespace restoration");
        ("INFO", restore.banner); ("INFO", "Restoring namespaces...");
        ("INFO", "Restoring bridges..."); ("INFO", "Restoring veth pairs...");
        ("INFO", "Restoring IP addresses..."); ("INFO", "Restoring routes...");
        ("WARN", "Route may already exist: 10.1.0.0/16");
        ("OK", "Added route: 10.1.0.0/16");
        ("INFO", "Restoring bridge ports..."); ("INFO", "Restoring GRE tunnels...");
        ("INFO", restore.banner); ("INFO", "Restoration complete!");
        ("INFO", restore.banner)]
       [restore.add_route_ "10.1.0.0/16" EmptyString "lo" EmptyString],
     restore.Done).
Proof.
  split_and!.
  - intros Hclaim. destruct Hclaim as (_ & _ & Hlog); [by vm_compute|].
    rewrite list.Forall_forall in Hlog.
    destruct (Hlog ("OK", "Added route: 10.1.0.0/16")) as [Hinfo|[Hwarn _]].
    + vm_compute. do 9 right. by left.
    + discriminate Hinfo.
    + discriminate Hwarn.
  - by vm_compute.
  - by vm_compute.
Qed.

(** The probe of [create_veth] looks for the first end in the host
    namespace only, where the sibling functions probe inside the namespace
    of the record: once a first run has moved that end into [ns1] the probe
    of a second run misses it, [ip link add] fails on the name of the peer
    and the script ends with that status. *)
Lemma rerun_pair_in_namespace :
  (restore.restore_all pair_in_namespace first_run).2 = restore.Done ∧
  restore.link_show EmptyString "v0" (restored pair_in_namespace) = false ∧
  restore.link_show "ns1" "v0" (restored pair_in_namespace) = true ∧
  (restore.restore_all pair_in_namespace
     (restore.mkShell (restored pair_in_namespace) [] [])).2 = restore.Exit 2.
Proof. split_and!; by vm_compute. Qed.

(** C5 (amended).  The functions for a Namespace, a Bridge, an Address, a
    Tunnel and a VirtualLinkPair whose first end stays in the host
    namespace probe the host first and, when the probe finds the resource,
    change nothing and log one warning that it already exists and is
    skipped.  The functions for a Route and a BridgePort do not probe: they
    always issue their command; a route command that fails is logged as the
    warning that the route may already exist, followed by the line that the
    route was added, and a port always logs that it was added.  So, when
    the log can be written and the database queried, and no column holds
    [|] or a newline, a run for pairs whose first end stays in the host
    namespace, on a host where every probe finds its resource and the route
    and port commands change nothing, returns, leaves the host as it is, calls the function of every
    record and logs the banners and, for each call, exactly these lines. *)
Theorem restore_rerun {K : Type} `{restore.Tools K} :
  (∀ namespace_name (s : restore.Shell K),
     restore.netns_list_grep namespace_name (restore.host s) = true →
     restore.tee (restore.host s) = 0 →
     restore.create_namespace namespace_name s =
       (restore.mkShell (restore.host s)
          (restore.LOG_FILE s ++
             [("WARN", "Namespace '" +:+ namespace_name +:+ "' already exists, skipping")])
          (restore.invoked s ++ [restore.create_namespace_ namespace_name]),
        restore.Done)) ∧
  (∀ bridge_name namespace_name (s : restore.Shell K),
     restore.link_show (restore.where_ namespace_name) bridge_name (restore.host s) = true →
     restore.tee (restore.host s) = 0 →
     restore.create_bridge bridge_name namespace_name s =
       (restore.mkShell (restore.host s)
          (restore.LOG_FILE s ++
             [("WARN",
               if restore.given namespace_name
               then "Bridge '" +:+ bridge_name +:+ "' already exists in " +:+
                    namespace_name +:+ ", skipping"
               else "Bridge '" +:+ bridge_name +:+ "' already exists, skipping")])
          (restore.invoked s ++ [restore.create_bridge_ bridge_name namespace_name]),
        restore.Done)) ∧
  (∀ veth_name peer_name namespace_name peer_namespace_name (s : restore.Shell K),
     restore.given namespace_name = false →
     restore.link_show (restore.where_ namespace_name) veth_name (restore.host s) = true →
     restore.tee (restore.host s) = 0 →
     restore.create_veth veth_name peer_name namespace_name peer_namespace_name s =
       (restore.mkShell (restore.host s)
          (restore.LOG_FILE s ++
             [("WARN", "Veth '" +:+ veth_name +:+ "' already exists, skipping")])
          (restore.invoked s ++
             [restore.create_veth_ veth_name peer_name namespace_name peer_namespace_name]),
        restore.Done)) ∧
  (∀ interface_name ip_address namespace_name (s : restore.Shell K),
     restore.addr_show_grep (restore.where_ namespace_name) interface_name ip_address
       (restore.host s) = true →
     restore.tee (restore.host s) = 0 →
     restore.add_ip_address interface_name ip_address namespace_name s =
       (restore.mkShell (restore.host s)
          (restore.LOG_FILE s ++
             [("WARN",
               if restore.given namespace_name
               then "Address '" +:+ ip_address +:+ "' already exists on " +:+
                    interface_name +:+ " in " +:+ namespace_name +:+ ", skipping"
               else "Address '" +:+ ip_address +:+ "' already exists on " +:+
                    interface_name +:+ ", skipping")])
          (restore.invoked s ++
             [restore.add_ip_address_ interface_name ip_address namespace_name]),
        restore.Done)) ∧
  (∀ tunnel_name local_ip remote_ip gre_key ttl namespace_name (s : restore.Shell K),
     restore.link_show (restore.where_ namespace_name) tunnel_name (restore.host s) = true →
     restore.tee (restore.host s) = 0 →
     restore.create_gre_tunnel tunnel_name local_ip remote_ip gre_key ttl namespace_name s =
       (restore.mkShell (restore.host s)
          (restore.LOG_FILE s ++
             [("WARN",
               if restore.given namespace_name
               then "GRE tunnel '" +:+ tunnel_name +:+ "' already exists in " +:+
                    namespace_name +:+ ", skipping"
               else "GRE tunnel '" +:+ tunnel_name +:+ "' already exists, skipping")])
          (restore.invoked s ++
             [restore.create_gre_tunnel_ tunnel_name local_ip remote_ip gre_key ttl
                namespace_name]),
        restore.Done)) ∧
  (∀ destination gateway interface_name namespace_name (s : restore.Shell K) k,
     restore.exec (restore.where_ namespace_name)
       (restore.unquoted (restore.route_command destination gateway interface_name)
          (restore.host s))
       (restore.host s) = (k, 0) →
     restore.tee k = 0 →
     restore.add_route destination gateway interface_name namespace_name s =
       (restore.mkShell k
          (restore.LOG_FILE s ++ [("OK", "Added route: " +:+ destination)])
          (restore.invoked s ++
             [restore.add_route_ destination gateway interface_name namespace_name]),
        restore.Done)) ∧
  (∀ destination gateway interface_name namespace_name (s : restore.Shell K) k code,
     restore.exec (restore.where_ namespace_name)
       (restore.unquoted (restore.route_command destination gateway interface_name)
          (restore.host s))
       (restore.host s) = (k, code) →
     code ≠ 0 → restore.tee k = 0 →
     restore.add_route destination gateway interface_name namespace_name s =
       (restore.mkShell k
          (restore.LOG_FILE s ++ [("WARN", "Route may already exist: " +:+ destination);
                                  ("OK", "Added route: " +:+ destination)])
          (restore.invoked s ++
             [restore.add_route_ destination gateway interface_name namespace_name]),
        restore.Done)) ∧
  (∀ bridge_name interface_name namespace_name (s : restore.Shell K) k code,
     restore.exec (restore.where_ namespace_name)
       ["ip"; "link"; "set"; interface_name; "master"; bridge_name] (restore.host s)
       = (k, code) →
     restore.tee k = 0 →
     restore.add_bridge_port bridge_name interface_name namespace_name s =
       (restore.mkShell k
          (restore.LOG_FILE s ++
             [("OK", "Added port " +:+ interface_name +:+ " to bridge " +:+ bridge_name)])
          (restore.invoked s ++
             [restore.add_bridge_port_ bridge_name interface_name namespace_name]),
        restore.Done)) ∧
  (∀ d (s : restore.Shell K),
     separable d →
     (∀ sql (k : K), restore.sqlite3 sql k = 0) → restore.tee (restore.host s) = 0 →
     all_found d (restore.host s) →
     restore.restore_all d s =
       (restore.mkShell (restore.host s)
          (restore.LOG_FILE s ++ rerun_lines d (restore.host s))
          (restore.invoked s ++ planned d (restore.host s)),
        restore.Done) ∧
     Forall rerun_entry (rerun_lines d (restore.host s))).
Proof.
  split_and!.
  - intros. by apply create_namespace_found.
  - intros. by apply create_bridge_found.
  - intros veth_name peer_name namespace_name peer_namespace_name s Hgiven Hfound Htee.
    unfold restore.where_ in Hfound. rewrite Hgiven in Hfound.
    by apply create_veth_found.
  - intros. by apply add_ip_address_found.
  - intros. by apply create_gre_tunnel_found.
  - intros. by apply add_route_added.
  - intros. by eapply add_route_failed.
  - intros. by eapply add_bridge_port_always.
  - intros d s _ Hsql Htee Hfound. split; [by apply restore_all_found|].
    apply rerun_lines_entries.
Qed.

(** The shell of a second run on the host the first run left. *)
Definition second_run : restore.Shell RefKernel.t :=
  restore.mkShell (restored one_of_each) [] [].

Lemma all_found_one_of_each : all_found one_of_each (restore.host second_run).
Proof.
  unfold all_found.
  assert (Hplanned : planned one_of_each (restore.host second_run) =
            [restore.create_namespace_ "ns1";
             restore.create_bridge_ "br0" "ns1";
             restore.create_veth_ "v0" "v1" EmptyString "ns1";
             restore.add_ip_address_ "v0" "10.0.0.1/24" EmptyString;
             restore.add_route_ "10.1.0.0/16" EmptyString "v0" EmptyString;
             restore.add_bridge_port_ "br0" "v1" "ns1";
             restore.create_gre_tunnel_ "gre1" "10.0.0.1" "10.0.0.2" "0" "64" EmptyString])
    by (vm_compute; reflexivity).
  rewrite Hplanned.
  repeat (apply Forall_cons_2; [by vm_compute|]). apply Forall_nil_2.
Qed.

Lemma restore_rerun_witness :
  separable one_of_each ∧ all_found one_of_each (restore.host second_run) ∧
  restore.restore_all one_of_each second_run =
    (restore.mkShell (restore.host second_run)
       (restore.LOG_FILE second_run ++ rerun_lines one_of_each (restore.host second_run))
       (restore.invoked second_run ++ planned one_of_each (restore.host second_run)),
     restore.Done).
Proof.
  split; [exact separable_one_of_each|]. split; [exact all_found_one_of_each|].
  destruct (@restore_rerun RefKernel.t RefIp.tools) as (_ & _ & _ & _ & _ & _ & _ & _ & Hrun).
  destruct (Hrun one_of_each second_run separable_one_of_each (fun _ _ => eq_refl) eq_refl
              all_found_one_of_each) as [Hdone _].
  exact Hdone.
Defined.

(** ** The scoped switch of [RunInNamespace] and [Create] *)

Section context_facts.
Import RefKernel.

(** The descriptor [h] is open on [o] and was handed out before. *)
Definition kept (h : Z) (o : fdobj) (k : t) : Prop :=
  fds k !! h = Some o ∧ h < next_fd k.

(** [c] touches neither the namespace of the thread nor its descriptors. *)
Definition inert {A} (c : M t A) : Prop :=
  ∀ k, cur (c k).1 = cur k ∧ fds (c k).1 = fds k ∧ next_fd (c k).1 = next_fd k.

Lemma inert_prim {A} c (body : M t A) : inert body → inert (prim c body).
Proof.
  intros Hbody k. unfold prim.
  destruct (pop_fault (faults k)) as [[|] fs]; simpl; [done|].
  destruct (Hbody (set_faults fs k)) as (? & ? & ?).
  by destruct (body (set_faults fs k)).
Qed.

Lemma inert_kept {A} (c : M t A) h o k : inert c → kept h o k → kept h o (c k).1.
Proof. intros Hc [Hfd Hlt]. destruct (Hc k) as (_ & Hfds & Hnext). split; congruence. Qed.

Lemma inert_in_ns {A} h (body : nsid → M t A) :
  (∀ n, inert (body n)) → inert (in_ns h body).
Proof. intros Hbody k. unfold in_ns. destruct (ns_of h k); [apply Hbody|done]. Qed.

Lemma inert_os_MkdirAll path : inert (os_MkdirAll path).
Proof. by apply inert_prim. Qed.

Lemma inert_os_Create path : inert (os_Create path).
Proof. apply inert_prim. intros k. by repeat case_match. Qed.

Lemma inert_os_Remove path : inert (os_Remove path).
Proof. apply inert_prim. intros k. by repeat case_match. Qed.

Lemma inert_syscall_Mount source target : inert (syscall_Mount source target).
Proof. apply inert_prim. intros k. by repeat case_match. Qed.

Lemma inert_LinkByName h name : inert (LinkByName h name).
Proof. apply inert_prim, inert_in_ns. intros n k. by case_match. Qed.

Lemma inert_LinkSetUp h l : inert (LinkSetUp h l).
Proof.
  apply inert_prim. unfold set_up. apply inert_in_ns. intros n k. by case_match.
Qed.

Lemma netns_Get_capture k :
  cur (netns_Get k).1 = cur k ∧
  ∀ h, (netns_Get k).2 = Ok h → kept h (FdNetns (cur k)) (netns_Get k).1.
Proof.
  unfold netns_Get, prim, open_fd, kept.
  destruct (pop_fault (faults k)) as [[|] fs]; simpl; [done|].
  split; [done|]. intros h [= <-]. rewrite lookup_insert_eq. split; [done|lia].
Qed.

Lemma open_fd_kept o' h o k :
  kept h o k →
  cur (open_fd o' k).1 = cur k ∧ kept h o (open_fd o' k).1 ∧
  ∀ h', (open_fd o' k).2 = Ok h' → h' ≠ h.
Proof.
  intros [Hfd Hlt]. unfold open_fd, kept. simpl. split; [done|]. split.
  - rewrite lookup_insert_ne by lia. split; [done|lia].
  - intros h' [= <-]. lia.
Qed.

Lemma netns_GetFromPath_kept path h o k :
  kept h o k →
  cur (netns_GetFromPath path k).1 = cur k ∧
  kept h o (netns_GetFromPath path k).1 ∧
  ∀ h', (netns_GetFromPath path k).2 = Ok h' → h' ≠ h.
Proof.
  intros Hk. unfold netns_GetFromPath, prim.
  destruct (pop_fault (faults k)) as [[|] fs]; simpl; [done|].
  assert (Hk' : kept h o (set_faults fs k)) by done.
  destruct (files k !! path) as [[n|]|]; simpl; [| |done].
  - destruct (open_fd_kept (FdNetns n) h o _ Hk') as (? & ? & ?). done.
  - destruct (open_fd_kept FdFile h o _ Hk') as (? & ? & ?). done.
Qed.

Lemma netns_New_kept h o k :
  kept h o k →
  kept h o (netns_New k).1 ∧
  (is_ok (netns_New k).2 = false → cur (netns_New k).1 = cur k) ∧
  ∀ h', (netns_New k).2 = Ok h' → h' ≠ h.
Proof.
  intros [Hfd Hlt]. unfold netns_New, prim, open_fd, kept.
  destruct (pop_fault (faults k)) as [[|] fs]; simpl; [done|].
  rewrite lookup_insert_ne by lia. split; [split; [done|lia]|].
  split; [done|]. intros h' [= <-]. lia.
Qed.

Lemma netns_Set_switch (h : Z) k :
  fds (netns_Set h k).1 = fds k ∧ next_fd (netns_Set h k).1 = next_fd k ∧
  (is_ok (netns_Set h k).2 = false → cur (netns_Set h k).1 = cur k) ∧
  (∀ n, fds k !! h = Some (FdNetns n) → is_ok (netns_Set h k).2 = true →
        cur (netns_Set h k).1 = n).
Proof.
  unfold netns_Set, prim.
  destruct (pop_fault (faults k)) as [[|] fs]; simpl; [done|].
  unfold NsHandle in *.
  destruct (fds k !! h) as [[n| |]|]; simpl; try done.
  split_and!; try done. by intros ? [= ->].
Qed.

Lemma NsHandle_Close_kept (h' h : Z) o k :
  cur (NsHandle_Close h' k).1 = cur k ∧
  (h' ≠ h → kept h o k → kept h o (NsHandle_Close h' k).1).
Proof.
  unfold NsHandle_Close, prim, close_fd, kept.
  destruct (pop_fault (faults k)) as [[|] fs]; simpl; [done|].
  unfold NsHandle in *.
  destruct (fds k !! h') as [o'|] eqn:Hh'; simpl.
  - split; [done|]. intros Hne [Hfd Hlt]. by rewrite lookup_delete_ne.
  - split; [done|]. by intros Hne [Hfd Hlt].
Qed.

(** Switching back: the thread is in the captured namespace again, or the
    switch itself failed. *)
Lemma switch_back (h : Z) n k :
  fds k !! h = Some (FdNetns n) →
  (is_ok (netns_Set h k).2 = true ∧ cur (netns_Set h k).1 = n) ∨
  (∃ e, (netns_Set h k).2 = Fail e).
Proof.
  intros Hfd. destruct (netns_Set_switch h k) as (_ & _ & _ & Hok).
  destruct (netns_Set h k).2 as [[]|e] eqn:Hr.
  - left. split; [done|]. by apply Hok.
  - right. by exists e.
Qed.

End context_facts.

Section context_trace.
Import RefKernel.

(** [op] is one call into the host: it appends its record to the trace. *)
Definition one_call {A} (c : Call) (op : M t A) : Prop :=
  ∀ k, trace (op k).1 = trace k ++ [(c, is_ok (op k).2)].

Lemma one_call_prim {A} c (body : M t A) :
  (∀ k, trace (body k).1 = trace k) → one_call c (prim c body).
Proof.
  intros Hbody k. unfold prim.
  destruct (pop_fault (faults k)) as [[|] fs]; simpl; [done|].
  specialize (Hbody (set_faults fs k)).
  destruct (body (set_faults fs k)) as [k' r]. simpl in *. by rewrite Hbody.
Qed.

Lemma in_ns_trace {A} h (body : nsid → M t A) :
  (∀ n k, trace (body n k).1 = trace k) → ∀ k, trace (in_ns h body k).1 = trace k.
Proof. intros Hbody k. unfold in_ns. destruct (ns_of h k); [apply Hbody|done]. Qed.

Lemma one_call_netns_Get : one_call C_netns_Get netns_Get.
Proof. by apply one_call_prim. Qed.

Lemma one_call_netns_Set h : one_call (C_netns_Set h) (netns_Set h).
Proof. apply one_call_prim. intros k. by repeat case_match. Qed.

Lemma one_call_netns_New : one_call C_netns_New netns_New.
Proof. by apply one_call_prim. Qed.

Lemma one_call_netns_GetFromPath path :
  one_call (C_netns_GetFromPath path) (netns_GetFromPath path).
Proof. apply one_call_prim. intros k. by repeat case_match. Qed.

Lemma one_call_NsHandle_Close h : one_call (C_NsHandle_Close h) (NsHandle_Close h).
Proof. apply one_call_prim. intros k. unfold close_fd. by case_match. Qed.

Lemma one_call_os_MkdirAll path : one_call (C_os_MkdirAll path) (os_MkdirAll path).
Proof. by apply one_call_prim. Qed.

Lemma one_call_os_Create path : one_call (C_os_Create path) (os_Create path).
Proof. apply one_call_prim. intros k. by repeat case_match. Qed.

Lemma one_call_os_Remove path : one_call (C_os_Remove path) (os_Remove path).
Proof. apply one_call_prim. intros k. by repeat case_match. Qed.

Lemma one_call_syscall_Mount source target :
  one_call (C_Mount source target) (syscall_Mount source target).
Proof. apply one_call_prim. intros k. by repeat case_match. Qed.

Lemma one_call_LinkByName h name : one_call (C_LinkByName h name) (LinkByName h name).
Proof. apply one_call_prim, in_ns_trace. intros n k. by case_match. Qed.

Lemma one_call_LinkSetUp h l : one_call (C_LinkSetUp h l) (LinkSetUp h l).
Proof.
  apply one_call_prim. unfold set_up. apply in_ns_trace. intros n k. by case_match.
Qed.

(** The first [n] calls to come are not failed by the host. *)
Definition calm (n : nat) (k : t) : Prop := Forall (fun b => b = false) (take n (faults k)).

Lemma calm_pop n (fs : list bool) :
  Forall (fun b => b = false) (take (S n) fs) →
  ∃ fs', pop_fault fs = (false, fs') ∧ Forall (fun b => b = false) (take n fs').
Proof.
  destruct fs as [|b fs]; simpl.
  - intros _. exists []. split; [done|]. by rewrite take_nil.
  - intros [-> Hrest]%Forall_cons. by exists fs.
Qed.

Lemma netns_Get_ok n k :
  calm (S n) k →
  ∃ k1, netns_Get k = (k1, Ok (next_fd k)) ∧ cur k1 = cur k ∧ files k1 = files k ∧
        kept (next_fd k) (FdNetns (cur k)) k1 ∧ calm n k1.
Proof.
  intros (fs & Hpop & Hcalm)%calm_pop. unfold netns_Get, prim, open_fd. rewrite Hpop. simpl.
  eexists. split; [done|]. simpl. split_and!; try done.
  split; simpl; [by rewrite lookup_insert_eq|lia].
Qed.

Lemma netns_GetFromPath_ok n path ns k :
  calm (S n) k → files k !! path = Some (Some ns) →
  ∃ k1, netns_GetFromPath path k = (k1, Ok (next_fd k)) ∧ cur k1 = cur k ∧
        fds k1 !! next_fd k = Some (FdNetns ns) ∧
        (∀ h o, kept h o k → kept h o k1 ∧ h ≠ next_fd k) ∧ calm n k1.
Proof.
  intros (fs & Hpop & Hcalm)%calm_pop Hfile.
  unfold netns_GetFromPath, prim, open_fd. rewrite Hpop. simpl. rewrite Hfile. simpl.
  eexists. split; [done|]. simpl. split_and!; try done.
  - by rewrite lookup_insert_eq.
  - intros h o [Hfd Hlt]. split; [|lia]. split; simpl; [|lia].
    by rewrite lookup_insert_ne by lia.
Qed.

Lemma netns_Set_ok n (h : Z) ns k :
  calm (S n) k → fds k !! h = Some (FdNetns ns) →
  ∃ k1, netns_Set h k = (k1, Ok tt) ∧ cur k1 = ns ∧ fds k1 = fds k ∧
        next_fd k1 = next_fd k ∧ calm n k1.
Proof.
  intros (fs & Hpop & Hcalm)%calm_pop Hfd.
  unfold netns_Set, prim. rewrite Hpop. simpl. unfold NsHandle in *. rewrite Hfd. simpl.
  eexists. split; [done|]. by simpl.
Qed.

End context_trace.

Lemma RunInNamespace_context (namespaceName : string) (functionToExecute : M RefKernel.t unit)
  (k : RefKernel.t) :
  (∀ k0 h o, kept h o k0 → RefKernel.fds (functionToExecute k0).1 !! h = Some o) →
  RefKernel.cur (netns.Manager.RunInNamespace namespaceName functionToExecute k).1
    = RefKernel.cur k ∨
  ∃ e, (netns.Manager.RunInNamespace namespaceName functionToExecute k).2
         = Fail (EWrap "failed to restore namespace" e).
Proof.
  intros Hfn.
  unfold netns.Manager.RunInNamespace, netns.Manager.GetHandle, bind, wrap, defer.
  change (@netns_Get RefKernel.t RefKernel.sys) with RefKernel.netns_Get.
  change (@netns_Set RefKernel.t RefKernel.sys) with RefKernel.netns_Set.
  change (@netns_GetFromPath RefKernel.t RefKernel.sys) with RefKernel.netns_GetFromPath.
  change (@NsHandle_Close RefKernel.t RefKernel.sys) with RefKernel.NsHandle_Close.
  destruct (netns_Get_capture k) as [Hcur1 Hkept1].
  destruct (RefKernel.netns_Get k) as [k1 [originalNamespace|e1]]; simpl in *; [|by left].
  specialize (Hkept1 _ eq_refl).
  destruct (netns_GetFromPath_kept (netns.Join netns.netnsPath namespaceName) _ _ _ Hkept1)
    as (Hcur2 & Hkept2 & Hne2).
  destruct (RefKernel.netns_GetFromPath _ k1) as [k2 [targetNamespace|e2]]; simpl in *.
  2:{ left. destruct (NsHandle_Close_kept originalNamespace originalNamespace
                        (RefKernel.FdNetns (RefKernel.cur k)) k2) as [-> _]. congruence. }
  specialize (Hne2 _ eq_refl).
  destruct (netns_Set_switch targetNamespace k2) as (Hfds3 & Hnext3 & Hfail3 & _).
  destruct (RefKernel.netns_Set targetNamespace k2) as [k3 [[]|e3]]; simpl in *.
  2:{ left.
      destruct (NsHandle_Close_kept originalNamespace originalNamespace
                  (RefKernel.FdNetns (RefKernel.cur k))
                  (RefKernel.NsHandle_Close targetNamespace k3).1) as [-> _].
      destruct (NsHandle_Close_kept targetNamespace originalNamespace
                  (RefKernel.FdNetns (RefKernel.cur k)) k3) as [-> _].
      rewrite Hfail3 by done. congruence. }
  assert (Hkept3 : kept originalNamespace (RefKernel.FdNetns (RefKernel.cur k)) k3).
  { destruct Hkept2. split; congruence. }
  pose proof (Hfn k3 _ _ Hkept3) as Hfd4.
  destruct (functionToExecute k3) as [k4 executionError]; simpl in *.
  destruct (switch_back _ _ _ Hfd4) as [[Hok Hcur5]|[e5 Hfail5]].
  - left. destruct (RefKernel.netns_Set originalNamespace k4) as [k5 [[]|e5]];
      simpl in *; [|done].
    destruct (NsHandle_Close_kept originalNamespace originalNamespace
                (RefKernel.FdNetns (RefKernel.cur k))
                (RefKernel.NsHandle_Close targetNamespace k5).1) as [-> _].
    by destruct (NsHandle_Close_kept targetNamespace originalNamespace
                   (RefKernel.FdNetns (RefKernel.cur k)) k5) as [-> _].
  - right. exists e5.
    destruct (RefKernel.netns_Set originalNamespace k4) as [k5 r5]; simpl in *.
    by subst r5.
Qed.

Lemma NsHandle_Close_cur (h : Z) (k : RefKernel.t) :
  RefKernel.cur (RefKernel.NsHandle_Close h k).1 = RefKernel.cur k.
Proof. by destruct (NsHandle_Close_kept h h RefKernel.FdFile k). Qed.

(** When the target exists and the host fails none of the three calls
    that lead into it, the function runs with the thread in the target. *)
Lemma RunInNamespace_runs (namespaceName : string) (functionToExecute : M RefKernel.t unit)
  (k : RefKernel.t) (target : RefKernel.nsid) :
  (∀ k0 h o, kept h o k0 → RefKernel.fds (functionToExecute k0).1 !! h = Some o) →
  calm 3 k →
  RefKernel.files k !! netns.Join netns.netnsPath namespaceName = Some (Some target) →
  ∃ k3, RefKernel.cur k3 = target ∧
    (((netns.Manager.RunInNamespace namespaceName functionToExecute k).2
        = (functionToExecute k3).2 ∧
      RefKernel.cur (netns.Manager.RunInNamespace namespaceName functionToExecute k).1
        = RefKernel.cur k) ∨
     (∃ e, (netns.Manager.RunInNamespace namespaceName functionToExecute k).2
             = Fail (EWrap "failed to restore namespace" e) ∧
           RefKernel.cur (netns.Manager.RunInNamespace namespaceName functionToExecute k).1
             = RefKernel.cur (functionToExecute k3).1)).
Proof.
  intros Hfn Hcalm Hfile.
  unfold netns.Manager.RunInNamespace, netns.Manager.GetHandle, bind, wrap, defer.
  change (@netns_Get RefKernel.t RefKernel.sys) with RefKernel.netns_Get.
  change (@netns_Set RefKernel.t RefKernel.sys) with RefKernel.netns_Set.
  change (@netns_GetFromPath RefKernel.t RefKernel.sys) with RefKernel.netns_GetFromPath.
  change (@NsHandle_Close RefKernel.t RefKernel.sys) with RefKernel.NsHandle_Close.
  destruct (netns_Get_ok 2 k Hcalm) as (k1 & -> & Hcur1 & Hfiles1 & Hkept1 & Hcalm1).
  rewrite <- Hfiles1 in Hfile.
  destruct (netns_GetFromPath_ok 1 _ target k1 Hcalm1 Hfile)
    as (k2 & -> & Hcur2 & Hfd2 & Hkeep2 & Hcalm2).
  destruct (Hkeep2 _ _ Hkept1) as [Hkept2 Hne2].
  destruct (netns_Set_ok 0 _ target k2 Hcalm2 Hfd2)
    as (k3 & -> & Hcur3 & Hfds3 & Hnext3 & _).
  exists k3. split; [done|].
  assert (Hkept3 : kept (RefKernel.next_fd k) (RefKernel.FdNetns (RefKernel.cur k)) k3).
  { destruct Hkept2. split; congruence. }
  pose proof (Hfn k3 _ _ Hkept3) as Hfd4.
  destruct (functionToExecute k3) as [k4 executionError]; simpl in *.
  destruct (netns_Set_switch (RefKernel.next_fd k) k4) as (_ & _ & Hfail5 & _).
  destruct (switch_back _ _ _ Hfd4) as [[Hok Hcur5]|[e5 Hfailed]].
  - left. destruct (RefKernel.netns_Set (RefKernel.next_fd k) k4) as [k5 [[]|e5]];
      simpl in *; [|done].
    by rewrite !NsHandle_Close_cur.
  - right. exists e5.
    destruct (RefKernel.netns_Set (RefKernel.next_fd k) k4) as [k5 r5]; simpl in *.
    subst r5. simpl. split; [done|]. rewrite !NsHandle_Close_cur. by apply Hfail5.
Qed.

(** [Create] switches back on every path that left the namespace of the
    thread: afterwards the thread is where it was, or a switch back is in
    the trace as failed. *)
Lemma Create_switches_back (namespaceName : string) (k : RefKernel.t) :
  ∃ calls,
    RefKernel.trace (netns.Manager.Create namespaceName k).1 = RefKernel.trace k ++ calls ∧
    (RefKernel.cur (netns.Manager.Create namespaceName k).1 = RefKernel.cur k ∨
     ∃ h, (RefKernel.C_netns_Set h, false) ∈ calls).
Proof.
  unfold netns.Manager.Create, netns.mountBind, bind, wrap, defer, ignore, throw.
  change (@netns_Get RefKernel.t RefKernel.sys) with RefKernel.netns_Get.
  change (@netns_Set RefKernel.t RefKernel.sys) with RefKernel.netns_Set.
  change (@netns_New RefKernel.t RefKernel.sys) with RefKernel.netns_New.
  change (@NsHandle_Close RefKernel.t RefKernel.sys) with RefKernel.NsHandle_Close.
  change (@os_MkdirAll RefKernel.t RefKernel.sys) with RefKernel.os_MkdirAll.
  change (@os_Create RefKernel.t RefKernel.sys) with RefKernel.os_Create.
  change (@os_Remove RefKernel.t RefKernel.sys) with RefKernel.os_Remove.
  change (@syscall_Mount RefKernel.t RefKernel.sys) with RefKernel.syscall_Mount.
  change (@LinkByName RefKernel.t RefKernel.sys) with RefKernel.LinkByName.
  change (@LinkSetUp RefKernel.t RefKernel.sys) with RefKernel.LinkSetUp.
  set (saved := RefKernel.FdNetns (RefKernel.cur k)).
  (* the switch back and the deferred close, from any state that kept the handle *)
  assert (Hback : ∀ (originalNamespace : Z) (k0 : RefKernel.t) (before : list _),
            RefKernel.trace k0 = RefKernel.trace k ++ before →
            RefKernel.fds k0 !! originalNamespace = Some saved →
            ∃ calls,
              RefKernel.trace
                (RefKernel.NsHandle_Close originalNamespace
                   (RefKernel.netns_Set originalNamespace k0).1).1
                = RefKernel.trace k ++ calls ∧
              (RefKernel.cur
                 (RefKernel.NsHandle_Close originalNamespace
                    (RefKernel.netns_Set originalNamespace k0).1).1 = RefKernel.cur k ∨
               ∃ h, (RefKernel.C_netns_Set h, false) ∈ calls)).
  { intros originalNamespace k0 before Htrace Hfd.
    pose proof (one_call_netns_Set originalNamespace k0) as Hset.
    pose proof (one_call_NsHandle_Close originalNamespace
                  (RefKernel.netns_Set originalNamespace k0).1) as Hclose.
    rewrite NsHandle_Close_cur. rewrite Hclose, Hset, Htrace, <- !app_assoc.
    eexists. split; [done|].
    destruct (switch_back _ _ _ Hfd) as [[_ Hcur]|[e Hfailed]]; [by left|].
    right. exists originalNamespace. rewrite Hfailed. simpl. set_solver. }
  pose proof (one_call_netns_Get k) as Ht1.
  destruct (netns_Get_capture k) as [Hcur1 Hkept1].
  destruct (RefKernel.netns_Get k) as [k1 [originalNamespace|e1]]; simpl in *.
  2:{ eexists. split; [done|]. by left. }
  specialize (Hkept1 _ eq_refl). fold saved in Hkept1.
  pose proof (one_call_os_MkdirAll netns.netnsPath k1) as Ht2.
  pose proof (inert_kept _ _ _ _ (inert_os_MkdirAll netns.netnsPath) Hkept1) as Hkept2.
  destruct (inert_os_MkdirAll netns.netnsPath k1) as (Hcur2 & _).
  destruct (RefKernel.os_MkdirAll netns.netnsPath k1) as [k2 [[]|e2]]; simpl in *.
  2:{ pose proof (one_call_NsHandle_Close originalNamespace k2) as Hclose.
      rewrite NsHandle_Close_cur, Hclose, Ht2, Ht1, <- !app_assoc.
      eexists. split; [done|]. left. congruence. }
  pose proof (one_call_netns_New k2) as Ht3.
  destruct (netns_New_kept _ _ _ Hkept2) as (Hkept3 & Hfail3 & Hne3).
  destruct (RefKernel.netns_New k2) as [k3 [newNamespace|e3]]; simpl in *.
  2:{ pose proof (one_call_NsHandle_Close originalNamespace k3) as Hclose.
      rewrite NsHandle_Close_cur, Hclose, Ht3, Ht2, Ht1, <- !app_assoc.
      eexists. split; [done|]. left. rewrite Hfail3 by done. congruence. }
  specialize (Hne3 _ eq_refl).
  pose proof (one_call_os_Create (netns.Join netns.netnsPath namespaceName) k3) as Ht4.
  pose proof (inert_kept _ _ _ _
                (inert_os_Create (netns.Join netns.netnsPath namespaceName)) Hkept3) as Hkept4.
  destruct (RefKernel.os_Create _ k3) as [k4 [[]|e4]]; simpl in *.
  2:{ pose proof (one_call_NsHandle_Close newNamespace k4) as Ht5.
      destruct (NsHandle_Close_kept newNamespace originalNamespace saved k4) as [_ Hkept5].
      destruct (Hkept5 Hne3 Hkept4) as [Hfd5 _].
      apply (Hback originalNamespace _ _ ltac:(rewrite Ht5, Ht4, Ht3, Ht2, Ht1, <- !app_assoc;
                                               reflexivity) Hfd5). }
  pose proof (one_call_syscall_Mount ("/proc/self/fd/" +:+ pretty newNamespace)
                (netns.Join netns.netnsPath namespaceName) k4) as Ht5.
  pose proof (inert_kept _ _ _ _
                (inert_syscall_Mount ("/proc/self/fd/" +:+ pretty newNamespace)
                   (netns.Join netns.netnsPath namespaceName)) Hkept4) as Hkept5.
  destruct (RefKernel.syscall_Mount _ _ k4) as [k5 [[]|e5]]; simpl in *.
  2:{ pose proof (one_call_os_Remove (netns.Join netns.netnsPath namespaceName) k5) as Ht6.
      pose proof (inert_kept _ _ _ _
                    (inert_os_Remove (netns.Join netns.netnsPath namespaceName)) Hkept5)
        as Hkept6.
      pose proof (one_call_NsHandle_Close newNamespace
                    (RefKernel.os_Remove (netns.Join netns.netnsPath namespaceName) k5).1)
        as Ht7.
      destruct (NsHandle_Close_kept newNamespace originalNamespace saved
                  (RefKernel.os_Remove (netns.Join netns.netnsPath namespaceName) k5).1)
        as [_ Hkept7].
      destruct (Hkept7 Hne3 Hkept6) as [Hfd7 _].
      apply (Hback originalNamespace _ _
               ltac:(rewrite Ht7, Ht6, Ht5, Ht4, Ht3, Ht2, Ht1, <- !app_assoc; reflexivity)
               Hfd7). }
  set (loopback := fun s : RefKernel.t =>
         match RefKernel.LinkByName pkgHandle "lo" s with
         | (s', Ok a) => RefKernel.LinkSetUp pkgHandle a s'
         | (s', Fail e) => (s', Fail e)
         end).
  assert (Hloop : kept originalNamespace saved (loopback k5).1 ∧
                  ∃ l, RefKernel.trace (loopback k5).1 = RefKernel.trace k5 ++ l).
  { unfold loopback.
    pose proof (inert_kept _ _ _ _ (inert_LinkByName pkgHandle "lo") Hkept5) as Hl.
    pose proof (one_call_LinkByName pkgHandle "lo" k5) as Htl.
    destruct (RefKernel.LinkByName pkgHandle "lo" k5) as [k' [l|e]]; simpl in *.
    - split; [by apply (inert_kept _ _ _ _ (inert_LinkSetUp pkgHandle l))|].
      rewrite (one_call_LinkSetUp pkgHandle l k'), Htl, <- app_assoc. by eexists.
    - split; [done|by eexists]. }
  destruct Hloop as [Hkept6 [l6 Ht6]].
  pose proof (one_call_NsHandle_Close newNamespace (loopback k5).1) as Ht7.
  destruct (NsHandle_Close_kept newNamespace originalNamespace saved (loopback k5).1)
    as [_ Hkept7].
  destruct (Hkept7 Hne3 Hkept6) as [Hfd7 _].
  assert (Hbefore : RefKernel.trace (RefKernel.NsHandle_Close newNamespace (loopback k5).1).1
                    = RefKernel.trace k ++
                        ([(RefKernel.C_netns_Get, true)] ++
                         [(RefKernel.C_os_MkdirAll netns.netnsPath, true)] ++
                         [(RefKernel.C_netns_New, true)] ++
                         [(RefKernel.C_os_Create (netns.Join netns.netnsPath namespaceName),
                           true)] ++
                         [(RefKernel.C_Mount ("/proc/self/fd/" +:+ pretty newNamespace)
                             (netns.Join netns.netnsPath namespaceName), true)] ++
                         l6 ++
                         [(RefKernel.C_NsHandle_Close newNamespace,
                           is_ok (RefKernel.NsHandle_Close newNamespace (loopback k5).1).2)])).
  { rewrite Ht7, Ht6, Ht5, Ht4, Ht3, Ht2, Ht1, <- !app_assoc. reflexivity. }
  destruct (Hback originalNamespace _ _ Hbefore Hfd7) as (calls & Htrace & Hcur).
  exists calls.
  destruct (RefKernel.netns_Set originalNamespace _) as [k8 [[]|e8]]; simpl in *; done.
Qed.

(** The scoped switch as the specification words it: whatever happens, the
    thread is back in the namespace it was in at entry. *)
Definition context_restored (namespaceName : string) (functionToExecute : M RefKernel.t unit)
  (k : RefKernel.t) : Prop :=
  RefKernel.cur (netns.Manager.RunInNamespace namespaceName functionToExecute k).1
    = RefKernel.cur k.

(** A host with the namespace [ns1]. *)
Definition with_ns1 : RefKernel.t := (netns.Manager.Create "ns1" RefKernel.boot).1.

(** The same host, on which the fourth call into the system fails. *)
Definition fourth_call_fails : RefKernel.t :=
  RefKernel.set_faults [false; false; false; true] with_ns1.

(** C9, as stated, fails.  [RunInNamespace] captures the namespace, opens
    [ns1] and enters it; the function runs; then the switch back fails.
    [RunInNamespace] returns the error of the switch and the thread stays in
    [ns1]. *)
Lemma context_restored_fails :
  ¬ context_restored "ns1" (ret tt) fourth_call_fails ∧
  RefKernel.cur fourth_call_fails = 0 ∧
  RefKernel.cur (netns.Manager.RunInNamespace "ns1" (ret tt) fourth_call_fails).1 = 1 ∧
  (netns.Manager.RunInNamespace "ns1" (ret tt) fourth_call_fails).2
    = Fail (EWrap "failed to restore namespace" RefKernel.EIO).
Proof.
  split_and!.
  - unfold context_restored. by vm_compute.
  - by vm_compute.
  - by vm_compute.
  - by vm_compute.
Qed.

(** C9 (amended).  [RunInNamespace] captures the namespace of the thread,
    enters the target, runs the function there and switches back on every
    path, also when the function returns an error; the function has to leave
    open the descriptors that were open when it started.  When the target
    exists and the host fails none of the three calls that lead into it, the
    function runs with the thread in the target, and either the thread ends
    in the captured namespace and the result is the function's own, or the
    switch back failed: then the result is "failed to restore namespace" and
    the thread is where the function left it.  Whatever fails, the thread
    ends in the captured namespace unless that error is returned.  [Create]
    switches back on every path that left the namespace of the thread,
    also on its two error paths: afterwards the thread is where it was
    unless a switch back failed. *)
Theorem scoped_switch (namespaceName : string) (functionToExecute : M RefKernel.t unit)
  (k : RefKernel.t) :
  (∀ k0 h o, kept h o k0 → RefKernel.fds (functionToExecute k0).1 !! h = Some o) →
  (RefKernel.cur (netns.Manager.RunInNamespace namespaceName functionToExecute k).1
     = RefKernel.cur k ∨
   ∃ e, (netns.Manager.RunInNamespace namespaceName functionToExecute k).2
          = Fail (EWrap "failed to restore namespace" e)) ∧
  (∀ target,
     calm 3 k →
     RefKernel.files k !! netns.Join netns.netnsPath namespaceName = Some (Some target) →
     ∃ k3, RefKernel.cur k3 = target ∧
       (((netns.Manager.RunInNamespace namespaceName functionToExecute k).2
           = (functionToExecute k3).2 ∧
         RefKernel.cur (netns.Manager.RunInNamespace namespaceName functionToExecute k).1
           = RefKernel.cur k) ∨
        (∃ e, (netns.Manager.RunInNamespace namespaceName functionToExecute k).2
                = Fail (EWrap "failed to restore namespace" e) ∧
              RefKernel.cur
                (netns.Manager.RunInNamespace namespaceName functionToExecute k).1
                = RefKernel.cur (functionToExecute k3).1))) ∧
  (∃ calls,
     RefKernel.trace (netns.Manager.Create namespaceName k).1 = RefKernel.trace k ++ calls ∧
     (RefKernel.cur (netns.Manager.Create namespaceName k).1 = RefKernel.cur k ∨
      ∃ h, (RefKernel.C_netns_Set h, false) ∈ calls)).
Proof.
  intros Hfn. split_and!.
  - by apply RunInNamespace_context.
  - intros target Hcalm Hfile. by apply RunInNamespace_runs.
  - apply Create_switches_back.
Qed.

Lemma scoped_switch_witness :
  (∀ k0 h o, kept h o k0 →
     RefKernel.fds ((throw (EMsg "boom") : M RefKernel.t unit) k0).1 !! h = Some o) ∧
  calm 3 with_ns1 ∧
  RefKernel.files with_ns1 !! netns.Join netns.netnsPath "ns1" = Some (Some 1) ∧
  (netns.Manager.RunInNamespace "ns1" (throw (EMsg "boom")) with_ns1).2
    = Fail (EMsg "boom") ∧
  RefKernel.cur (netns.Manager.RunInNamespace "ns1" (throw (EMsg "boom")) with_ns1).1
    = RefKernel.cur with_ns1.
Proof.
  assert (Hfn : ∀ k0 h o, kept h o k0 →
            RefKernel.fds ((throw (EMsg "boom") : M RefKernel.t unit) k0).1 !! h = Some o).
  { intros k0 h o [Hfd _]. exact Hfd. }
  assert (Hcalm : calm 3 with_ns1) by (vm_compute; constructor).
  assert (Hfile : RefKernel.files with_ns1 !! netns.Join netns.netnsPath "ns1"
                  = Some (Some 1)) by (vm_compute; reflexivity).
  split; [exact Hfn|]. split; [exact Hcalm|]. split; [exact Hfile|].
  destruct (scoped_switch "ns1" (throw (EMsg "boom")) with_ns1 Hfn) as (_ & Hruns & _).
  destruct (Hruns 1 Hcalm Hfile) as (k3 & _ & [[Hresult Hcur]|(e & He & _)]).
  - split; [exact Hresult | exact Hcur].
  - vm_compute in He. discriminate He.
Defined.

(** ** [VethManager.Create] and its cleanup *)

(** The only cleanup of [Create] after a failed move of the peer end is one
    [LinkDel] of the link [LinkAdd] returned, through the handle of the
    namespace the thread is in; what it answers is dropped. *)
Lemma Create_peer_move_fails {K : Type} `{Sys K}
  (interfaceName peerInterfaceName namespaceName peerNamespaceName : string)
  (k k1 k2 k3 : K) (vethPair : Link) (err : error) :
  LinkAdd pkgHandle interfaceName (Veth peerInterfaceName) k = (k1, Ok vethPair) →
  namespaceName ≠ EmptyString →
  netns.VethManager.moveToNamespace interfaceName namespaceName k1 = (k2, Ok tt) →
  peerNamespaceName ≠ EmptyString →
  netns.VethManager.moveToNamespace peerInterfaceName peerNamespaceName k2 = (k3, Fail err) →
  netns.VethManager.Create interfaceName peerInterfaceName namespaceName peerNamespaceName k
    = ((LinkDel pkgHandle vethPair k3).1, Fail err).
Proof.
  intros Hadd Hns Hmove Hpeer Hfail.
  unfold netns.VethManager.Create, bind, wrap, ignore, throw.
  rewrite Hadd. rewrite !bool_decide_eq_true_2 by done.
  by rewrite Hmove, Hfail.
Qed.

Definition names_and_namespaces (k : RefKernel.t) : list (string * RefKernel.nsid) :=
  (fun l => (RefKernel.l_name l, RefKernel.l_ns l)) <$> RefKernel.links k.

(** C10.  On a host with the namespace [ns1] and no namespace [missing],
    [Create "v0" "v1" "ns1" "missing"] makes the pair, moves [v0] into
    [ns1], fails to open [missing], asks for the deletion of the pair in
    the host namespace, where [v0] no longer is, and returns the error of
    the move: both ends stay, [v0] in [ns1] and [v1] on the host.  When it is
    the first move that fails, the deletion finds the pair and removes it. *)
Theorem Create_leaves_moved_pair :
  (netns.VethManager.Create "v0" "v1" "ns1" "missing" with_ns1).2
    = Fail (EWrap ("failed to get namespace " +:+ quote "missing") ENOENT) ∧
  names_and_namespaces with_ns1 = [("lo", 0); ("lo", 1)] ∧
  names_and_namespaces (netns.VethManager.Create "v0" "v1" "ns1" "missing" with_ns1).1
    = [("lo", 0); ("lo", 1); ("v1", 0); ("v0", 1)] ∧
  last (RefKernel.trace (netns.VethManager.Create "v0" "v1" "ns1" "missing" with_ns1).1)
    = Some (RefKernel.C_LinkDel pkgHandle (mkLink 4 "v0"), false) ∧
  (netns.VethManager.Create "v0" "v1" "missing" "ns1" with_ns1).2
    = Fail (EWrap ("failed to get namespace " +:+ quote "missing") ENOENT) ∧
  names_and_namespaces (netns.VethManager.Create "v0" "v1" "missing" "ns1" with_ns1).1
    = [("lo", 0); ("lo", 1)].
Proof. split_and!; by vm_compute. Qed.

(** ** The delete commands *)

Definition empty_store : db.DB := db.mkDB [] [] [] [] [] [] [] ∅ 200 [].

(** The world after [ip add 10.0.0.1/24 --interface lo] on a fresh host. *)
Definition address_added : cli.World RefKernel.t :=
  (cli.ipAddCmd "10.0.0.1/24" "lo" EmptyString
     (cli.mkWorld RefKernel.boot empty_store [] [])).1.

(** C3.  The commands [ip delete] and [route delete] remove the live
    resource and never touch the store: whatever they are given, the store
    after them is the store before them.  After [ip add] and a successful
    [ip delete] of the same address the live address is gone and its record
    is still there. *)
Theorem cli_delete_keeps_record :
  (∀ (K : Type) (H : Sys K) ipAddress ipInterface ipNs (w : cli.World K),
     cli.Repo (cli.ipDeleteCmd ipAddress ipInterface ipNs w).1 = cli.Repo w) ∧
  (∀ (K : Type) (H : Sys K) destinationNetwork routeNs (w : cli.World K),
     cli.Repo (cli.routeDeleteCmd destinationNetwork routeNs w).1 = cli.Repo w) ∧
  RefKernel.addrs (cli.kernel address_added) = [(1, "10.0.0.1/24")] ∧
  (cli.ipDeleteCmd "10.0.0.1/24" "lo" EmptyString address_added).2 = Ok tt ∧
  RefKernel.addrs
    (cli.kernel (cli.ipDeleteCmd "10.0.0.1/24" "lo" EmptyString address_added).1) = [] ∧
  db.ip_addresses
    (cli.Repo (cli.ipDeleteCmd "10.0.0.1/24" "lo" EmptyString address_added).1)
    = [db.IPAddress.mk 1 "lo" None "10.0.0.1/24" 200].
Proof.
  split_and!.
  - intros K H ipAddress ipInterface ipNs w. unfold cli.ipDeleteCmd.
    case_bool_decide; [done|]. unfold bind, cli.sys, cli.Printf, modify.
    by destruct (netns.AddressManager.Delete _ _ _ _) as [k [[]|e]].
  - intros K H destinationNetwork routeNs w.
    unfold cli.routeDeleteCmd, bind, cli.sys, cli.Printf, modify.
    by destruct (netns.RouteManager.Delete _ _ _) as [k [[]|e]].
  - by vm_compute.
  - by vm_compute.
  - by vm_compute.
  - by vm_compute.
Qed.

(** ** The create commands and handlers *)



(** The lookup of the namespace id on the store alone. *)
Definition namespace_id (name : string) (d : db.DB) : db.DB * option Z :=
  if bool_decide (name ≠ EmptyString)
  then match db.Repository.GetNamespaceByName name d with
       | (d, Ok (Some namespaceRecord)) => (d, Some (db.Namespace.ID namespaceRecord))
       | (d, _) => (d, None)
       end
  else (d, None).





Section create_protocol.
Context {K : Type} `{Sys K}.







End create_protocol.


Section create_rollback.
Context {K : Type} `{Sys K}.











End create_rollback.






(** A store that already holds the namespace [a]. *)
Definition holds_a : db.DB :=
  db.mkDB [db.Namespace.mk 1 "a" 100 EmptyString] [] [] [] [] [] [] ∅ 200 [].





(** * Further properties of the code *)

(** ** The repository *)

(** The tables and the sequence counters of two stores agree; the fault
    bits still to come may differ. *)
Definition same_rows (d d' : db.DB) : Prop :=
  db.namespaces d' = db.namespaces d ∧ db.veth_pairs d' = db.veth_pairs d ∧
  db.ip_addresses d' = db.ip_addresses d ∧ db.routes d' = db.routes d ∧
  db.bridges d' = db.bridges d ∧ db.bridge_ports d' = db.bridge_ports d ∧
  db.gre_tunnels d' = db.gre_tunnels d ∧ db.sqlite_sequence d' = db.sqlite_sequence d.

Lemma same_rows_refl d : same_rows d d.
Proof. by repeat split. Qed.

Lemma same_rows_set_faults fs d : same_rows d (db.set_faults fs d).
Proof. by repeat split. Qed.

Lemma max_id_bound (ids : list Z) (x : Z) : x ∈ ids → (x ≤ db.max_id ids)%Z.
Proof.
  induction ids as [|y ids IH]; [by intros ?%elem_of_nil|].
  intros [->|Hin]%elem_of_cons; simpl; [lia|]. specialize (IH Hin). lia.
Qed.

Lemma next_id_fresh (table : string) (ids : list Z) (d : db.DB) (x : Z) :
  x ∈ ids → x < db.next_id table ids d.
Proof. intros Hin%max_id_bound. unfold db.next_id. lia. Qed.


Lemma find_app_last {A} (P : A → bool) (l : list A) (x : A) :
  (∀ y, y ∈ l → P y = false) → P x = true → find P (l ++ [x]) = Some x.
Proof.
  intros Hl Hx. induction l as [|y l IH]; simpl; [by rewrite Hx|].
  rewrite (Hl y) by by left. apply IH. intros z Hz. apply Hl. by right.
Qed.

(** X1.  A namespace that [CreateNamespace] reports as created is the new
    last row of the table: it carries the given name and metadata and the
    current time, its id is larger than every id in the table, no other row
    has its name, and the next lookup of the name returns it. *)
Theorem CreateNamespace_round_trip (name metadata : string) (d d' : db.DB)
  (created : option db.Namespace.t) :
  db.Repository.CreateNamespace name metadata d = (d', Ok created) →
  ∃ n, created = Some n ∧
       db.Namespace.Name n = name ∧ db.Namespace.Metadata n = metadata ∧
       db.Namespace.CreatedAt n = db.now d ∧
       db.namespaces d' = db.namespaces d ++ [n] ∧
       (∀ m, m ∈ db.namespaces d → db.Namespace.ID m < db.Namespace.ID n ∧
                                    db.Namespace.Name m ≠ name) ∧
       (∀ fs, pop_fault (db.faults d') = (false, fs) →
              db.Repository.GetNamespaceByName name d' = (db.set_faults fs d', Ok (Some n))).
Proof.
  unfold db.Repository.CreateNamespace, db.Repository.insert_namespace,
    db.Repository.GetNamespace, bind, db.statement, gets.
  destruct (pop_fault (db.faults d)) as [[|] fs1]; simpl; [discriminate|].
  case_bool_decide as Hdup; [discriminate|]. simpl.
  destruct (pop_fault fs1) as [[|] fs2]; simpl; [discriminate|].
  set (id := db.next_id "namespaces" (db.Namespace.ID <$> db.namespaces d)
               (db.set_faults fs1 d)).
  set (row := db.Namespace.mk id name (db.now d) metadata).
  assert (Hfresh : ∀ m, m ∈ db.namespaces d → db.Namespace.ID m < id).
  { intros m Hm. apply next_id_fresh. apply list_elem_of_fmap. by exists m. }
  rewrite (find_app_last _ _ row).
  - intros [= <- <-]. exists row. split_and!; try done.
    + intros m Hm. split; [by apply Hfresh|].
      intros Heq. apply Hdup. apply list_elem_of_fmap. by exists m.
    + intros fs Hpop. unfold db.Repository.GetNamespaceByName, bind, db.statement, gets.
      simpl in *. rewrite Hpop. simpl. f_equal. f_equal.
      apply find_app_last; [|by apply bool_decide_eq_true_2].
      intros m Hm. apply bool_decide_eq_false_2. intros Heq. apply Hdup.
      apply list_elem_of_fmap. by exists m.
  - intros m Hm. apply bool_decide_eq_false_2. specialize (Hfresh m Hm). lia.
  - by apply bool_decide_eq_true_2.
Qed.

Lemma CreateNamespace_round_trip_witness :
  db.Repository.CreateNamespace "b" "note" holds_a =
    (db.mkDB [db.Namespace.mk 1 "a" 100 EmptyString; db.Namespace.mk 2 "b" 200 "note"]
       [] [] [] [] [] [] {["namespaces" := 2]} 200 [],
     Ok (Some (db.Namespace.mk 2 "b" 200 "note"))) ∧
  ∃ n, Some (db.Namespace.mk 2 "b" 200 "note") = Some n ∧ db.Namespace.Name n = "b".
Proof.
  assert (Hrun : db.Repository.CreateNamespace "b" "note" holds_a =
            (db.mkDB [db.Namespace.mk 1 "a" 100 EmptyString; db.Namespace.mk 2 "b" 200 "note"]
               [] [] [] [] [] [] {["namespaces" := 2]} 200 [],
             Ok (Some (db.Namespace.mk 2 "b" 200 "note"))))
    by (vm_compute; reflexivity).
  split; [exact Hrun|].
  destruct (CreateNamespace_round_trip _ _ _ _ _ Hrun) as (n & Hn & Hname & _).
  exists n. split; [exact Hn | exact Hname].
Defined.

(** X2.  A second namespace of a name that is already recorded is refused:
    [CreateNamespace] returns an error wrapped in "failed to create
    namespace" and writes nothing. *)
Theorem CreateNamespace_duplicate (name metadata : string) (d : db.DB) :
  name ∈ db.Namespace.Name <$> db.namespaces d →
  same_rows d (db.Repository.CreateNamespace name metadata d).1 ∧
  ∃ err, (db.Repository.CreateNamespace name metadata d).2
           = Fail (EWrap "failed to create namespace" err) ∧
         (err = db.unique_violation "namespaces.name" ∨
          err = EMsg "database is unavailable").
Proof.
  intros Hdup.
  unfold db.Repository.CreateNamespace, db.Repository.insert_namespace, bind, db.statement.
  destruct (pop_fault (db.faults d)) as [[|] fs]; simpl.
  - split; [apply same_rows_set_faults|]. eexists. split; [done|]. by right.
  - rewrite bool_decide_eq_true_2 by done. simpl.
    split; [apply same_rows_set_faults|]. eexists. split; [done|]. by left.
Qed.

Lemma CreateNamespace_duplicate_witness :
  "a" ∈ db.Namespace.Name <$> db.namespaces holds_a ∧
  same_rows holds_a (db.Repository.CreateNamespace "a" "again" holds_a).1.
Proof.
  assert (Hdup : "a" ∈ db.Namespace.Name <$> db.namespaces holds_a)
    by (apply list_elem_of_singleton; reflexivity).
  split; [exact Hdup|].
  exact (proj1 (CreateNamespace_duplicate "a" "again" holds_a Hdup)).
Defined.

(** X3.  The schema's foreign key is enforced: an address for a namespace
    id that has no row is refused, and nothing is written. *)
Theorem CreateIPAddress_dangling (interfaceName address : string) (id : Z) (d : db.DB) :
  (id ∉ db.Namespace.ID <$> db.namespaces d) →
  same_rows d (db.Repository.CreateIPAddress interfaceName (Some id) address d).1 ∧
  ∃ err, (db.Repository.CreateIPAddress interfaceName (Some id) address d).2
           = Fail (EWrap "failed to create IP address" err) ∧
         (err = db.foreign_key_violation ∨ err = EMsg "database is unavailable").
Proof.
  intros Hmissing.
  unfold db.Repository.CreateIPAddress, db.Repository.insert_ip_address, bind, db.statement.
  destruct (pop_fault (db.faults d)) as [[|] fs]; simpl.
  - split; [apply same_rows_set_faults|]. eexists. split; [done|]. by right.
  - unfold db.namespace_row_exists. simpl.
    rewrite bool_decide_eq_false_2 by done. simpl.
    split; [apply same_rows_set_faults|]. eexists. split; [done|]. by left.
Qed.

Lemma CreateIPAddress_dangling_witness :
  (7 ∉ db.Namespace.ID <$> db.namespaces holds_a) ∧
  same_rows holds_a (db.Repository.CreateIPAddress "eth0" (Some 7) "10.0.0.1/24" holds_a).1.
Proof.
  assert (Hmissing : 7 ∉ db.Namespace.ID <$> db.namespaces holds_a).
  { intros Hin%list_elem_of_singleton. discriminate Hin. }
  split; [exact Hmissing|].
  exact (proj1 (CreateIPAddress_dangling "eth0" "10.0.0.1/24" 7 holds_a Hmissing)).
Defined.

Lemma filter_all {A} (P : A → Prop) `{∀ x, Decision (P x)} (l : list A) :
  (∀ x, x ∈ l → P x) → filter P l = l.
Proof.
  induction l as [|x l IH]; intros Hl; [done|].
  rewrite filter_cons_True by (apply Hl; by left).
  f_equal. apply IH. intros y Hy. apply Hl. by right.
Qed.











(** X6.  [ListIPAddresses] with a namespace id returns exactly the address
    records of that namespace, each once, ordered by interface name; with
    no id it returns every address record. *)
Theorem ListIPAddresses_selects (nsID : option Z) (d d' : db.DB) (rows : list db.IPAddress.t) :
  db.Repository.ListIPAddresses nsID d = (d', Ok rows) →
  Sorted (db.Repository.by_key db.IPAddress.InterfaceName) rows ∧
  rows ≡ₚ filter (fun a => db.Repository.in_namespace nsID (db.IPAddress.NsID a))
            (db.ip_addresses d) ∧
  (∀ id a, nsID = Some id → a ∈ rows → db.IPAddress.NsID a = Some id) ∧
  (nsID = None → rows ≡ₚ db.ip_addresses d) ∧
  same_rows d d'.
Proof.
  unfold db.Repository.ListIPAddresses, bind, db.statement, gets.
  destruct (pop_fault (db.faults d)) as [[|] fs]; simpl; [discriminate|].
  intros [= <- <-].
  assert (Hperm : merge_sort (db.Repository.by_key db.IPAddress.InterfaceName)
                    (filter (fun a => db.Repository.in_namespace nsID (db.IPAddress.NsID a))
                       (db.ip_addresses d))
                  ≡ₚ filter (fun a => db.Repository.in_namespace nsID (db.IPAddress.NsID a))
                       (db.ip_addresses d)) by apply merge_sort_Permutation.
  split_and!.
  - apply Sorted_merge_sort. intros a b. unfold db.Repository.by_key.
    apply (total String.le).
  - exact Hperm.
  - intros id a -> Ha. rewrite Hperm in Ha.
    by apply list_elem_of_filter in Ha as [Hns _].
  - intros ->. rewrite Hperm. by rewrite filter_all.
  - apply same_rows_set_faults.
Qed.

Definition two_addresses : db.DB :=
  db.mkDB [db.Namespace.mk 1 "a" 100 EmptyString] []
          [db.IPAddress.mk 1 "veth1" (Some 1) "10.0.0.1/24" 100;
           db.IPAddress.mk 2 "eth0" None "10.0.0.2/24" 100;
           db.IPAddress.mk 3 "br0" (Some 1) "10.0.0.3/24" 100]
          [] [] [] [] ∅ 200 [].

Lemma ListIPAddresses_selects_witness :
  db.Repository.ListIPAddresses (Some 1) two_addresses
    = (two_addresses, Ok [db.IPAddress.mk 3 "br0" (Some 1) "10.0.0.3/24" 100;
                          db.IPAddress.mk 1 "veth1" (Some 1) "10.0.0.1/24" 100]) ∧
  Sorted (db.Repository.by_key db.IPAddress.InterfaceName)
    [db.IPAddress.mk 3 "br0" (Some 1) "10.0.0.3/24" 100;
     db.IPAddress.mk 1 "veth1" (Some 1) "10.0.0.1/24" 100].
Proof.
  assert (Hrun : db.Repository.ListIPAddresses (Some 1) two_addresses
            = (two_addresses, Ok [db.IPAddress.mk 3 "br0" (Some 1) "10.0.0.3/24" 100;
                                  db.IPAddress.mk 1 "veth1" (Some 1) "10.0.0.1/24" 100]))
    by (vm_compute; reflexivity).
  split; [exact Hrun|].
  exact (proj1 (ListIPAddresses_selects _ _ _ _ Hrun)).
Defined.

(** Every port record points at a bridge record. *)
Definition ports_have_bridges (d : db.DB) : Prop :=
  ∀ p, p ∈ db.bridge_ports d → db.BridgePort.BridgeID p ∈ db.Bridge.ID <$> db.bridges d.

Lemma ports_have_bridges_same (d d' : db.DB) :
  db.bridges d' = db.bridges d → db.bridge_ports d' = db.bridge_ports d →
  ports_have_bridges d → ports_have_bridges d'.
Proof. intros Hb Hp Hok p. rewrite Hb, Hp. apply Hok. Qed.

Lemma ports_after_cascade (keep : db.Bridge.t → Prop) `{∀ b, Decision (keep b)}
  (bridges : list db.Bridge.t) (ports : list db.BridgePort.t) :
  (∀ p, p ∈ ports → db.BridgePort.BridgeID p ∈ db.Bridge.ID <$> bridges) →
  ∀ p, p ∈ filter (fun p => db.BridgePort.BridgeID p ∉
                              db.Bridge.ID <$> filter (fun b => ¬ keep b) bridges) ports →
       db.BridgePort.BridgeID p ∈ db.Bridge.ID <$> filter keep bridges.
Proof.
  intros Hok p [Hlive Hp]%list_elem_of_filter.
  apply Hok, list_elem_of_fmap in Hp as (b & Hid & Hb).
  apply list_elem_of_fmap. exists b. split; [done|].
  apply list_elem_of_filter. split; [|done].
  destruct (decide (keep b)) as [|Hgone]; [done|]. exfalso. apply Hlive.
  apply list_elem_of_fmap. exists b. split; [done|]. by apply list_elem_of_filter.
Qed.

(** X7.  The store never holds a port record without its bridge record:
    when every port points at a bridge before, it does so after
    [CreateBridge], [DeleteBridge], [AddBridgePort], [RemoveBridgePort] and
    [DeleteNamespace], whatever they return. *)
Theorem ports_have_bridges_kept (d : db.DB) :
  ports_have_bridges d →
  (∀ name nsID, ports_have_bridges (db.Repository.CreateBridge name nsID d).1) ∧
  (∀ name, ports_have_bridges (db.Repository.DeleteBridge name d).1) ∧
  (∀ bridgeID interfaceName,
     ports_have_bridges (db.Repository.AddBridgePort bridgeID interfaceName d).1) ∧
  (∀ bridgeID interfaceName,
     ports_have_bridges (db.Repository.RemoveBridgePort bridgeID interfaceName d).1) ∧
  (∀ name, ports_have_bridges (db.Repository.DeleteNamespace name d).1).
Proof.
  intros Hok. split_and!.
  - intros name nsID.
    unfold db.Repository.CreateBridge, db.Repository.insert_bridge,
      db.Repository.GetBridge, bind, db.statement, gets.
    destruct (pop_fault (db.faults d)) as [[|] fs1]; simpl; [done|].
    case_bool_decide; simpl; [done|].
    destruct (negb _); simpl; [done|].
    destruct (pop_fault fs1) as [[|] fs2]; simpl.
    + intros p Hp. simpl in *. rewrite fmap_app. apply elem_of_app. left. by apply Hok.
    + intros p Hp. simpl in *. rewrite fmap_app. apply elem_of_app. left. by apply Hok.
  - intros name.
    unfold db.Repository.DeleteBridge, bind, db.statement, throw, ret.
    destruct (pop_fault (db.faults d)) as [[|] fs]; simpl; [done|].
    assert (Hkept : ports_have_bridges
              (db.Repository.on_delete_bridges
                 (db.Bridge.ID <$> filter (fun b => db.Bridge.Name b = name) (db.bridges d))
                 (db.set_bridges (filter (fun b => db.Bridge.Name b ≠ name) (db.bridges d))
                    (db.set_faults fs d)))).
    { intros p Hp. unfold db.Repository.on_delete_bridges in Hp. simpl in *.
      apply (ports_after_cascade (fun b => db.Bridge.Name b ≠ name) _ _ Hok).
      erewrite (list_filter_iff (fun b => ¬ db.Bridge.Name b ≠ name)); [exact Hp|].
      intros b. split; [by intros ?%dec_stable|by intros ? ?]. }
    by case_bool_decide.
  - intros bridgeID interfaceName.
    unfold db.Repository.AddBridgePort, db.Repository.insert_bridge_port, bind, db.statement.
    destruct (pop_fault (db.faults d)) as [[|] fs1]; simpl; [done|].
    destruct (db.fk_bridge bridgeID (db.set_faults fs1 d)) eqn:Hfk; simpl; [|done].
    assert (Hkept : ∀ fs, ports_have_bridges
              (db.set_faults fs
                 (db.bump "bridge_ports"
                    (db.next_id "bridge_ports" (db.BridgePort.ID <$> db.bridge_ports d)
                       (db.set_faults fs1 d))
                    (db.set_bridge_ports
                       (db.bridge_ports d ++
                          [db.BridgePort.mk
                             (db.next_id "bridge_ports"
                                (db.BridgePort.ID <$> db.bridge_ports d) (db.set_faults fs1 d))
                             bridgeID interfaceName (db.now d)])
                       (db.set_faults fs1 d))))).
    { intros fs p. simpl. intros [Hp| ->%list_elem_of_singleton]%elem_of_app.
      - by apply Hok.
      - simpl. by apply bool_decide_eq_true_1 in Hfk. }
    destruct (pop_fault fs1) as [[|] fs2]; simpl; [apply Hkept|].
    destruct (find _ _); simpl; apply Hkept.
  - intros bridgeID interfaceName.
    unfold db.Repository.RemoveBridgePort, bind, db.statement, throw, ret.
    destruct (pop_fault (db.faults d)) as [[|] fs]; simpl; [done|].
    assert (Hkept : ports_have_bridges
              (db.set_bridge_ports
                 (filter (fun p => ¬ (db.BridgePort.BridgeID p = bridgeID ∧
                                      db.BridgePort.InterfaceName p = interfaceName))
                    (db.bridge_ports d))
                 (db.set_faults fs d))).
    { intros p [_ Hp]%list_elem_of_filter. by apply Hok. }
    by case_bool_decide.
  - intros name.
    unfold db.Repository.DeleteNamespace, db.Repository.delete_namespace_rows, bind,
      db.statement, throw, ret.
    destruct (pop_fault (db.faults d)) as [[|] fs]; simpl; [done|].
    set (gone := db.Namespace.ID <$>
                   filter (fun n => db.Namespace.Name n = name) (db.namespaces d)).
    assert (Hkept : ports_have_bridges
              (db.Repository.on_delete_namespaces gone
                 (db.set_namespaces
                    (filter (fun n => db.Namespace.Name n ≠ name) (db.namespaces d))
                    (db.set_faults fs d)))).
    { intros p Hp.
      unfold db.Repository.on_delete_namespaces, db.Repository.on_delete_bridges in *.
      simpl in *.
      apply (ports_after_cascade
               (fun b => db.Repository.refers gone (db.Bridge.NsID b) = false) _ _ Hok).
      erewrite (list_filter_iff
                  (fun b => ¬ db.Repository.refers gone (db.Bridge.NsID b) = false));
        [exact Hp|].
      intros b. simpl. by destruct (db.Repository.refers gone (db.Bridge.NsID b)). }
    by case_bool_decide.
Qed.

Definition bridge_with_port : db.DB :=
  db.mkDB [] [] [] [] [db.Bridge.mk 1 "br0" None 100] [db.BridgePort.mk 1 1 "v0" 100] []
          ∅ 200 [].

Lemma ports_have_bridges_kept_witness :
  ports_have_bridges bridge_with_port ∧
  ports_have_bridges (db.Repository.DeleteBridge "br0" bridge_with_port).1.
Proof.
  assert (Hok : ports_have_bridges bridge_with_port).
  { intros p ->%list_elem_of_singleton. apply list_elem_of_singleton. reflexivity. }
  split; [exact Hok|].
  destruct (ports_have_bridges_kept bridge_with_port Hok) as (_ & Hdelete & _).
  exact (Hdelete "br0").
Defined.

(** ** The restore script *)

(** X8.  The script takes options only.  Its option loop consumes every
    argument before [main] is called, so [main] sees no action and always
    restores: a word that is not an option, such as [cleanup] or [restore],
    is refused as an unknown option with status 1, and [cleanup_all] is
    never run.  The script either stops with a status in the option loop or
    is [main] without arguments; for root, with the database in place, that
    is the line that names the database followed by [restore_all]. *)
Theorem netns_restore_always_restores {K : Type} `{restore.Tools K}
  (HOME : string) (EUID : Z) (databases : string → option db.DB) (arguments : list string) :
  (∀ word rest,
     arguments = word :: rest → (word ∉ ["--db"; "--log"; "-h"; "--help"]) →
     restore.netns_restore HOME EUID databases arguments = restore.exit 1) ∧
  ((∃ code, restore.netns_restore HOME EUID databases arguments = restore.exit code) ∨
   (∃ DB_PATH,
      restore.netns_restore HOME EUID databases arguments =
        restore.main EUID DB_PATH (databases DB_PATH) [])) ∧
  (∀ DB_PATH d (s : restore.Shell K),
     restore.main 0 DB_PATH (Some d) [] s =
       restore.seq (restore.log_info ("Using database: " +:+ DB_PATH))
                   (restore.restore_all d) s).
Proof.
  split_and!.
  - intros word rest -> Hword. unfold restore.netns_restore. cbn [restore.parse_arguments].
    rewrite !bool_decide_eq_false_2; [done|set_solver..].
  - unfold restore.netns_restore.
    destruct (restore.parse_arguments arguments _ _) as [DB_PATH LOG_PATH|code].
    + right. by exists DB_PATH.
    + left. by exists code.
  - intros DB_PATH d s. unfold restore.main, restore.check_root, restore.check_db.
    simpl. by unfold restore.seq.
Qed.

Lemma netns_restore_always_restores_witness :
  ("cleanup" ∉ ["--db"; "--log"; "-h"; "--help"]) ∧
  restore.netns_restore "/root" 0 (fun _ => None) ["cleanup"] =
    (restore.exit 1 : restore.Script RefKernel.t).
Proof.
  assert (Hword : "cleanup" ∉ ["--db"; "--log"; "-h"; "--help"]) by set_solver.
  split; [exact Hword|].
  destruct (@netns_restore_always_restores RefKernel.t RefIp.tools "/root" 0
              (fun _ => None) ["cleanup"]) as (Hrefused & _).
  exact (Hrefused "cleanup" [] eq_refl Hword).
Defined.
